(** * SkiTouring: the filter, load, bounds and popup logic of the tour browser

    A shallow embedding of the two page scripts of the site,

    - [docs/js/main.js]         (card grid and Leaflet map), module [Main];
    - [docs/js/main_mapbox.js]  (Mapbox GL map),              module [MainMapbox];

    followed by the properties of the filtering-and-rendering pipeline.  The
    later copy of [main_mapbox.js], which adds a hover popup and drops
    [trackColorFromProps], has the same [passesFilters], [uniqSorted],
    [boundsForFeatures], [popupHtml] and [loadGeoJSON].

    Conventions of the embedding.

    - A JavaScript string is a [string]; its code units are the characters of
      the ASCII range, for which [toLowerCase] maps [A-Z] to [a-z] and [trim]
      removes tab, line feed, vertical tab, form feed, carriage return and
      space.
    - A value parsed from JSON is a [value]; numbers are kept abstract
      (class [JSNumber]), since only their printing, their truthiness and
      their being a latitude are observed.  Data whose fields hide a
      built-in method of objects (a field named [toString]) is not covered.
    - Code that can raise is written in the [completion] monad; the DOM, the
      console and the map library are explicit state, the library calls
      being recorded in the order they are made.
    - The map libraries are not part of the scripts.  Their calls that raise
      on data are modelled as raising: [LngLatBounds.extend] of Mapbox GL on
      a latitude outside [-90, 90], [L.geoJSON] of Leaflet on a feature whose
      geometry it cannot read, and [getBounds().pad()] on a layer without
      bounds (class [Leaflet]).  The other calls ([setData], [removeLayer],
      [fitBounds] on bounds that hold a point, the popups, [window.open])
      are taken to return. *)

From Stdlib Require Import String Ascii List Bool Arith ZArith Lia.
From Stdlib Require Import Sorting.Sorted Sorting.Permutation.
From Stdlib Require Import Numbers.DecimalString.
Import ListNotations.
Open Scope list_scope.
Open Scope string_scope.

(* ================================================================== *)
(** ** JavaScript strings *)

(** White space removed by [String.prototype.trim] (ASCII range). *)
Definition is_ws (c : ascii) : bool :=
  let n := nat_of_ascii c in
  (((9 <=? n) && (n <=? 13)) || (n =? 32))%nat.

Definition lower_char (c : ascii) : ascii :=
  let n := nat_of_ascii c in
  if ((65 <=? n) && (n <=? 90))%nat then ascii_of_nat (n + 32) else c.

(** [s.toLowerCase()] *)
Fixpoint toLowerCase (s : string) : string :=
  match s with
  | EmptyString => EmptyString
  | String c s' => String (lower_char c) (toLowerCase s')
  end.

Fixpoint trimStart (s : string) : string :=
  match s with
  | EmptyString => EmptyString
  | String c s' => if is_ws c then trimStart s' else s
  end.

Fixpoint trimEnd (s : string) : string :=
  match s with
  | EmptyString => EmptyString
  | String c s' =>
      match trimEnd s' with
      | EmptyString => if is_ws c then EmptyString else String c EmptyString
      | r => String c r
      end
  end.

(** [s.trim()] *)
Definition trim (s : string) : string := trimEnd (trimStart s).

(** [hay.includes(q)] *)
Fixpoint includes (hay q : string) : bool :=
  prefix q hay ||
  match hay with
  | EmptyString => false
  | String _ hay' => includes hay' q
  end.

(** [s.replaceAll(c, r)] for a one-character pattern [c]; the replacement
    strings used by the scripts contain no [$] pattern. *)
Fixpoint replaceAll (c : ascii) (r : string) (s : string) : string :=
  match s with
  | EmptyString => EmptyString
  | String a s' =>
      if Ascii.eqb a c then r ++ replaceAll c r s'
      else String a (replaceAll c r s')
  end.

(** [xs.join(sep)] on an array of strings. *)
Definition join (sep : string) (xs : list string) : string := String.concat sep xs.

(** JavaScript truthiness of a string. *)
Definition nonempty (s : string) : bool :=
  match s with EmptyString => false | _ => true end.

(** [c] occurs in [s]. *)
Fixpoint occurs (c : ascii) (s : string) : bool :=
  match s with
  | EmptyString => false
  | String a s' => Ascii.eqb a c || occurs c s'
  end.

(** [q] is a contiguous part of [s]. *)
Definition substring_of (q s : string) : Prop :=
  exists a b, s = a ++ q ++ b.

(* ================================================================== *)
(** ** JavaScript values *)

(** What is observed of a JavaScript number: by the scripts, its decimal
    printing ([String(n)], [n.toString()], template literals) and its
    truthiness (false exactly for [0], [-0] and [NaN]); by Mapbox GL, whether
    it lies between -90 and 90, which [new LngLat(lng, lat)] requires of
    [lat]. *)
Class JSNumber (number : Type) : Type := {
  num_toString : number -> string;
  num_truthy : number -> bool;
  num_latitude : number -> bool
}.

(** Values as [JSON.parse] produces them, plus [undefined] for what is
    absent.  An object is the list of its own fields, the first binding of a
    key being the one that is read. *)
#[warnings="-register-all"]
Inductive value (number : Type) : Type :=
| VUndefined
| VNull
| VBool (b : bool)
| VNum (n : number)
| VStr (s : string)
| VArr (items : list (value number))
| VObj (fields : list (string * value number)).

Arguments VUndefined {number}.
Arguments VNull {number}.
Arguments VBool {number} b.
Arguments VNum {number} n.
Arguments VStr {number} s.
Arguments VArr {number} items.
Arguments VObj {number} fields.

(** Exceptions the scripts can meet. *)
Inductive exn : Type :=
| TypeError      (* property read on null or undefined, call of a non-function *)
| NetworkError   (* rejected [fetch] *)
| SyntaxError    (* [res.json()] on a body that is not JSON *)
| LibraryError.  (* raised inside a call into Leaflet or Mapbox GL *)

(** Outcome of a computation that can raise. *)
Inductive completion (A : Type) : Type :=
| Return (a : A)
| Throw (e : exn).

Arguments Return {A} a.
Arguments Throw {A} e.

Definition bind {A B : Type} (m : completion A) (k : A -> completion B)
  : completion B :=
  match m with
  | Return a => k a
  | Throw e => Throw e
  end.

Notation "x <- m ;; k" := (bind m (fun x => k))
  (at level 61, m at next level, right associativity).

Section Values.
Context {number : Type} {N : JSNumber number}.

Local Abbreviation val := (value number).

(** An object seen through its fields. *)
Definition object : Type := list (string * val).

(** [Boolean(v)] *)
Definition truthy (v : val) : bool :=
  match v with
  | VUndefined | VNull => false
  | VBool b => b
  | VNum n => num_truthy n
  | VStr s => nonempty s
  | VArr _ | VObj _ => true
  end.

Definition nullish (v : val) : bool :=
  match v with
  | VUndefined | VNull => true
  | _ => false
  end.

(** [a || b] *)
Definition js_or (a b : val) : val := if truthy a then a else b.

(** [a ?? b] *)
Definition coalesce (a b : val) : val := if nullish a then b else a.

(** [String(v)], which is also [v.toString()] when [v] is neither [null]
    nor [undefined].  An array prints its items separated by commas, the
    items [null] and [undefined] printing as nothing; an object prints as
    [[object Object]]. *)
Fixpoint ToString (v : val) : string :=
  match v with
  | VUndefined => "undefined"
  | VNull => "null"
  | VBool true => "true"
  | VBool false => "false"
  | VNum n => num_toString n
  | VStr s => s
  | VArr items =>
      join ","
        (map (fun x => if nullish x then "" else ToString x) items)
  | VObj _ => "[object Object]"
  end.

(** Field [k] of an object; [undefined] when there is none. *)
Fixpoint field (p : object) (k : string) : val :=
  match p with
  | [] => VUndefined
  | (k', v) :: p' => if String.eqb k' k then v else field p' k
  end.

(** Own data fields of a value that is not [null] or [undefined]: strings,
    numbers, booleans and arrays have none of the field names the scripts
    read. *)
Definition fields (v : val) : object :=
  match v with
  | VObj fs => fs
  | _ => []
  end.

(** [v.k]: raises on [null] and [undefined]. *)
Definition get (v : val) (k : string) : completion val :=
  if nullish v then Throw TypeError else Return (field (fields v) k).

(** [v?.k] *)
Definition opt_get (v : val) (k : string) : val :=
  if nullish v then VUndefined else field (fields v) k.

(** Decimal key under which an object holds index [i]. *)
Definition index_key (i : nat) : string :=
  NilEmpty.string_of_uint (Nat.to_uint i).

(** [v[i]] for [v] neither [null] nor [undefined]: an item of an array, a
    character of a string, the field of an object. *)
Definition item (v : val) (i : nat) : val :=
  match v with
  | VArr items => nth i items VUndefined
  | VStr s =>
      match String.get i s with
      | Some c => VStr (String c EmptyString)
      | None => VUndefined
      end
  | VObj fs => field fs (index_key i)
  | _ => VUndefined
  end.

(** [v[i]]: raises on [null] and [undefined]. *)
Definition get_item (v : val) (i : nat) : completion val :=
  if nullish v then Throw TypeError else Return (item v i).

(** [typeof v === "number"] *)
Definition is_number (v : val) : bool :=
  match v with VNum _ => true | _ => false end.

(** [v != null] *)
Definition not_null (v : val) : bool := negb (nullish v).

(** [norm] of both scripts:
    [(s ?? "").toString().trim().toLowerCase()]. *)
Definition norm (s : val) : string :=
  toLowerCase (trim (ToString (coalesce s (VStr "")))).

(** The [.value] of the control found by [$(id)?.value]: [undefined] when
    the page has no such element. *)
Definition control_value (e : option string) : val :=
  match e with
  | Some s => VStr s
  | None => VUndefined
  end.

(** [f.properties || {}] for an item [f] of the feature array. *)
Definition properties_or_empty (f : val) : completion object :=
  p <- get f "properties" ;;
  Return (fields (js_or p (VObj []))).

(** [window.open(url, target, features)] *)
Record window_open : Type := WindowOpen {
  wo_url : string;
  wo_target : string;
  wo_features : string
}.

(** [openTour] of both scripts.  The result is the list of windows opened
    by the call. *)
Definition openTour (p : object) : list window_open :=
  let url :=
    js_or (field p "page")
          (if truthy (field p "slug")
           then VStr ("./tours/" ++ ToString (field p "slug") ++ ".html")
           else VNull) in
  if negb (truthy url) then []
  else [WindowOpen (ToString url) "_blank" "noopener,noreferrer"].

End Values.

Arguments object : clear implicits.


(** Decimal printing of a length ([features.length] in a template). *)
Definition string_of_nat (n : nat) : string :=
  NilEmpty.string_of_uint (Nat.to_uint n).

(** What [fetch(DATA_URL)] followed by [res.json()] can give: a rejected
    request, or a response with its [ok] flag and its body, [None] when the
    body is not JSON. *)
Inductive fetch_outcome (number : Type) : Type :=
| Rejected
| Responded (ok : bool) (body : option (value number)).

Arguments Rejected {number}.
Arguments Responded {number} ok body.

Section Loading.
Context {number : Type} {N : JSNumber number}.

Local Abbreviation val := (value number).

(** [(gj.features || []).filter(Boolean)]: raises when [gj] is [null] and
    when [features] is something else than an array. *)
Definition features_of (gj : val) : completion (list val) :=
  fs <- get gj "features" ;;
  match js_or fs (VArr []) with
  | VArr items => Return (filter truthy items)
  | _ => Throw TypeError
  end.

(** [xs.filter(f => pred(f.properties || {}))] *)
Fixpoint filter_by_properties (pred : object number -> bool) (xs : list val)
  : completion (list val) :=
  match xs with
  | [] => Return []
  | f :: xs' =>
      p <- properties_or_empty f ;;
      rest <- filter_by_properties pred xs' ;;
      Return (if pred p then f :: rest else rest)
  end.

End Loading.

(* ================================================================== *)
(** ** Style expressions of Mapbox GL

    The paint properties of the layers are expressions that the map
    evaluates on the properties of each feature.  The operators below are
    those the script uses, with the meaning the style specification gives
    them: [get] gives [null] for a property that is missing, [coalesce] its
    first argument that is not [null], [downcase] and [==] are for strings,
    and [case] gives the output of its first test that holds. *)

#[warnings="-register-all"]
Inductive expr : Type :=
| ELit (s : string)
| EGet (k : string)
| ECoalesce (es : list expr)
| EDowncase (e : expr)
| EEq (a b : expr)
| EAny (es : list expr)
| ECase (branches : list (expr * expr)) (otherwise : expr).

Section StyleExpressions.
Context {number : Type} {N : JSNumber number}.

Local Abbreviation val := (value number).

(** The value of an expression on the properties [p]; [None] when the
    evaluation fails, in which case the map falls back on the default of
    the paint property. *)
Fixpoint evaluate (p : object number) (e : expr) : option val :=
  match e with
  | ELit s => Some (VStr s)
  | EGet k => Some (coalesce (field p k) VNull)
  | ECoalesce es =>
      (fix first (l : list expr) : option val :=
         match l with
         | [] => Some VNull
         | e' :: l' =>
             match evaluate p e' with
             | Some VNull => first l'
             | r => r
             end
         end) es
  | EDowncase e' =>
      match evaluate p e' with
      | Some (VStr s) => Some (VStr (toLowerCase s))
      | _ => None
      end
  | EEq a b =>
      match evaluate p a, evaluate p b with
      | Some (VStr x), Some (VStr y) => Some (VBool (x =? y))
      | _, _ => None
      end
  | EAny es =>
      (fix any (l : list expr) : option val :=
         match l with
         | [] => Some (VBool false)
         | e' :: l' =>
             match evaluate p e' with
             | Some (VBool true) => Some (VBool true)
             | Some (VBool false) => any l'
             | _ => None
             end
         end) es
  | ECase branches otherwise =>
      (fix pick (l : list (expr * expr)) : option val :=
         match l with
         | [] => evaluate p otherwise
         | (test, output) :: l' =>
             match evaluate p test with
             | Some (VBool true) => evaluate p output
             | Some (VBool false) => pick l'
             | _ => None
             end
         end) branches
  end.

End StyleExpressions.

(* ================================================================== *)
(** ** Leaflet, as [main.js] meets it

    What the script observes of Leaflet on the data it hands over.
    [L.geoJSON] goes through the features one by one: it passes over a
    feature without geometry, builds the layer of a geometry it can read,
    and raises on one it cannot (a point without coordinates, a type it does
    not know).  [getBounds().pad(0.15)] raises on a layer group that holds
    no located layer.  Which data is readable and which has bounds is
    Leaflet's affair and is left open here. *)
Class Leaflet (number : Type) : Type := {
  (* [L.geoJSON(fc, options).addTo(map)] gets through the feature *)
  leaflet_reads : value number -> bool;
  (* [geoLayer.getBounds().pad(0.15)] returns, for the layer of these
     features *)
  layer_bounds : list (value number) -> bool;
  (* [L.geoJSON(gj).getBounds().pad(0.15)] returns, for the document [gj] *)
  data_bounds : value number -> bool
}.

(* ================================================================== *)
(** ** docs/js/main.js: card grid and Leaflet map *)

Module Main.

Definition DATA_URL : string := "data/tours.geojson".

(** The filter controls of the page: the [.value] of the elements [q],
    [difficulty] and [activity], [None] for an element the page lacks. *)
Record controls : Type := Controls {
  q : option string;
  difficulty : option string;
  activity : option string
}.

(** Cover of a card: an image with its [alt] and [src], or a text. *)
Inductive cover : Type :=
| CoverImg (alt src : string)
| CoverText (text : string).

(** A card of the grid; [card_click] is what a click on the card opens. *)
Record card : Type := Card {
  card_cover : cover;
  card_title : string;
  card_subtitle : option string;
  card_chips : list string;
  card_click : list window_open
}.

(** Calls of [map.fitBounds]: what the viewport is asked to contain. *)
Inductive fit_request (number : Type) : Type :=
| FitLayer (layer : list (value number))   (* the fit button *)
| FitData (gj : value number).             (* the initial fit *)

Arguments FitLayer {number} layer.
Arguments FitData {number} gj.

(** State of the page: the module variables [allFeatures] and [geoLayer],
    the controls, the elements [grid] and [count] ([None] when absent), and
    the traces of what was asked of the map, the console and the network. *)
Record state (number : Type) : Type := State {
  allFeatures : list (value number);
  geoLayer : option (list (value number));
  ctl : controls;
  grid : option (list card);
  count : option string;
  fits : list (fit_request number);
  console : list exn;
  requests : list string
}.

Arguments State {number}.
Arguments allFeatures {number} s.
Arguments geoLayer {number} s.
Arguments ctl {number} s.
Arguments grid {number} s.
Arguments count {number} s.
Arguments fits {number} s.
Arguments console {number} s.
Arguments requests {number} s.

(** A string between double quotes. *)
Definition quoted (s : string) : string :=
  String "034"%char (s ++ String "034"%char EmptyString).

Section Script.
Context {number : Type} {N : JSNumber number} {L : Leaflet number}.

Local Abbreviation val := (value number).
Local Abbreviation props := (object number).

(** The constant [hay] of [passesFilters]. *)
Definition hay (p : props) : string :=
  norm (field p "title") ++ " " ++ norm (field p "region") ++ " " ++
  norm (field p "subtitle") ++ " " ++ norm (field p "activity") ++ " " ++
  norm (field p "difficulty").

Definition passesFilters (c : controls) (p : props) : bool :=
  let q := norm (control_value (number := number) (q c)) in
  let diff := norm (control_value (number := number) (difficulty c)) in
  let act := norm (control_value (number := number) (activity c)) in
  let hay := hay p in
  if nonempty q && negb (includes hay q) then false
  else if nonempty diff && negb (norm (field p "difficulty") =? diff) then false
  else if nonempty act && negb (norm (field p "activity") =? act) then false
  else true.

(** [addChip(text)]: nothing for a falsy [text] other than the number zero;
    a number parsed from JSON is never [NaN], so every number gets a chip. *)
Definition addChip (text : val) : list string :=
  if negb (truthy text) && negb (is_number text) then []
  else [ToString text].

(** The card built for one feature by the loop of [renderCards]. *)
Definition card_of (p : props) : card :=
  Card
    (if truthy (field p "cover")
     then CoverImg (ToString (js_or (field p "title") (VStr "Tour cover")))
                   (ToString (field p "cover"))
     else CoverText "No cover")
    (ToString (js_or (js_or (field p "title") (field p "slug"))
                     (VStr "Untitled tour")))
    (let text :=
       ToString (js_or (js_or (field p "region") (field p "subtitle"))
                       (VStr "")) in
     if nonempty text then Some text else None)
    (addChip (field p "activity") ++ addChip (field p "difficulty") ++
     (if not_null (field p "vert_m")
      then addChip (VStr (ToString (field p "vert_m") ++ " m")) else []) ++
     (if not_null (field p "distance_km")
      then addChip (VStr (ToString (field p "distance_km") ++ " km"))
      else []))%list
    (openTour p).

Definition set_count (text : string) (s : state number) : state number :=
  match count s with
  | Some _ =>
      State (allFeatures s) (geoLayer s) (ctl s) (grid s) (Some text)
        (fits s) (console s) (requests s)
  | None => s
  end.

Definition set_allFeatures (fs : list val) (s : state number) : state number :=
  State fs (geoLayer s) (ctl s) (grid s) (count s)
    (fits s) (console s) (requests s).

Definition log_error (e : exn) (s : state number) : state number :=
  State (allFeatures s) (geoLayer s) (ctl s) (grid s) (count s)
    (fits s) (console s ++ [e])%list (requests s).

Definition log_request (url : string) (s : state number) : state number :=
  State (allFeatures s) (geoLayer s) (ctl s) (grid s) (count s)
    (fits s) (console s) (requests s ++ [url])%list.

Definition log_fit (r : fit_request number) (s : state number)
  : state number :=
  State (allFeatures s) (geoLayer s) (ctl s) (grid s) (count s)
    (fits s ++ [r])%list (console s) (requests s).

Definition set_grid (cs : list card) (s : state number) : state number :=
  match grid s with
  | Some _ =>
      State (allFeatures s) (geoLayer s) (ctl s) (Some cs) (count s)
        (fits s) (console s) (requests s)
  | None => s
  end.

(** The loop of [renderCards]: the cards appended to the grid, and the
    exception that stopped the loop, if any. *)
Fixpoint cards_of (features : list val) : list card * option exn :=
  match features with
  | [] => ([], None)
  | f :: fs =>
      match properties_or_empty f with
      | Throw e => ([], Some e)
      | Return p => let (cs, r) := cards_of fs in (card_of p :: cs, r)
      end
  end.

(** [renderCards(features)]: nothing without both [grid] and [count]. *)
Definition renderCards (features : list val) (s : state number)
  : state number * option exn :=
  match grid s, count s with
  | Some _, Some _ =>
      let (cs, r) := cards_of features in
      let s1 := set_grid cs s in
      match r with
      | Some e => (s1, Some e)
      | None =>
          (set_count (string_of_nat (length features) ++ " tours shown") s1,
           None)
      end
  | _, _ => (s, None)
  end.

Definition set_geoLayer (layer : option (list val)) (s : state number)
  : state number :=
  State (allFeatures s) layer (ctl s) (grid s) (count s)
    (fits s) (console s) (requests s).

(** [L.geoJSON(fc, options).addTo(map)] for the collection of [features]:
    the layer, seen through the features it was made of.  Leaflet raises on
    the first feature it cannot read; [onEachFeature], which it calls on
    the features it draws, does not raise on them ([onEachFeature] below). *)
Definition geoJSON (features : list val) : completion (list val) :=
  if forallb leaflet_reads features then Return features
  else Throw LibraryError.

(** [renderMap(features)]: the previous layer is removed and [geoLayer] set
    to [null]; then the layer of [features] is made, added and assigned to
    [geoLayer], unless Leaflet raises ([map] is set by [initMap] before any
    call). *)
Definition renderMap (features : list val) (s : state number)
  : state number * option exn :=
  let s0 := set_geoLayer None s in
  match geoJSON features with
  | Return layer => (set_geoLayer (Some layer) s0, None)
  | Throw e => (s0, Some e)
  end.

(** The constant [html] of [onEachFeature] in [renderMap]: what
    [layer.bindPopup] is given for a feature of properties [p]. *)
Definition layer_popup (p : props) : string :=
  ("<b>" ++ ToString (coalesce (coalesce (field p "title") (field p "slug"))
                         (VStr "Tour")) ++ "</b>") ++
  (if truthy (field p "region")
   then "<br>" ++ ToString (field p "region") else "") ++
  (if not_null (field p "vert_m")
   then "<br>Vert: " ++ ToString (field p "vert_m") ++ " m" else "") ++
  (if not_null (field p "distance_km")
   then "<br>Dist: " ++ ToString (field p "distance_km") ++ " km" else "") ++
  (if truthy (field p "gpx")
   then "<br><a href=" ++ quoted (ToString (field p "gpx")) ++ " target="
        ++ quoted "_blank" ++ " rel=" ++ quoted "noopener"
        ++ ">Download GPX</a>"
   else "").


Definition applyFiltersAndRender (s : state number)
  : state number * option exn :=
  match filter_by_properties (passesFilters (ctl s)) (allFeatures s) with
  | Throw e => (s, Some e)
  | Return filtered =>
      match renderCards filtered s with
      | (s1, Some e) => (s1, Some e)
      | (s1, None) => renderMap filtered s1
      end
  end.

(** The [catch] clause of [loadGeoJSON]. *)
Definition load_failed (e : exn) (s : state number) : state number :=
  log_error e (set_count ("Failed to load " ++ DATA_URL) s).

(** The initial fit of [loadGeoJSON], inside its own [try]: [map.fitBounds]
    is reached when [L.geoJSON(gj).getBounds().pad(0.15)] returns; what is
    raised before is dropped. *)
Definition initial_fit (gj : val) (s : state number) : state number :=
  if data_bounds gj then log_fit (FitData gj) s else s.

(** [loadGeoJSON()], given what the one [fetch] gives.  The result pairs the
    state left behind with the exception that escapes the call, if any. *)
Definition loadGeoJSON (r : fetch_outcome number) (s : state number)
  : state number * option exn :=
  let s := log_request DATA_URL s in
  match r with
  | Rejected => (load_failed NetworkError s, None)
  | Responded false _ => (set_count ("Failed to load " ++ DATA_URL) s, None)
  | Responded true None => (load_failed SyntaxError s, None)
  | Responded true (Some gj) =>
      match features_of gj with
      | Throw e => (load_failed e s, None)
      | Return fs =>
          match applyFiltersAndRender (set_allFeatures fs s) with
          | (s1, Some e) => (load_failed e s1, None)
          | (s1, None) =>
              (match fs with
               | [] => s1
               | _ => initial_fit gj s1
               end, None)
          end
      end
  end.

(** What the user does after the page is set up. *)
Inductive event : Type :=
| EditControls (c : controls)   (* typing in [q], choosing in a selector *)
| ClickTocChip (preset : string)
| ClickFit.

Definition set_ctl (c : controls) (s : state number) : state number :=
  State (allFeatures s) (geoLayer s) c (grid s) (count s)
    (fits s) (console s) (requests s).

(** A listener that raises leaves the state it reached; the exception is
    reported on the console. *)
Definition report (r : state number * option exn) : state number :=
  match r with
  | (s, Some e) => log_error e s
  | (s, None) => s
  end.

(** One event and its listener. *)
Definition handle (e : event) (s : state number) : state number :=
  match e with
  | EditControls c => report (applyFiltersAndRender (set_ctl c s))
  | ClickTocChip preset =>
      let s :=
        match q (ctl s) with
        | Some _ =>
            set_ctl (Controls (Some preset) (difficulty (ctl s))
                       (activity (ctl s))) s
        | None => s
        end in
      report (applyFiltersAndRender s)
  | ClickFit =>
      (* [map.fitBounds] is reached when [geoLayer.getBounds().pad(0.15)]
         returns; what is raised before is dropped by the [catch] *)
      match geoLayer s with
      | Some layer =>
          if layer_bounds layer then log_fit (FitLayer layer) s else s
      | None => s
      end
  end.

Definition run (es : list event) (s : state number) : state number :=
  fold_left (fun s e => handle e s) es s.

End Script.

End Main.

(* ================================================================== *)
(** ** docs/js/main_mapbox.js: Mapbox GL map *)

Module MainMapbox.

(** The filter controls of the page: the [.value] of the elements [q],
    [province] and [region], [None] for an element the page lacks. *)
Record controls : Type := Controls {
  q : option string;
  province : option string;
  region : option string
}.

(** A [select] element: its options (value and label) and its value. *)
Record select : Type := Select {
  options : list (string * string);
  selected : string
}.

(** A [mapboxgl.LngLatBounds], seen through the points it was extended
    with; it is empty as long as it was extended with none. *)
Definition bounds (number : Type) : Type := list (number * number).

(** [bounds.extend([x, y])]: Mapbox GL makes a [LngLat] of the pair, which
    raises when the latitude [y] is outside [-90, 90], and else takes the
    point into the bounds. *)
Definition extend {number : Type} {N : JSNumber number}
    (b : bounds number) (x y : number) : completion (bounds number) :=
  if num_latitude y then Return (b ++ [(x, y)])%list
  else Throw LibraryError.

Definition isEmpty {number : Type} (b : bounds number) : bool :=
  match b with [] => true | _ => false end.

(** [map.fitBounds(b, { padding, duration })] *)
Record fit_call (number : Type) : Type := FitBounds {
  fit_bounds : bounds number;
  fit_padding : nat;
  fit_duration : nat
}.

Arguments FitBounds {number}.

(** State of the page: the module variable [allFeatures], the elements [q],
    [province] and [region] ([None] when absent), the data of the map source
    [tours] ([None] when the map has no such source), and the traces of what
    was asked of the map, the console and the network. *)
Record state (number : Type) : Type := State {
  allFeatures : list (value number);
  query : option string;
  provinceSelect : option select;
  regionSelect : option select;
  source : option (list (value number));
  fits : list (fit_call number);
  console : list exn;
  requests : list string
}.

Arguments State {number}.
Arguments allFeatures {number} s.
Arguments query {number} s.
Arguments provinceSelect {number} s.
Arguments regionSelect {number} s.
Arguments source {number} s.
Arguments fits {number} s.
Arguments console {number} s.
Arguments requests {number} s.

(** The direction of a feature, as the paint expressions of
    [ensureSourceAndLayers] read it:
    [["downcase", ["coalesce", ["get", "direction"], ["get", "direcrtion"], ""]]]. *)
Definition direction_expr : expr :=
  EDowncase (ECoalesce [EGet "direction"; EGet "direcrtion"; ELit ""]).

(** The expression of [line-color], which is also that of [circle-color]. *)
Definition line_color : expr :=
  ECase
    [(EAny [EEq direction_expr (ELit "up");
            EEq direction_expr (ELit "ascent")],
      ELit "#1f6feb");
     (EAny [EEq direction_expr (ELit "down");
            EEq direction_expr (ELit "descent")],
      ELit "#b64a4a");
     (EAny [EEq direction_expr (ELit "traverse");
            EEq direction_expr (ELit "cross")],
      ELit "#b000b5")]
    (ELit "#1f6feb").

Definition circle_color : expr := line_color.

Definition dquote : ascii := "034"%char.

Definition quoted (s : string) : string :=
  String dquote (s ++ String dquote EmptyString).

Section Script.
Context {number : Type} {N : JSNumber number}.

(** [a.localeCompare(b, undefined, { sensitivity: "base" })], the collation
    of the browser, by its sign. *)
Variable localeCompare : string -> string -> comparison.

(** [new URL("./data/tours.geojson", document.baseURI).href] *)
Variable DATA_URL : string.

Local Abbreviation val := (value number).
Local Abbreviation props := (object number).

(** Direction -> color (supports typo 'direcrtion' too) *)
Definition trackColorFromProps (p : val) : string :=
  let d :=
    norm (js_or (js_or (opt_get p "direction") (opt_get p "direcrtion"))
                (VStr "")) in
  if (d =? "up") || (d =? "ascent") then "#1f6feb"
  else if (d =? "down") || (d =? "descent") then "#b64a4a"
  else if (d =? "traverse") || (d =? "cross") then "#b000b5"
  else "#1f6feb".

(** The constant [hay] of [passesFilters]. *)
Definition hay (p : props) : string :=
  norm (field p "title") ++ " " ++ norm (field p "region") ++ " " ++
  norm (field p "province") ++ " " ++ norm (field p "subtitle") ++ " " ++
  norm (field p "country").

Definition passesFilters (c : controls) (p : props) : bool :=
  let q := norm (control_value (number := number) (q c)) in
  let prov := norm (control_value (number := number) (province c)) in
  let reg := norm (control_value (number := number) (region c)) in
  let hay := hay p in
  if nonempty q && negb (includes hay q) then false
  else if nonempty prov && negb (norm (field p "province") =? prov) then false
  else if nonempty reg && negb (norm (field p "region") =? reg) then false
  else true.

(** [new Set(xs)], in insertion order. *)
Definition set_of (xs : list string) : list string :=
  fold_left
    (fun seen x => if existsb (String.eqb x) seen then seen
                   else (seen ++ [x])%list)
    xs [].

Fixpoint insert_sorted (x : string) (l : list string) : list string :=
  match l with
  | [] => [x]
  | y :: l' =>
      match localeCompare x y with
      | Gt => y :: insert_sorted x l'
      | _ => x :: l
      end
  end.

(** [xs.sort((a, b) => a.localeCompare(b, ...))]: a stable sort. *)
Fixpoint sort (xs : list string) : list string :=
  match xs with
  | [] => []
  | x :: xs' => insert_sorted x (sort xs')
  end.

Definition uniqSorted (arr : list string) : list string :=
  sort (set_of (filter nonempty arr)).

(** [populateSelect(id, values, allLabel)] on the element found for [id]. *)
Definition populateSelect (el : option select) (values : list string)
    (allLabel : string) : option select :=
  match el with
  | None => None
  | Some e =>
      let current := selected e in
      Some (Select (("", allLabel) :: map (fun v => (v, v)) values)
              (if existsb (String.eqb current) values then current else ""))
  end.

(** The loop [for (const c of coords)] of [extendBoundsWithCoords]. *)
Definition extend_each (extend : bounds number -> val -> completion (bounds number))
  : list val -> bounds number -> completion (bounds number) :=
  fix loop (cs : list val) (b : bounds number) : completion (bounds number) :=
    match cs with
    | [] => Return b
    | c :: cs' => b' <- extend b c ;; loop cs' b'
    end.

(** The last [match] is [Array.isArray(coords)] and the loop on its items. *)
Fixpoint extendBoundsWithCoords (b : bounds number) (coords : val)
  {struct coords} : completion (bounds number) :=
  if negb (truthy coords) then Return b
  else
    c0 <- get_item coords 0 ;;
    c1 <- get_item coords 1 ;;
    match c0, c1 with
    | VNum x, VNum y => extend b x y
    | _, _ =>
        match coords with
        | VArr cs => extend_each extendBoundsWithCoords cs b
        | _ => Return b
        end
    end.

(** The loop of [boundsForFeatures], from the bounds [b] reached so far;
    [None] is [null]. *)
Fixpoint bounds_from (b : option (bounds number)) (features : list val)
  : completion (option (bounds number)) :=
  match features with
  | [] => Return b
  | f :: fs =>
      let g := opt_get f "geometry" in
      if negb (truthy g) then bounds_from b fs
      else
        coords <- get g "coordinates" ;;
        if negb (truthy coords) then bounds_from b fs
        else
          let b0 := match b with Some b0 => b0 | None => [] end in
          b1 <- extendBoundsWithCoords b0 coords ;;
          bounds_from (Some b1) fs
  end.

Definition boundsForFeatures (features : list val)
  : completion (option (bounds number)) :=
  bounds_from None features.

Definition escapeHtml (s : val) : string :=
  replaceAll "'"%char "&#039;"
    (replaceAll dquote "&quot;"
       (replaceAll ">"%char "&gt;"
          (replaceAll "<"%char "&lt;"
             (replaceAll "&"%char "&amp;" (ToString s))))).

(** minimal attribute escaping *)
Definition escapeAttr (s : val) : string :=
  replaceAll dquote "%22" (ToString s).

(** The array [lines] of [popupHtml], before [.filter(Boolean)]. *)
Definition popup_lines (p : props) : list string :=
  let dir := js_or (js_or (field p "direction") (field p "direcrtion"))
                   (VStr "") in
  let title := coalesce (coalesce (field p "title") (field p "slug"))
                        (VStr "Tour") in
  [ "<b>" ++ escapeHtml title ++ "</b>";
    if truthy (field p "region") then escapeHtml (field p "region") else "";
    if truthy dir then escapeHtml dir else "";
    if not_null (field p "vert_m")
    then "Vert: " ++ escapeHtml (VStr (ToString (field p "vert_m"))) ++ " m"
    else "";
    if not_null (field p "distance_km")
    then "Dist: " ++ escapeHtml (VStr (ToString (field p "distance_km")))
         ++ " km"
    else "";
    if truthy (field p "gpx")
    then "<a href=" ++ quoted (escapeAttr (field p "gpx")) ++ " target="
         ++ quoted "_blank" ++ " rel=" ++ quoted "noopener"
         ++ ">Download GPX</a>"
    else "" ].

Definition popupHtml (p : props) : string :=
  join "<br>" (filter nonempty (popup_lines p)).




Definition controls_of (s : state number) : controls :=
  Controls (query s) (option_map selected (provinceSelect s))
    (option_map selected (regionSelect s)).

Definition setSourceData (features : list val) (s : state number)
  : state number :=
  match source s with
  | None => s
  | Some _ =>
      State (allFeatures s) (query s) (provinceSelect s) (regionSelect s)
        (Some features) (fits s) (console s) (requests s)
  end.

Definition applyFiltersAndRender (s : state number)
  : state number * option exn :=
  match filter_by_properties (passesFilters (controls_of s))
          (allFeatures s) with
  | Throw e => (s, Some e)
  | Return filtered => (setSourceData filtered s, None)
  end.

Definition log_fit (c : fit_call number) (s : state number) : state number :=
  State (allFeatures s) (query s) (provinceSelect s) (regionSelect s)
    (source s) (fits s ++ [c])%list (console s) (requests s).

Definition log_error (e : exn) (s : state number) : state number :=
  State (allFeatures s) (query s) (provinceSelect s) (regionSelect s)
    (source s) (fits s) (console s ++ [e])%list (requests s).

Definition log_request (url : string) (s : state number) : state number :=
  State (allFeatures s) (query s) (provinceSelect s) (regionSelect s)
    (source s) (fits s) (console s) (requests s ++ [url])%list.

(** [if (b && !b.isEmpty?.()) map.fitBounds(b, { padding: 60, duration })] *)
Definition fit_if_any (b : option (bounds number)) (duration : nat)
    (s : state number) : state number :=
  match b with
  | Some b0 => if negb (isEmpty b0) then log_fit (FitBounds b0 60 duration) s
               else s
  | None => s
  end.

(** The click listener of the [fit] button. *)
Definition fitClicked (s : state number) : state number * option exn :=
  match filter_by_properties (passesFilters (controls_of s))
          (allFeatures s) with
  | Throw e => (s, Some e)
  | Return filtered =>
      match boundsForFeatures filtered with
      | Throw e => (s, Some e)
      | Return b => (fit_if_any b 400 s, None)
      end
  end.

(** [allFeatures.map((f) => f.properties || {})] *)
Fixpoint all_properties (features : list val) : completion (list props) :=
  match features with
  | [] => Return []
  | f :: fs =>
      p <- properties_or_empty f ;;
      ps <- all_properties fs ;;
      Return (p :: ps)
  end.

(** [uniqSorted(props.map((p) => p[k]).map(String))] *)
Definition select_values (k : string) (ps : list props) : list string :=
  uniqSorted (map ToString (map (fun p => field p k) ps)).

Definition set_selects (prov reg : option select) (s : state number)
  : state number :=
  State (allFeatures s) (query s) prov reg
    (source s) (fits s) (console s) (requests s).

Definition set_allFeatures (fs : list val) (s : state number) : state number :=
  State fs (query s) (provinceSelect s) (regionSelect s)
    (source s) (fits s) (console s) (requests s).

(** [loadGeoJSON()], given what the one [fetch] gives.  The result pairs the
    state left behind with the exception that escapes the call, if any. *)
Definition loadGeoJSON (r : fetch_outcome number) (s : state number)
  : state number * option exn :=
  let s := log_request DATA_URL s in
  match r with
  | Rejected => (log_error NetworkError s, None)
  | Responded false _ => (s, None)
  | Responded true None => (log_error SyntaxError s, None)
  | Responded true (Some gj) =>
      match features_of gj with
      | Throw e => (log_error e s, None)
      | Return fs =>
          let s := set_allFeatures fs s in
          match all_properties fs with
          | Throw e => (log_error e s, None)
          | Return ps =>
              let s :=
                set_selects
                  (populateSelect (provinceSelect s)
                     (select_values "province" ps) "All provinces")
                  (populateSelect (regionSelect s)
                     (select_values "region" ps) "All regions") s in
              match applyFiltersAndRender s with
              | (s1, Some e) => (log_error e s1, None)
              | (s1, None) =>
                  match boundsForFeatures fs with
                  | Throw e => (log_error e s1, None)
                  | Return b => (fit_if_any b 0 s1, None)
                  end
              end
          end
      end
  end.

(** What the user does after the page is set up. *)
Inductive event : Type :=
| TypeQuery (text : string)
| ChooseProvince (v : string)
| ChooseRegion (v : string)
| ClickFit.

(** Choosing the option of value [v] of a selector that has one. *)
Definition choose (v : string) (el : option select) : option select :=
  match el with
  | Some e =>
      if existsb (fun o => String.eqb (fst o) v) (options e)
      then Some (Select (options e) v) else el
  | None => None
  end.

Definition set_query (text : string) (s : state number) : state number :=
  match query s with
  | Some _ =>
      State (allFeatures s) (Some text) (provinceSelect s) (regionSelect s)
        (source s) (fits s) (console s) (requests s)
  | None => s
  end.

(** A listener that raises leaves the state it reached; the exception is
    reported on the console. *)
Definition report (r : state number * option exn) : state number :=
  match r with
  | (s, Some e) => log_error e s
  | (s, None) => s
  end.

(** One event and its listener. *)
Definition handle (e : event) (s : state number) : state number :=
  match e with
  | TypeQuery text => report (applyFiltersAndRender (set_query text s))
  | ChooseProvince v =>
      report (applyFiltersAndRender
                (set_selects (choose v (provinceSelect s)) (regionSelect s) s))
  | ChooseRegion v =>
      report (applyFiltersAndRender
                (set_selects (provinceSelect s) (choose v (regionSelect s)) s))
  | ClickFit => report (fitClicked s)
  end.

Definition run (es : list event) (s : state number) : state number :=
  fold_left (fun s e => handle e s) es s.

End Script.

End MainMapbox.

(* ================================================================== *)
(** ** Numbers for the examples *)

(** Integers, printed in decimal; a concrete reading of [JSNumber] for the
    integral numbers below [10^21], which JavaScript prints digit by digit. *)
#[export] Instance Z_number : JSNumber Z := {|
  num_toString := fun z => NilEmpty.string_of_int (Z.to_int z);
  num_truthy := fun z => negb (Z.eqb z 0);
  num_latitude := fun z => ((-90 <=? z) && (z <=? 90))%Z
|}.

(** The collation used in the examples: code-unit order of the lower-cased
    strings. *)
Definition base_compare (a b : string) : comparison :=
  String.compare (toLowerCase a) (toLowerCase b).

(* ================================================================== *)
(** ** Vocabulary of the properties *)

(** Text of a control; empty for a control the page lacks. *)
Definition control_text (e : option string) : string :=
  match e with
  | Some s => s
  | None => ""
  end.

(** Trimmed, then lower-cased. *)
Definition normalized (s : string) : string := toLowerCase (trim s).

(** The text query passes on a haystack. *)
Definition text_passes (query hay : string) : Prop :=
  substring_of (normalized query) hay.

(** The property value [v] passes the selector of value [sel]. *)
Definition selector_passes {number : Type} {N : JSNumber number}
    (sel : string) (v : value number) : Prop :=
  normalized sel = "" \/ norm v = normalized sel.

(** The decision taken by both predicates, on the normalised strings. *)
Definition decide_filters (q s1 s2 hay v1 v2 : string) : bool :=
  if nonempty q && negb (includes hay q) then false
  else if nonempty s1 && negb (v1 =? s1) then false
  else if nonempty s2 && negb (v2 =? s2) then false
  else true.


(** An empty control: absent from the page, or of empty value. *)
Definition empty_control (e : option string) : Prop := control_text e = "".

(* ------------------------------------------------------------------ *)
(** *** Sample data *)

(** A tour of Whistler. *)
Definition gin_peak : object Z :=
  [("title", VStr "Gin Peak"); ("region", VStr "Whistler");
   ("province", VStr "BC"); ("difficulty", VStr "advanced");
   ("slug", VStr "ginpeak-up")].

(** No selector chosen, one query. *)
Definition main_query (text : string) : Main.controls :=
  Main.Controls (Some text) (Some "") (Some "").

Definition mapbox_query (text : string) : MainMapbox.controls :=
  MainMapbox.Controls (Some text) (Some "") (Some "").

(** The fields that [Main.hay] is made of. *)
Definition main_indexed : list string :=
  ["title"; "region"; "subtitle"; "activity"; "difficulty"].

(** A tour whose difficulty is written with a trailing space. *)
Definition padded_tour : object Z :=
  [("title", VStr "Gin Peak"); ("difficulty", VStr "advanced ")].

Definition intermediate_tour : object Z :=
  [("title", VStr "Gin Peak"); ("difficulty", VStr "intermediate")].

Definition advanced_only : Main.controls :=
  Main.Controls (Some "") (Some "Advanced") (Some "").

(* ------------------------------------------------------------------ *)
(** *** Navigation, colors and popups *)

(** The pieces of [s] between the occurrences of [c]. *)
Fixpoint split_on (c : ascii) (s : string) : list string :=
  match s with
  | EmptyString => [EmptyString]
  | String a s' =>
      if Ascii.eqb a c then EmptyString :: split_on c s'
      else match split_on c s' with
           | w :: ws => String a w :: ws
           | [] => [String a EmptyString]
           end
  end.

(** A window opened in a new browsing context that gets no reference to
    its opener. *)
Definition new_context_without_opener (w : window_open) : Prop :=
  wo_target w = "_blank" /\ In "noopener" (split_on ","%char (wo_features w)).

(** The three classes of track. *)
Inductive track : Type := Ascent | Descent | Traverse.

Definition track_color (t : track) : string :=
  match t with
  | Ascent => "#1f6feb"
  | Descent => "#b64a4a"
  | Traverse => "#b000b5"
  end.

(** The class of a direction, compared as written. *)
Definition classify (d : string) : track :=
  if (d =? "down") || (d =? "descent") then Descent
  else if (d =? "traverse") || (d =? "cross") then Traverse
  else Ascent.

(** None of the characters that open markup or close an attribute. *)
Definition html_safe (s : string) : Prop :=
  occurs "<"%char s = false /\ occurs ">"%char s = false /\
  occurs MainMapbox.dquote s = false /\ occurs "'"%char s = false.

Definition attr_safe (s : string) : Prop :=
  occurs MainMapbox.dquote s = false.

(** The entity that stands for a character in HTML text; other characters
    stand for themselves. *)
Definition entity (c : ascii) : string :=
  if Ascii.eqb c "&"%char then "&amp;"
  else if Ascii.eqb c "<"%char then "&lt;"
  else if Ascii.eqb c ">"%char then "&gt;"
  else if Ascii.eqb c MainMapbox.dquote then "&quot;"
  else if Ascii.eqb c "'"%char then "&#039;"
  else String c EmptyString.

(** Each character replaced by its entity. *)
Fixpoint escape_each (s : string) : string :=
  match s with
  | EmptyString => EmptyString
  | String c s' => entity c ++ escape_each s'
  end.

(** The lines a popup is made of: markup of the script around text that is
    [html_safe], or around a link target that is [attr_safe]. *)
Inductive popup_line : string -> Prop :=
| line_none : popup_line ""
| line_title (e : string) : html_safe e -> popup_line ("<b>" ++ e ++ "</b>")
| line_text (e : string) : html_safe e -> popup_line e
| line_vert (e : string) : html_safe e -> popup_line ("Vert: " ++ e ++ " m")
| line_dist (e : string) : html_safe e -> popup_line ("Dist: " ++ e ++ " km")
| line_gpx (a : string) :
    attr_safe a ->
    popup_line ("<a href=" ++ MainMapbox.quoted a ++ " target="
                ++ MainMapbox.quoted "_blank" ++ " rel="
                ++ MainMapbox.quoted "noopener" ++ ">Download GPX</a>").

Section Vocabulary.
Context {number : Type} {N : JSNumber number}.

(** The URL that navigation resolves for a properties object, if any. *)
Definition tour_url (p : object number) : option string :=
  if truthy (field p "page") then Some (ToString (field p "page"))
  else if truthy (field p "slug")
       then Some ("./tours/" ++ ToString (field p "slug") ++ ".html")
       else None.

End Vocabulary.

(** A tour described by its slug only. *)
Definition slug_only : object Z := [("slug", VStr "ginpeak-up")].

(* ------------------------------------------------------------------ *)
(** *** Loading *)

(** The fetch failed: the request was rejected, or the response is not a
    success. *)
Definition fetch_failed {number : Type} (r : fetch_outcome number) : Prop :=
  r = Rejected \/ exists body, r = Responded false body.

(** What a failed fetch leaves on the console: the error of a rejected
    request, nothing for a response. *)
Definition logged_on_failure {number : Type} (r : fetch_outcome number)
  : list exn :=
  match r with
  | Rejected => [NetworkError]
  | Responded _ _ => []
  end.

(** What the user sees of the Mapbox page. *)
Definition mapbox_visible {number : Type} (s : MainMapbox.state number) :=
  (MainMapbox.query s, MainMapbox.provinceSelect s, MainMapbox.regionSelect s,
   MainMapbox.source s, MainMapbox.fits s).

(** [a] is not after [b] in the collation [cmp]. *)
Definition not_after (cmp : string -> string -> comparison) (a b : string)
  : Prop :=
  cmp a b <> Gt.

(** A feature without geometry, or whose geometry has no coordinates. *)
Definition missing_geometry {number : Type} {N : JSNumber number}
    (f : value number) : Prop :=
  truthy (opt_get f "geometry") = false \/
  truthy (opt_get (opt_get f "geometry") "coordinates") = false.

(** The same, as a test: the feature has a geometry with coordinates. *)
Definition has_geometry {number : Type} {N : JSNumber number}
    (f : value number) : bool :=
  truthy (opt_get f "geometry") &&
  truthy (opt_get (opt_get f "geometry") "coordinates").

(** The positions that coordinates hold, in the order of the document.  A
    position is a value whose items 0 and 1 are numbers: longitude and
    latitude.  An array that is not a position holds the positions of its
    items; anything else holds none. *)
Fixpoint positions {number : Type} (coords : value number)
  : list (number * number) :=
  match item coords 0, item coords 1 with
  | VNum x, VNum y => [(x, y)]
  | _, _ =>
      match coords with
      | VArr cs => flat_map positions cs
      | _ => []
      end
  end.

(** The positions of a feature: those of the coordinates of its geometry. *)
Definition feature_positions {number : Type} (f : value number)
  : list (number * number) :=
  positions (opt_get (opt_get f "geometry") "coordinates").

(** Every latitude is one that Mapbox GL accepts. *)
Definition latitudes_ok {number : Type} {N : JSNumber number}
    (pts : list (number * number)) : bool :=
  forallb (fun xy => num_latitude (snd xy)) pts.

(** What positions give to bounds: the bounds with the positions after
    the points they held, when every latitude is accepted, and else the
    exception of the library. *)
Definition extended {number : Type} {N : JSNumber number}
    (b : MainMapbox.bounds number) (pts : list (number * number))
  : completion (MainMapbox.bounds number) :=
  if latitudes_ok pts then Return (b ++ pts)%list else Throw LibraryError.

(** A reading of [Leaflet] for the examples.  A feature without geometry is
    passed over; a geometry is read when its coordinates hold a position;
    a layer has bounds when one of its features holds a position; a
    document has bounds when its features are an array without [null], all
    of them read, one of them holding a position. *)
Definition sample_reads (f : value Z) : bool :=
  negb (truthy (opt_get f "geometry")) ||
  match feature_positions f with [] => false | _ => true end.

Definition sample_located (f : value Z) : bool :=
  match feature_positions f with [] => false | _ => true end.

#[export] Instance sample_leaflet : Leaflet Z := {|
  leaflet_reads := sample_reads;
  layer_bounds := existsb sample_located;
  data_bounds := fun gj =>
    match opt_get gj "features" with
    | VArr items =>
        forallb (fun f => negb (nullish f) && sample_reads f) items &&
        existsb sample_located items
    | _ => false
    end
|}.

(** The Mapbox page before the data is loaded. *)
Definition mapbox_fresh : MainMapbox.state Z :=
  MainMapbox.State [] (Some "")
    (Some (MainMapbox.Select [("", "All provinces")] ""))
    (Some (MainMapbox.Select [("", "All regions")] ""))
    (Some []) [] [] [].

(** The card page before the data is loaded. *)
Definition main_fresh : Main.state Z :=
  Main.State [] None (Main.Controls (Some "") (Some "") (Some ""))
    (Some []) (Some "") [] [] [].

Definition sample_url : string := "https://example.org/data/tours.geojson".

(** A collection of one tour that names its region and no province. *)
Definition no_province : value Z :=
  VObj [("type", VStr "FeatureCollection");
        ("features",
         VArr [VObj [("type", VStr "Feature");
                     ("properties", VObj [("region", VStr "Whistler")])]])].

(** Three tours, two of them in British Columbia. *)
Definition tour (province region : string) : value Z :=
  VObj [("type", VStr "Feature");
        ("properties",
         VObj [("province", VStr province); ("region", VStr region)])].

Definition three_tours : value Z :=
  VObj [("type", VStr "FeatureCollection");
        ("features",
         VArr [tour "BC" "Whistler"; VNull; tour "BC" "Squamish";
               tour "AB" "Canmore"])].

(* ================================================================== *)
(** ** Vocabulary of the further properties *)

(** The item [f] of the store is kept by a filter of predicate [pred]. *)
Definition keeps {number : Type} {N : JSNumber number}
    (pred : object number -> bool) (f : value number) : bool :=
  match properties_or_empty f with
  | Return p => pred p
  | Throw _ => false
  end.

(** A string of white space only. *)
Definition blank (w : string) : Prop := trim w = "".

(** A tour without any of the fields the card page searches. *)
Definition untitled : object Z := [("slug", VStr "ginpeak-up")].

(** [f.properties || {}] for an item [f] that is not [null] or
    [undefined]. *)
Definition properties_of {number : Type} {N : JSNumber number}
    (f : value number) : object number :=
  fields (js_or (opt_get f "properties") (VObj [])).

(** The features the Mapbox page shows for its controls. *)
Definition mapbox_shown {number : Type} {N : JSNumber number}
    (s : MainMapbox.state number) : list (value number) :=
  filter (keeps (MainMapbox.passesFilters (MainMapbox.controls_of s)))
    (MainMapbox.allFeatures s).

(** The map source holds what the controls select from the store. *)
Definition mapbox_synced {number : Type} {N : JSNumber number}
    (s : MainMapbox.state number) : Prop :=
  Forall (fun f => truthy f = true) (MainMapbox.allFeatures s) /\
  MainMapbox.source s = Some (mapbox_shown s).

(** The features the card page shows for its controls. *)
Definition main_shown {number : Type} {N : JSNumber number}
    (s : Main.state number) : list (value number) :=
  filter (keeps (Main.passesFilters (Main.ctl s))) (Main.allFeatures s).

(** The map layer, the cards and the count label all show what the
    controls select from the store. *)
Definition main_synced {number : Type} {N : JSNumber number}
    (s : Main.state number) : Prop :=
  Forall (fun f => truthy f = true) (Main.allFeatures s) /\
  Main.geoLayer s = Some (main_shown s) /\
  match Main.grid s, Main.count s with
  | Some cards, Some label =>
      cards = map (fun f => Main.card_of (properties_of f)) (main_shown s) /\
      label = string_of_nat (length (main_shown s)) ++ " tours shown"
  | _, _ => True
  end.

(** The layer that [renderMap] leaves for what the controls select: none
    when Leaflet cannot read one of the features. *)
Definition main_layer {number : Type} {N : JSNumber number}
    {L : Leaflet number} (s : Main.state number)
  : option (list (value number)) :=
  if forallb leaflet_reads (main_shown s) then Some (main_shown s) else None.

(** The cards and the count label show what the controls select from the
    store, and the map layer is the one that [renderMap] leaves for it. *)
Definition main_views {number : Type} {N : JSNumber number}
    {L : Leaflet number} (s : Main.state number) : Prop :=
  Forall (fun f => truthy f = true) (Main.allFeatures s) /\
  Main.geoLayer s = main_layer s /\
  match Main.grid s, Main.count s with
  | Some cards, Some label =>
      cards = map (fun f => Main.card_of (properties_of f)) (main_shown s) /\
      label = string_of_nat (length (main_shown s)) ++ " tours shown"
  | _, _ => True
  end.

(** [Array.isArray(v)] *)
Definition is_array {number : Type} (v : value number) : bool :=
  match v with VArr _ => true | _ => false end.

(** The exception that the body of a successful response raises in
    [loadGeoJSON], if any: the body is not JSON, or its features cannot be
    read. *)
Definition body_error {number : Type} {N : JSNumber number}
    (body : option (value number)) : option exn :=
  match body with
  | None => Some SyntaxError
  | Some gj =>
      match features_of gj with
      | Throw e => Some e
      | Return _ => None
      end
  end.

(** What the user sees of the card page, the map apart. *)
Definition main_cards_shown {number : Type} (s : Main.state number) :=
  (Main.grid s, Main.geoLayer s, Main.fits s, Main.ctl s).

(** A position of GeoJSON: longitude, latitude, and whatever follows. *)
Definition position {number : Type} (xy : number * number)
    (rest : list (value number)) : value number :=
  VArr (VNum (fst xy) :: VNum (snd xy) :: rest).

(** The coordinates of a line: its positions. *)
Definition line {number : Type} (pts : list (number * number))
  : value number :=
  VArr (map (fun xy => position xy []) pts).

(** Bounds of two lists of features put together; [None] is [null]. *)
Definition merge_bounds {number : Type}
    (a b : option (MainMapbox.bounds number))
  : option (MainMapbox.bounds number) :=
  match a, b with
  | Some x, Some y => Some (x ++ y)%list
  | Some x, None => Some x
  | None, _ => b
  end.

(** A string that the HTML escaper leaves as it is. *)
Definition plain (s : string) : Prop := escape_each s = s.


(* ------------------------------------------------------------------ *)
(** *** Further sample data *)

(** The pages once the three tours are loaded. *)
Definition mapbox_loaded : MainMapbox.state Z :=
  fst (MainMapbox.loadGeoJSON base_compare sample_url
         (Responded true (Some three_tours)) mapbox_fresh).

Definition main_loaded : Main.state Z :=
  fst (Main.loadGeoJSON (Responded true (Some three_tours)) main_fresh).

(** A descent that carries a download link. *)
Definition descent_tour : object Z :=
  [("title", VStr "Gin Peak"); ("region", VStr "Whistler");
   ("vert_m", VNum 850%Z); ("gpx", VStr "gpx/ginpeak.gpx");
   ("direcrtion", VStr "DOWN")].

(** The same tour, its direction left out. *)
Definition plain_tour : object Z :=
  [("title", VStr "Gin Peak"); ("region", VStr "Whistler");
   ("vert_m", VNum 850%Z); ("gpx", VStr "gpx/ginpeak.gpx")].

(** A feature drawn as a line of two positions. *)
Definition two_point_line : value Z :=
  VObj [("type", VStr "Feature");
        ("geometry",
         VObj [("type", VStr "LineString");
               ("coordinates", line [((-123)%Z, 50%Z); ((-122)%Z, 51%Z)])]);
        ("properties", VObj plain_tour)].

(** The same line, its positions written latitude first. *)
Definition swapped_line : value Z :=
  VObj [("type", VStr "Feature");
        ("geometry",
         VObj [("type", VStr "LineString");
               ("coordinates", line [(50%Z, (-123)%Z); (51%Z, (-122)%Z)])]);
        ("properties", VObj plain_tour)].

(** A point without coordinates. *)
Definition empty_point : value Z :=
  VObj [("type", VStr "Feature");
        ("geometry",
         VObj [("type", VStr "Point"); ("coordinates", VArr [])]);
        ("properties", VObj plain_tour)].

(** The collection of some features. *)
Definition collection (features : list (value Z)) : value Z :=
  VObj [("type", VStr "FeatureCollection"); ("features", VArr features)].
(* ================================================================== *)
(** ** Facts about strings *)

Lemma append_nil_r (s : string) : s ++ "" = s.
Proof. induction s as [|c s IH]; simpl; [reflexivity | now rewrite IH]. Qed.

Lemma append_assoc (a b c : string) : (a ++ b) ++ c = a ++ b ++ c.
Proof. induction a as [|x a IH]; simpl; [reflexivity | now rewrite IH]. Qed.

Lemma prefix_iff (q h : string) :
  prefix q h = true <-> exists b, h = q ++ b.
Proof.
  revert h; induction q as [|a q IH]; intros h; simpl.
  - destruct h; split; eauto.
  - destruct h as [|b h]; simpl.
    + split; [discriminate | intros [r Hr]; discriminate].
    + destruct (ascii_dec a b) as [->|Hab].
      * rewrite IH. split; intros [r Hr].
        -- exists r. now rewrite Hr.
        -- exists r. now inversion Hr.
      * split; [discriminate | intros [r Hr]; inversion Hr; congruence].
Qed.

Lemma substring_of_refl (s : string) : substring_of s s.
Proof. exists "", "". simpl. now rewrite append_nil_r. Qed.

Lemma substring_of_nil (s : string) : substring_of "" s.
Proof. exists "", s. reflexivity. Qed.

Lemma substring_of_trans (a b c : string) :
  substring_of a b -> substring_of b c -> substring_of a c.
Proof.
  intros [x [y ->]] [u [v ->]].
  exists (u ++ x), (y ++ v). now rewrite !append_assoc.
Qed.

Lemma substring_of_app_l (q s t : string) :
  substring_of q s -> substring_of q (s ++ t).
Proof.
  intros [a [b ->]]. exists a, (b ++ t). now rewrite !append_assoc.
Qed.

Lemma substring_of_app_r (q s t : string) :
  substring_of q t -> substring_of q (s ++ t).
Proof.
  intros [a [b ->]]. exists (s ++ a), b. now rewrite !append_assoc.
Qed.

Lemma substring_of_cons (q : string) (c : ascii) (s : string) :
  substring_of q (String c s) <->
  prefix q (String c s) = true \/ substring_of q s.
Proof.
  rewrite prefix_iff. split.
  - intros [a [b H]]. destruct a as [|x a]; simpl in H.
    + left. now exists b.
    + right. inversion H. now exists a, b.
  - intros [[b H] | [a [b H]]].
    + exists "", b. exact H.
    + exists (String c a), b. simpl. now rewrite H.
Qed.

(** [includes] decides [substring_of]. *)
Lemma includes_iff (hay q : string) :
  includes hay q = true <-> substring_of q hay.
Proof.
  induction hay as [|c hay IH].
  - destruct q as [|x q]; simpl; split; intros H.
    + apply substring_of_nil.
    + reflexivity.
    + discriminate.
    + destruct H as [a [b H]]. destruct a; discriminate.
  - cbn [includes]. rewrite orb_true_iff, IH. symmetry.
    apply substring_of_cons.
Qed.

Lemma is_ws_lower_char (c : ascii) : is_ws (lower_char c) = is_ws c.
Proof. destruct c as [[] [] [] [] [] [] [] []]; reflexivity. Qed.

Lemma lower_char_idem (c : ascii) : lower_char (lower_char c) = lower_char c.
Proof. destruct c as [[] [] [] [] [] [] [] []]; reflexivity. Qed.

Lemma toLowerCase_app (a b : string) :
  toLowerCase (a ++ b) = toLowerCase a ++ toLowerCase b.
Proof. induction a as [|c a IH]; simpl; [reflexivity | now rewrite IH]. Qed.

Lemma toLowerCase_idem (s : string) :
  toLowerCase (toLowerCase s) = toLowerCase s.
Proof.
  induction s as [|c s IH]; simpl; [reflexivity |].
  now rewrite lower_char_idem, IH.
Qed.

Lemma trimStart_lower (s : string) :
  trimStart (toLowerCase s) = toLowerCase (trimStart s).
Proof.
  induction s as [|c s IH]; simpl; [reflexivity |].
  rewrite is_ws_lower_char. destruct (is_ws c); [exact IH | reflexivity].
Qed.

Lemma trimEnd_lower (s : string) :
  trimEnd (toLowerCase s) = toLowerCase (trimEnd s).
Proof.
  induction s as [|c s IH]; simpl; [reflexivity |].
  rewrite IH. destruct (trimEnd s); simpl.
  - rewrite is_ws_lower_char. now destruct (is_ws c).
  - reflexivity.
Qed.

(** Trimming and lower-casing commute. *)
Lemma trim_lower (s : string) : trim (toLowerCase s) = toLowerCase (trim s).
Proof. unfold trim. now rewrite trimStart_lower, trimEnd_lower. Qed.

Lemma trimStart_split (s : string) : exists w, s = w ++ trimStart s.
Proof.
  induction s as [|c s [w IH]]; simpl.
  - now exists "".
  - destruct (is_ws c).
    + exists (String c w). simpl. now rewrite <- IH.
    + now exists "".
Qed.

Lemma trimStart_head (s : string) :
  trimStart s = "" \/
  exists f r, trimStart s = String f r /\ is_ws f = false.
Proof.
  induction s as [|c s IH]; simpl; [now left |].
  destruct (is_ws c) eqn:E; [exact IH | right; eauto].
Qed.

Lemma trimEnd_split (s : string) : exists w, s = trimEnd s ++ w.
Proof.
  induction s as [|c s [w IH]]; simpl.
  - now exists "".
  - destruct (trimEnd s) eqn:E.
    + destruct (is_ws c).
      * exists (String c s). reflexivity.
      * exists s. reflexivity.
    + exists w. simpl in *. now rewrite <- IH.
Qed.

Lemma trimEnd_last (s : string) :
  trimEnd s = "" \/
  exists m l, trimEnd s = m ++ String l "" /\ is_ws l = false.
Proof.
  induction s as [|c s IH]; simpl; [now left |].
  destruct (trimEnd s) as [|x r] eqn:E.
  - destruct (is_ws c) eqn:W; [now left |].
    right. exists "", c. now split.
  - right. destruct IH as [IH | [m [l [IH W]]]]; [discriminate |].
    exists (String c m), l. simpl. now rewrite IH.
Qed.

Lemma trimEnd_head (f : ascii) (r : string) :
  is_ws f = false -> exists r', trimEnd (String f r) = String f r'.
Proof.
  intros W. simpl. rewrite W. destruct (trimEnd r); eauto.
Qed.

(** A part that starts with a character that is not white space survives
    [trimStart]. *)
Lemma trimStart_keeps (a : string) (c : ascii) (r : string) :
  is_ws c = false -> exists a', trimStart (a ++ String c r) = a' ++ String c r.
Proof.
  intros W. induction a as [|x a [a' IH]]; simpl.
  - rewrite W. now exists "".
  - destruct (is_ws x).
    + now exists a'.
    + now exists (String x a).
Qed.

(** A part that ends with a character that is not white space survives
    [trimEnd]. *)
Lemma trimEnd_keeps (m : string) (c : ascii) (b : string) :
  is_ws c = false -> exists b', trimEnd (m ++ String c b) = m ++ String c b'.
Proof.
  intros W. induction m as [|x m [b' IH]].
  - simpl. rewrite W. destruct (trimEnd b); eauto.
  - cbn [append trimEnd]. rewrite IH. exists b'.
    destruct m; reflexivity.
Qed.

(** A part of [t] survives, once trimmed, in the trimmed [t]. *)
Lemma substring_of_trim (q t : string) :
  substring_of q t -> trim q = "" \/ substring_of (trim q) (trim t).
Proof.
  intros Hqt.
  assert (Hq : substring_of (trim q) t).
  { apply substring_of_trans with q; [| exact Hqt].
    destruct (trimStart_split q) as [w Hw].
    destruct (trimEnd_split (trimStart q)) as [w' Hw'].
    exists w, w'. unfold trim. now rewrite <- Hw', <- Hw. }
  unfold trim in *.
  destruct (trimStart_head q) as [E | [f [r [E Wf]]]].
  - left. now rewrite E.
  - right. rewrite E in *.
    destruct (trimEnd_head f r Wf) as [r' Er'].
    destruct (trimEnd_last (String f r)) as [El | [m [l [El Wl]]]].
    + rewrite El in Er'. discriminate.
    + destruct Hq as [a [b Ht]]. rewrite Er' in Ht.
      destruct (trimStart_keeps a f (r' ++ b) Wf) as [a' Ha'].
      simpl in Ht. rewrite <- Ht in Ha'. rewrite Ha'.
      change (String f (r' ++ b)) with (String f r' ++ b).
      rewrite <- Er', El.
      rewrite <- append_assoc.
      replace ((a' ++ m ++ String l "") ++ b)
        with ((a' ++ m) ++ String l b)
        by (rewrite !append_assoc; reflexivity).
      destruct (trimEnd_keeps (a' ++ m) l b Wl) as [b' Hb'].
      rewrite Hb'. exists a', b'. now rewrite !append_assoc.
Qed.

(* ================================================================== *)
(** ** The filter predicate *)

Lemma nonempty_true_iff (s : string) : nonempty s = true <-> s <> "".
Proof. destruct s; simpl; split; congruence. Qed.

Lemma nonempty_false_iff (s : string) : nonempty s = false <-> s = "".
Proof. destruct s; simpl; split; congruence. Qed.

Lemma selector_decision (s v : string) :
  (nonempty s && negb (v =? s)) = false <-> (s = "" \/ v = s).
Proof.
  destruct s as [|c s]; simpl.
  - split; [now left | reflexivity].
  - rewrite negb_false_iff, String.eqb_eq. split; intros H; [now right |].
    destruct H as [H | H]; [discriminate | exact H].
Qed.

Lemma decide_filters_iff (q s1 s2 hay v1 v2 : string) :
  decide_filters q s1 s2 hay v1 v2 = true <->
  substring_of q hay /\ (s1 = "" \/ v1 = s1) /\ (s2 = "" \/ v2 = s2).
Proof.
  unfold decide_filters.
  rewrite <- (selector_decision s1 v1), <- (selector_decision s2 v2).
  rewrite <- includes_iff.
  destruct q as [|c q].
  - assert (E : includes hay "" = true)
      by (apply includes_iff, substring_of_nil).
    rewrite E. simpl.
    destruct (nonempty s1 && negb (v1 =? s1));
      destruct (nonempty s2 && negb (v2 =? s2)); intuition congruence.
  - cbn [nonempty andb].
    destruct (includes hay (String c q)); simpl;
      destruct (nonempty s1 && negb (v1 =? s1));
      destruct (nonempty s2 && negb (v2 =? s2)); intuition congruence.
Qed.

Section FilterPredicate.
Context {number : Type} {N : JSNumber number}.

Local Abbreviation val := (value number).
Local Abbreviation props := (object number).

Lemma norm_control (e : option string) :
  norm (control_value (number := number) e) = normalized (control_text e).
Proof. destruct e; reflexivity. Qed.

Lemma norm_string (s : string) :
  norm (VStr s : val) = normalized s.
Proof. reflexivity. Qed.

Lemma normalized_lower (s : string) :
  normalized s = trim (toLowerCase s).
Proof. unfold normalized. now rewrite trim_lower. Qed.

Lemma norm_is_lower (v : val) : toLowerCase (norm v) = norm v.
Proof. unfold norm. apply toLowerCase_idem. Qed.

Lemma main_passesFilters_decide (c : Main.controls) (p : props) :
  Main.passesFilters c p =
  decide_filters (normalized (control_text (Main.q c)))
    (normalized (control_text (Main.difficulty c)))
    (normalized (control_text (Main.activity c)))
    (Main.hay p) (norm (field p "difficulty")) (norm (field p "activity")).
Proof. unfold Main.passesFilters. now rewrite !norm_control. Qed.

Lemma mapbox_passesFilters_decide (c : MainMapbox.controls) (p : props) :
  MainMapbox.passesFilters c p =
  decide_filters (normalized (control_text (MainMapbox.q c)))
    (normalized (control_text (MainMapbox.province c)))
    (normalized (control_text (MainMapbox.region c)))
    (MainMapbox.hay p) (norm (field p "province")) (norm (field p "region")).
Proof. unfold MainMapbox.passesFilters. now rewrite !norm_control. Qed.

Lemma main_passesFilters_iff (c : Main.controls) (p : props) :
  Main.passesFilters c p = true <->
  text_passes (control_text (Main.q c)) (Main.hay p) /\
  selector_passes (control_text (Main.difficulty c)) (field p "difficulty") /\
  selector_passes (control_text (Main.activity c)) (field p "activity").
Proof. rewrite main_passesFilters_decide. apply decide_filters_iff. Qed.

Lemma mapbox_passesFilters_iff (c : MainMapbox.controls) (p : props) :
  MainMapbox.passesFilters c p = true <->
  text_passes (control_text (MainMapbox.q c)) (MainMapbox.hay p) /\
  selector_passes (control_text (MainMapbox.province c)) (field p "province") /\
  selector_passes (control_text (MainMapbox.region c)) (field p "region").
Proof. rewrite mapbox_passesFilters_decide. apply decide_filters_iff. Qed.

Lemma main_hay_lower (p : props) : toLowerCase (Main.hay p) = Main.hay p.
Proof.
  unfold Main.hay. rewrite !toLowerCase_app, !norm_is_lower. reflexivity.
Qed.

Lemma mapbox_hay_lower (p : props) :
  toLowerCase (MainMapbox.hay p) = MainMapbox.hay p.
Proof.
  unfold MainMapbox.hay. rewrite !toLowerCase_app, !norm_is_lower.
  reflexivity.
Qed.

(** A query that is, up to case, a part of the title is, once normalised,
    empty or a part of the normalised title. *)
Lemma title_part_normalized (query title : string) :
  substring_of (toLowerCase query) (toLowerCase title) ->
  substring_of (normalized query) (normalized title).
Proof.
  intros H. rewrite !normalized_lower.
  destruct (substring_of_trim _ _ H) as [E | H2]; [| exact H2].
  rewrite E. apply substring_of_nil.
Qed.

End FilterPredicate.


Section FilterProperties.
Context {number : Type} {N : JSNumber number}.

Local Abbreviation val := (value number).
Local Abbreviation props := (object number).

Lemma empty_control_normalized (e : option string) :
  empty_control e -> normalized (control_text e) = "".
Proof. unfold empty_control. intros ->. reflexivity. Qed.

(** C1 (amended).  The haystack of either predicate is lower-cased.  Under
    selectors that pass, the predicate holds exactly when the trimmed,
    lower-cased query is a part of the haystack; hence a query that is, up
    to case, a part of the title passes, and a query that is empty once
    trimmed passes. *)
Theorem text_query_decides (cm : Main.controls) (cb : MainMapbox.controls)
    (p : props) :
  selector_passes (control_text (Main.difficulty cm)) (field p "difficulty") ->
  selector_passes (control_text (Main.activity cm)) (field p "activity") ->
  selector_passes (control_text (MainMapbox.province cb)) (field p "province") ->
  selector_passes (control_text (MainMapbox.region cb)) (field p "region") ->
  (toLowerCase (Main.hay p) = Main.hay p /\
   (Main.passesFilters cm p = true <->
    substring_of (toLowerCase (trim (control_text (Main.q cm)))) (Main.hay p)) /\
   (forall t, field p "title" = VStr t ->
      substring_of (toLowerCase (control_text (Main.q cm))) (toLowerCase t) ->
      Main.passesFilters cm p = true) /\
   (trim (control_text (Main.q cm)) = "" -> Main.passesFilters cm p = true))
  /\
  (toLowerCase (MainMapbox.hay p) = MainMapbox.hay p /\
   (MainMapbox.passesFilters cb p = true <->
    substring_of (toLowerCase (trim (control_text (MainMapbox.q cb))))
      (MainMapbox.hay p)) /\
   (forall t, field p "title" = VStr t ->
      substring_of (toLowerCase (control_text (MainMapbox.q cb)))
        (toLowerCase t) ->
      MainMapbox.passesFilters cb p = true) /\
   (trim (control_text (MainMapbox.q cb)) = "" ->
    MainMapbox.passesFilters cb p = true)).
Proof.
  intros Hd Ha Hp Hr.
  assert (Im : Main.passesFilters cm p = true <->
               text_passes (control_text (Main.q cm)) (Main.hay p))
    by (rewrite main_passesFilters_iff; tauto).
  assert (Ib : MainMapbox.passesFilters cb p = true <->
               text_passes (control_text (MainMapbox.q cb)) (MainMapbox.hay p))
    by (rewrite mapbox_passesFilters_iff; tauto).
  unfold text_passes, normalized in Im, Ib.
  split; (split; [| split; [| split]]).
  - apply main_hay_lower.
  - exact Im.
  - intros t Ht Hq. apply Im. unfold Main.hay. rewrite Ht, norm_string.
    apply substring_of_app_l. now apply title_part_normalized.
  - intros E. apply Im. rewrite E. apply substring_of_nil.
  - apply mapbox_hay_lower.
  - exact Ib.
  - intros t Ht Hq. apply Ib. unfold MainMapbox.hay. rewrite Ht, norm_string.
    apply substring_of_app_l. now apply title_part_normalized.
  - intros E. apply Ib. rewrite E. apply substring_of_nil.
Qed.

(** C2 (amended).  Either predicate holds exactly when the text query
    passes and each selector passes, a selector passing when its trimmed
    value is empty or when the property value and the selector value are
    equal once normalised.  Values equal up to case always pass; for values
    without surrounding white space, passing a selector that is set is
    equality up to case. *)
Theorem selectors_decide (cm : Main.controls) (cb : MainMapbox.controls)
    (p : props) :
  (Main.passesFilters cm p = true <->
   text_passes (control_text (Main.q cm)) (Main.hay p) /\
   selector_passes (control_text (Main.difficulty cm)) (field p "difficulty") /\
   selector_passes (control_text (Main.activity cm)) (field p "activity"))
  /\
  (MainMapbox.passesFilters cb p = true <->
   text_passes (control_text (MainMapbox.q cb)) (MainMapbox.hay p) /\
   selector_passes (control_text (MainMapbox.province cb)) (field p "province") /\
   selector_passes (control_text (MainMapbox.region cb)) (field p "region"))
  /\
  (forall sel v : string,
     toLowerCase sel = toLowerCase v -> selector_passes sel (VStr v : val))
  /\
  (forall sel v : string,
     trim sel = sel -> trim v = v -> sel <> "" ->
     (selector_passes sel (VStr v : val) <->
      toLowerCase sel = toLowerCase v)).
Proof.
  split; [apply main_passesFilters_iff |].
  split; [apply mapbox_passesFilters_iff |].
  split.
  - intros sel v E. right. rewrite norm_string, !normalized_lower.
    now rewrite E.
  - intros sel v Ts Tv Hs. unfold selector_passes.
    rewrite norm_string. unfold normalized. rewrite Ts, Tv.
    split.
    + intros [E | E]; [| now symmetry].
      destruct sel; [congruence | discriminate].
    + intros E. right. now symmetry.
Qed.

Lemma filter_by_properties_all (pred : props -> bool) (fs : list val) :
  Forall (fun f => truthy f = true) fs ->
  (forall p, pred p = true) ->
  filter_by_properties pred fs = Return fs.
Proof.
  intros Hfs Hp. induction Hfs as [|f fs Hf _ IH]; [reflexivity |].
  cbn [filter_by_properties]. unfold properties_or_empty, get.
  destruct f; try discriminate; cbn; rewrite IH; cbn; now rewrite Hp.
Qed.

(** C7.  With every control empty, either predicate holds of every
    properties object, and filtering keeps the whole feature list. *)
Theorem empty_filter_keeps_all (cm : Main.controls) (cb : MainMapbox.controls)
    (fs : list val) :
  empty_control (Main.q cm) -> empty_control (Main.difficulty cm) ->
  empty_control (Main.activity cm) ->
  empty_control (MainMapbox.q cb) -> empty_control (MainMapbox.province cb) ->
  empty_control (MainMapbox.region cb) ->
  Forall (fun f => truthy f = true) fs ->
  (forall p : props, Main.passesFilters cm p = true) /\
  (forall p : props, MainMapbox.passesFilters cb p = true) /\
  filter_by_properties (Main.passesFilters cm) fs = Return fs /\
  filter_by_properties (MainMapbox.passesFilters cb) fs = Return fs.
Proof.
  intros Q1 D1 A1 Q2 P2 R2 Hfs.
  assert (Hm : forall p : props, Main.passesFilters cm p = true).
  { intros p. apply main_passesFilters_iff. unfold text_passes, selector_passes.
    rewrite !empty_control_normalized by assumption.
    repeat split; [apply substring_of_nil | now left | now left]. }
  assert (Hb : forall p : props, MainMapbox.passesFilters cb p = true).
  { intros p. apply mapbox_passesFilters_iff.
    unfold text_passes, selector_passes.
    rewrite !empty_control_normalized by assumption.
    repeat split; [apply substring_of_nil | now left | now left]. }
  repeat split; auto using filter_by_properties_all.
Qed.

End FilterProperties.

(** Witness of [text_query_decides]: the query [PEAK] on Gin Peak. *)
Lemma text_query_decides_witness :
  (selector_passes (control_text (Main.difficulty (main_query "PEAK")))
     (field gin_peak "difficulty") /\
   selector_passes (control_text (MainMapbox.region (mapbox_query "PEAK")))
     (field gin_peak "region")) /\
  Main.passesFilters (main_query "PEAK") gin_peak = true /\
  MainMapbox.passesFilters (mapbox_query "PEAK") gin_peak = true.
Proof.
  assert (S : forall v : value Z, selector_passes "" v)
    by (intros v; left; reflexivity).
  split; [split; apply S |].
  destruct (text_query_decides (main_query "PEAK") (mapbox_query "PEAK")
              gin_peak (S _) (S _) (S _) (S _))
    as [[_ [_ [Tm _]]] [_ [_ [Tb _]]]].
  assert (P : substring_of (toLowerCase "PEAK") (toLowerCase "Gin Peak"))
    by (exists "gin ", ""; reflexivity).
  split; [apply (Tm "Gin Peak") | apply (Tb "Gin Peak")];
    solve [reflexivity | exact P].
Defined.

(** C1, as stated, fails twice.  The query [peak whistler] is in none of the
    indexed fields of Gin Peak and passes, since it lies across the space
    that joins title and region; the query [gin] is in the haystack and
    fails under a difficulty selector that excludes the tour. *)
Lemma text_query_counterexample :
  (Main.passesFilters (main_query "peak whistler") gin_peak = true /\
   Forall (fun k => includes (norm (field gin_peak k))
                      (normalized "peak whistler") = false) main_indexed) /\
  (Main.passesFilters (Main.Controls (Some "gin") (Some "intermediate")
                         (Some "")) gin_peak = false /\
   includes (Main.hay gin_peak) (normalized "gin") = true).
Proof.
  split; split; try reflexivity.
  repeat constructor.
Qed.

(** C2, as stated, fails: the selector [Advanced] keeps a tour whose
    difficulty is [advanced] followed by a space, two values that differ
    even up to case. *)
Lemma exact_match_counterexample :
  Main.passesFilters advanced_only padded_tour = true /\
  toLowerCase "Advanced" <> toLowerCase (ToString (field padded_tour "difficulty")).
Proof.
  split; [reflexivity | discriminate].
Qed.

(** The selector [Advanced] keeps difficulty [advanced] and excludes
    [intermediate]. *)
Example advanced_selector :
  Main.passesFilters advanced_only gin_peak = true /\
  Main.passesFilters advanced_only intermediate_tour = false.
Proof. split; reflexivity. Qed.

(** Witness of [empty_filter_keeps_all]: one feature, empty controls. *)
Lemma empty_filter_keeps_all_witness :
  (empty_control (Main.q (main_query "")) /\
   Forall (fun f : value Z => truthy f = true)
     [VObj [("properties", VObj gin_peak)]]) /\
  filter_by_properties (Main.passesFilters (main_query ""))
    [VObj [("properties", VObj gin_peak)]]
  = Return [VObj [("properties", VObj gin_peak)]].
Proof.
  assert (F : Forall (fun f : value Z => truthy f = true)
                [VObj [("properties", VObj gin_peak)]])
    by (repeat constructor).
  split; [split; [reflexivity | exact F] |].
  apply (empty_filter_keeps_all (main_query "") (mapbox_query "")
           [VObj [("properties", VObj gin_peak)]]);
    solve [reflexivity | exact F].
Defined.

(* ================================================================== *)
(** ** Navigation, track colors and popups *)

Section Navigation.
Context {number : Type} {N : JSNumber number}.

Local Abbreviation val := (value number).
Local Abbreviation props := (object number).

(** C8.  [openTour] opens the [page] when it is set, else
    [./tours/{slug}.html] when the slug is set, else nothing; what it opens
    is opened in a new browsing context, without opener. *)
Theorem openTour_resolves (p : props) :
  openTour p =
    match tour_url p with
    | Some url => [WindowOpen url "_blank" "noopener,noreferrer"]
    | None => []
    end /\
  (field p "page" = VUndefined -> field p "slug" = VUndefined ->
   openTour p = []) /\
  Forall new_context_without_opener (openTour p).
Proof.
  assert (E : openTour p =
    match tour_url p with
    | Some url => [WindowOpen url "_blank" "noopener,noreferrer"]
    | None => []
    end).
  { unfold openTour, tour_url, js_or.
    destruct (truthy (field p "page")) eqn:Hp.
    - now rewrite Hp.
    - destruct (truthy (field p "slug")) eqn:Hs; reflexivity. }
  split; [exact E |]. split.
  - intros Hp Hs. rewrite E. unfold tour_url. now rewrite Hp, Hs.
  - rewrite E. destruct (tour_url p); constructor; [| constructor].
    split; [reflexivity | simpl; auto].
Qed.

Lemma norm_of_word (s w : string) :
  trim w = w -> toLowerCase s = w -> norm (VStr s : val) = w.
Proof.
  intros Tw E. rewrite norm_string, normalized_lower, E. exact Tw.
Qed.

Lemma trackColor_of_direction (p : val) (d : val) :
  js_or (js_or (opt_get p "direction") (opt_get p "direcrtion")) (VStr "") = d ->
  MainMapbox.trackColorFromProps p = track_color (classify (norm d)).
Proof.
  intros <-. unfold MainMapbox.trackColorFromProps, classify.
  set (d := norm _).
  destruct (d =? "up") eqn:E1.
  - apply String.eqb_eq in E1. rewrite E1. reflexivity.
  - destruct (d =? "ascent") eqn:E2.
    + apply String.eqb_eq in E2. rewrite E2. reflexivity.
    + simpl. destruct ((d =? "down") || (d =? "descent")); [reflexivity |].
      destruct ((d =? "traverse") || (d =? "cross")); reflexivity.
Qed.

Lemma line_color_of_direction (p : props) (d : string) :
  evaluate p MainMapbox.direction_expr = Some (VStr d) ->
  evaluate p MainMapbox.line_color
  = Some (VStr (track_color (classify d))).
Proof.
  intros H. unfold MainMapbox.line_color, classify.
  cbn [evaluate]. rewrite H.
  destruct (d =? "up") eqn:E1.
  - apply String.eqb_eq in E1. now rewrite E1.
  - destruct (d =? "ascent") eqn:E2.
    + apply String.eqb_eq in E2. now rewrite E2.
    + destruct (d =? "down"); [reflexivity |].
      destruct (d =? "descent"); [reflexivity |].
      destruct (d =? "traverse"); [reflexivity |].
      destruct (d =? "cross"); reflexivity.
Qed.

(** The paint expression of the layers, on directions that are strings:
    the color is that of the class of the lower-cased direction, read from
    [direction] or, when that is missing or [null], from [direcrtion]; with
    neither, it is the ascent color. *)
Lemma paint_color_classifies (p : props) :
  (forall s, field p "direction" = VStr s ->
     evaluate p MainMapbox.line_color
     = Some (VStr (track_color (classify (toLowerCase s))))) /\
  (forall s, nullish (field p "direction") = true ->
     field p "direcrtion" = VStr s ->
     evaluate p MainMapbox.line_color
     = Some (VStr (track_color (classify (toLowerCase s))))) /\
  (nullish (field p "direction") = true ->
   nullish (field p "direcrtion") = true ->
   evaluate p MainMapbox.line_color = Some (VStr (track_color Ascent))).
Proof.
  repeat split.
  - intros s H. apply line_color_of_direction.
    unfold MainMapbox.direction_expr. cbn. now rewrite H.
  - intros s H1 H2. apply line_color_of_direction.
    unfold MainMapbox.direction_expr. cbn. rewrite H2.
    destruct (field p "direction"); try discriminate; reflexivity.
  - intros H1 H2.
    rewrite (line_color_of_direction p "").
    + reflexivity.
    + unfold MainMapbox.direction_expr. cbn.
      destruct (field p "direction"); try discriminate;
        destruct (field p "direcrtion"); try discriminate; reflexivity.
Qed.

Lemma line_color_not_string (p : props) (v : val) :
  (exists n, v = VNum n) \/ (exists b, v = VBool b) ->
  field p "direction" = v \/
  (nullish (field p "direction") = true /\ field p "direcrtion" = v) ->
  evaluate p MainMapbox.line_color = None.
Proof.
  intros Hv Hd. unfold MainMapbox.line_color, MainMapbox.direction_expr.
  destruct Hd as [H | [H1 H2]].
  - cbn. rewrite H. destruct Hv as [[n ->] | [b ->]]; reflexivity.
  - cbn. rewrite H2.
    destruct (field p "direction"); try discriminate;
      destruct Hv as [[n ->] | [b ->]]; reflexivity.
Qed.

(** C5 (amended).  [trackColorFromProps] reads the direction from
    [direction] when that is truthy, else from [direcrtion] when that is
    truthy, prints it, trims it and lower-cases it: [down] and [descent]
    give the descent color, [traverse] and [cross] the traverse color,
    anything else, also no direction at all, the ascent color.  The paint
    expression of the layers reads it from [direction] when that is present
    and not [null], else from [direcrtion], and lower-cases it without
    trimming; it classes a string in the same way, gives the ascent color
    when neither field is present, and gives no color at all for a number
    or a boolean.  A direction that is one of the six words up to case is
    classed as that word by both, under either field name. *)
Theorem trackColor_classifies (p : val) (q : props) :
  (truthy (opt_get p "direction") = true ->
   MainMapbox.trackColorFromProps p =
   track_color (classify (norm (opt_get p "direction")))) /\
  (truthy (opt_get p "direction") = false ->
   truthy (opt_get p "direcrtion") = true ->
   MainMapbox.trackColorFromProps p =
   track_color (classify (norm (opt_get p "direcrtion")))) /\
  (truthy (opt_get p "direction") = false ->
   truthy (opt_get p "direcrtion") = false ->
   MainMapbox.trackColorFromProps p = track_color Ascent) /\
  (forall s, field q "direction" = VStr s ->
     evaluate q MainMapbox.line_color
     = Some (VStr (track_color (classify (toLowerCase s))))) /\
  (forall s, nullish (field q "direction") = true ->
     field q "direcrtion" = VStr s ->
     evaluate q MainMapbox.line_color
     = Some (VStr (track_color (classify (toLowerCase s))))) /\
  (nullish (field q "direction") = true ->
   nullish (field q "direcrtion") = true ->
   evaluate q MainMapbox.line_color = Some (VStr (track_color Ascent))) /\
  (forall v : val,
     (exists n, v = VNum n) \/ (exists b, v = VBool b) ->
     field q "direction" = v \/
     (nullish (field q "direction") = true /\ field q "direcrtion" = v) ->
     evaluate q MainMapbox.line_color = None) /\
  MainMapbox.circle_color = MainMapbox.line_color /\
  (forall (s w : string) (k : string),
     In w ["up"; "ascent"; "down"; "descent"; "traverse"; "cross"] ->
     toLowerCase s = w ->
     k = "direction" \/ k = "direcrtion" ->
     MainMapbox.trackColorFromProps (VObj [(k, VStr s)]) =
     track_color (classify w) /\
     evaluate ([(k, VStr s)] : props) MainMapbox.line_color
     = Some (VStr (track_color (classify w)))) /\
  classify "up" = Ascent /\ classify "ascent" = Ascent /\
  classify "down" = Descent /\ classify "descent" = Descent /\
  classify "traverse" = Traverse /\ classify "cross" = Traverse.
Proof.
  destruct (paint_color_classifies q) as [P1 [P2 P3]].
  split; [| split; [| split]].
  - intros H. apply trackColor_of_direction. unfold js_or. rewrite H.
    now rewrite H.
  - intros H1 H2. apply trackColor_of_direction. unfold js_or.
    rewrite H1. now rewrite H2.
  - intros H1 H2.
    rewrite (trackColor_of_direction p (VStr "")).
    + reflexivity.
    + unfold js_or. rewrite H1. now rewrite H2.
  - split; [exact P1 |]. split; [exact P2 |]. split; [exact P3 |].
    split; [exact (line_color_not_string q) |].
    split; [reflexivity |]. split; [| repeat split].
    intros s w k Hw E Hk.
    assert (Hs : nonempty s = true).
    { destruct s; [| reflexivity]. simpl in E. subst w.
      simpl in Hw. intuition discriminate. }
    assert (Hn : norm (VStr s : val) = w).
    { apply norm_of_word; [| exact E].
      simpl in Hw.
      destruct Hw as [<- | [<- | [<- | [<- | [<- | [<- | []]]]]]];
        reflexivity. }
    split.
    + rewrite (trackColor_of_direction (VObj [(k, VStr s)]) (VStr s)).
      * now rewrite Hn.
      * destruct Hk as [-> | ->]; unfold js_or, opt_get; cbn;
          rewrite ?Hs; cbn; rewrite ?Hs; reflexivity.
    + rewrite <- E.
      destruct (paint_color_classifies [(k, VStr s)]) as [Q1 [Q2 _]].
      destruct Hk as [-> | ->]; [now apply Q1 | now apply Q2].
Qed.

End Navigation.

(** A card made from a slug alone: placeholder cover, the slug as title, and
    a click that opens the page of the tour. *)
Example slug_only_card :
  Main.card_cover (Main.card_of slug_only) = Main.CoverText "No cover" /\
  Main.card_title (Main.card_of slug_only) = "ginpeak-up" /\
  Main.card_click (Main.card_of slug_only) =
    [WindowOpen "./tours/ginpeak-up.html" "_blank" "noopener,noreferrer"].
Proof. repeat split. Qed.

(** [ASCENT] under the right name and [Up] under the misspelled one are
    both drawn in the ascent color. *)
Example ascent_either_field :
  MainMapbox.trackColorFromProps (VObj [("direction", VStr "ASCENT")] : value Z)
    = "#1f6feb" /\
  MainMapbox.trackColorFromProps (VObj [("direcrtion", VStr "Up")] : value Z)
    = "#1f6feb".
Proof. split; reflexivity. Qed.

(** On the map as well: the paint expression gives the ascent color to
    [ASCENT] and to [Up] under the misspelled name. *)
Example ascent_painted :
  evaluate ([("direction", VStr "ASCENT")] : object Z) MainMapbox.line_color
    = Some (VStr "#1f6feb") /\
  evaluate ([("direcrtion", VStr "Up")] : object Z) MainMapbox.circle_color
    = Some (VStr "#1f6feb").
Proof. split; reflexivity. Qed.

(** C5, as stated, fails.  A direction written with a space before it is
    none of the six words, also up to case, and yet [trackColorFromProps]
    gives it the descent color, while the map paints it in the ascent
    color.  A direction that is a number gets no color from the paint
    expression.  An empty [direction] beside [direcrtion: down] is a
    descent for the function and an ascent on the map. *)
Lemma direction_color_counterexample :
  ~ In (toLowerCase " down")
       ["up"; "ascent"; "down"; "descent"; "traverse"; "cross"] /\
  MainMapbox.trackColorFromProps
    (VObj [("direction", VStr " down")] : value Z) = track_color Descent /\
  evaluate ([("direction", VStr " down")] : object Z) MainMapbox.line_color
    = Some (VStr (track_color Ascent)) /\
  evaluate ([("direction", VNum 5%Z)] : object Z) MainMapbox.line_color
    = None /\
  MainMapbox.trackColorFromProps
    (VObj [("direction", VStr ""); ("direcrtion", VStr "down")] : value Z)
    = track_color Descent /\
  evaluate ([("direction", VStr ""); ("direcrtion", VStr "down")] : object Z)
    MainMapbox.line_color
    = Some (VStr (track_color Ascent)).
Proof.
  split; [| repeat split].
  simpl. intros H.
  destruct H as [H | [H | [H | [H | [H | [H | []]]]]]]; discriminate H.
Qed.

Lemma occurs_app (c : ascii) (a b : string) :
  occurs c (a ++ b) = occurs c a || occurs c b.
Proof.
  induction a as [|x a IH]; simpl; [reflexivity |].
  now rewrite IH, orb_assoc.
Qed.

(** After [replaceAll d r], a character [c] absent from [r] occurs only if
    it occurred before and is not the character replaced. *)
Lemma occurs_replaceAll (c d : ascii) (r s : string) :
  occurs c r = false ->
  c = d \/ occurs c s = false ->
  occurs c (replaceAll d r s) = false.
Proof.
  intros Hr H. induction s as [|a s IH]; [reflexivity |].
  cbn [replaceAll]. destruct (Ascii.eqb a d) eqn:Ead.
  - rewrite occurs_app, Hr. simpl. apply IH.
    destruct H as [H | H]; [now left | right].
    simpl in H. now apply orb_false_iff in H.
  - simpl. apply orb_false_iff. split.
    + destruct H as [-> | H].
      * exact Ead.
      * simpl in H. now apply orb_false_iff in H.
    + apply IH. destruct H as [H | H]; [now left | right].
      simpl in H. now apply orb_false_iff in H.
Qed.

Lemma replaceAll_app (c : ascii) (r a b : string) :
  replaceAll c r (a ++ b) = replaceAll c r a ++ replaceAll c r b.
Proof.
  induction a as [|x a IH]; cbn [append replaceAll]; [reflexivity |].
  rewrite IH. destruct (Ascii.eqb x c); [| reflexivity].
  now rewrite append_assoc.
Qed.

Section Popup.
Context {number : Type} {N : JSNumber number}.

Local Abbreviation val := (value number).
Local Abbreviation props := (object number).

Lemma escapeHtml_safe (v : val) : html_safe (MainMapbox.escapeHtml v).
Proof.
  unfold html_safe, MainMapbox.escapeHtml.
  repeat split;
    repeat (apply occurs_replaceAll;
            [reflexivity | first [left; reflexivity | right]]).
Qed.

Lemma escapeAttr_safe (v : val) : attr_safe (MainMapbox.escapeAttr v).
Proof.
  unfold attr_safe, MainMapbox.escapeAttr.
  apply occurs_replaceAll; [reflexivity | now left].
Qed.

Lemma escapeHtml_char (c : ascii) :
  MainMapbox.escapeHtml (VStr (String c "") : val) = entity c.
Proof. destruct c as [[] [] [] [] [] [] [] []]; reflexivity. Qed.

Lemma escapeHtml_string_app (a b : string) :
  MainMapbox.escapeHtml (VStr (a ++ b) : val)
  = MainMapbox.escapeHtml (VStr a : val) ++ MainMapbox.escapeHtml (VStr b : val).
Proof.
  unfold MainMapbox.escapeHtml. cbn [ToString].
  now rewrite !replaceAll_app.
Qed.

(** The five replacements in a row replace each character by its entity. *)
Lemma escapeHtml_each (v : val) :
  MainMapbox.escapeHtml v = escape_each (ToString v).
Proof.
  change (MainMapbox.escapeHtml v)
    with (MainMapbox.escapeHtml (VStr (ToString v) : val)).
  induction (ToString v) as [|c s IH]; [reflexivity |].
  change (String c s) with (String c "" ++ s).
  rewrite escapeHtml_string_app, escapeHtml_char, IH. reflexivity.
Qed.

(** C10.  The HTML escaper replaces each character by its entity and
    leaves none of the characters that open markup or close an attribute,
    the attribute escaper leaves no double quote, and every line of a popup
    is markup of the script around escaped text; the popup is these lines,
    the empty ones left out, joined by line breaks. *)
Theorem popup_is_escaped :
  (forall v : val, MainMapbox.escapeHtml v = escape_each (ToString v)) /\
  (forall v : val, html_safe (MainMapbox.escapeHtml v)) /\
  (forall v : val, attr_safe (MainMapbox.escapeAttr v)) /\
  (forall p : props, Forall popup_line (MainMapbox.popup_lines p)) /\
  (forall p : props,
     MainMapbox.popupHtml p =
     join "<br>" (filter nonempty (MainMapbox.popup_lines p))).
Proof.
  split; [exact escapeHtml_each |].
  split; [exact escapeHtml_safe |].
  split; [exact escapeAttr_safe |].
  split; [| reflexivity].
  intros p. unfold MainMapbox.popup_lines.
  repeat (apply Forall_cons || apply Forall_nil).
  - apply line_title, escapeHtml_safe.
  - destruct (truthy (field p "region"));
      [apply line_text, escapeHtml_safe | apply line_none].
  - destruct (truthy _);
      [apply line_text, escapeHtml_safe | apply line_none].
  - destruct (not_null (field p "vert_m"));
      [apply line_vert, escapeHtml_safe | apply line_none].
  - destruct (not_null (field p "distance_km"));
      [apply line_dist, escapeHtml_safe | apply line_none].
  - destruct (truthy (field p "gpx"));
      [apply line_gpx, escapeAttr_safe | apply line_none].
Qed.

End Popup.

(* ================================================================== *)
(** ** Filtering and the feature store *)

Section Store.
Context {number : Type} {N : JSNumber number} {L : Leaflet number}.

Local Abbreviation val := (value number).
Local Abbreviation props := (object number).

Lemma properties_or_empty_truthy (f : val) :
  truthy f = true -> exists p, properties_or_empty f = Return p.
Proof.
  intros H. unfold properties_or_empty, get.
  destruct f; try discriminate; cbn; eauto.
Qed.

Lemma filter_by_properties_total (pred : props -> bool) (fs : list val) :
  Forall (fun f => truthy f = true) fs ->
  exists out, filter_by_properties pred fs = Return out.
Proof.
  induction 1 as [|f fs Hf _ [out IH]]; cbn [filter_by_properties].
  - eauto.
  - destruct (properties_or_empty_truthy f Hf) as [p ->].
    rewrite IH. cbn. eauto.
Qed.

(** Filtering what a filter gave gives it again. *)
Lemma filter_by_properties_idem (pred : props -> bool) (fs out : list val) :
  filter_by_properties pred fs = Return out ->
  filter_by_properties pred out = Return out.
Proof.
  revert out. induction fs as [|f fs IH]; intros out H.
  - cbn in H. inversion H. reflexivity.
  - cbn [filter_by_properties] in H.
    destruct (properties_or_empty f) as [p|e] eqn:Ep; [| discriminate].
    cbn [bind] in H.
    destruct (filter_by_properties pred fs) as [rest|e] eqn:Er;
      [| discriminate].
    cbn [bind] in H. inversion H; subst out; clear H.
    specialize (IH rest eq_refl).
    destruct (pred p) eqn:Hp; [| exact IH].
    cbn [filter_by_properties]. rewrite Ep. cbn [bind].
    rewrite IH. cbn [bind]. now rewrite Hp.
Qed.

(** What a filter gives is a part of the list, in its order, made of the
    items whose properties satisfy the predicate. *)
Lemma filter_by_properties_keeps (pred : props -> bool) (fs out : list val) :
  filter_by_properties pred fs = Return out ->
  forall f, In f out ->
    In f fs /\ exists p, properties_or_empty f = Return p /\ pred p = true.
Proof.
  revert out. induction fs as [|f0 fs IH]; intros out H f Hin.
  - cbn in H. inversion H; subst. contradiction.
  - cbn [filter_by_properties] in H.
    destruct (properties_or_empty f0) as [p|e] eqn:Ep; [| discriminate].
    cbn [bind] in H.
    destruct (filter_by_properties pred fs) as [rest|e] eqn:Er;
      [| discriminate].
    cbn [bind] in H. inversion H; subst out; clear H.
    destruct (pred p) eqn:Hp.
    + destruct Hin as [<- | Hin].
      * split; [now left | eauto].
      * destruct (IH rest eq_refl f Hin) as [? ?]. split; [now right | auto].
    + destruct (IH rest eq_refl f Hin) as [? ?]. split; [now right | auto].
Qed.

Lemma truthy_not_nullish (v : val) : truthy v = true -> nullish v = false.
Proof. destruct v; simpl; congruence. Qed.

Lemma properties_or_empty_of (f : val) :
  truthy f = true -> properties_or_empty f = Return (properties_of f).
Proof.
  intros H. unfold properties_or_empty, properties_of, get, opt_get.
  now rewrite (truthy_not_nullish f H).
Qed.

Lemma filter_by_properties_selection (pred : props -> bool)
    (fs out : list val) :
  filter_by_properties pred fs = Return out -> out = filter (keeps pred) fs.
Proof.
  revert out. induction fs as [|f fs IH]; intros out H.
  - cbn in H. now inversion H.
  - cbn [filter_by_properties] in H. cbn [filter]. unfold keeps at 1.
    destruct (properties_or_empty f) as [p|e]; [| discriminate].
    cbn [bind] in H.
    destruct (filter_by_properties pred fs) as [rest|e]; [| discriminate].
    cbn [bind] in H. inversion H. rewrite (IH rest eq_refl).
    reflexivity.
Qed.

Lemma filter_by_properties_truthy (pred : props -> bool) (fs : list val) :
  Forall (fun f => truthy f = true) fs ->
  filter_by_properties pred fs = Return (filter (keeps pred) fs).
Proof.
  intros H. destruct (filter_by_properties_total pred fs H) as [out E].
  rewrite E. f_equal. now apply filter_by_properties_selection.
Qed.

Lemma main_renderCards_store (fs : list val) (s : Main.state number) :
  Main.allFeatures (fst (Main.renderCards fs s)) = Main.allFeatures s.
Proof.
  unfold Main.renderCards, Main.set_grid, Main.set_count.
  destruct (Main.grid s), (Main.count s); try reflexivity.
  destruct (Main.cards_of fs) as [cs [e|]]; reflexivity.
Qed.

Lemma main_renderMap_store (fs : list val) (s : Main.state number) :
  Main.allFeatures (fst (Main.renderMap fs s)) = Main.allFeatures s.
Proof.
  unfold Main.renderMap. destruct (Main.geoJSON fs); reflexivity.
Qed.

Lemma main_apply_store (s : Main.state number) :
  Main.allFeatures (fst (Main.applyFiltersAndRender s)) = Main.allFeatures s.
Proof.
  unfold Main.applyFiltersAndRender.
  destruct (filter_by_properties _ _) as [out|e]; [| reflexivity].
  pose proof (main_renderCards_store out s) as H.
  destruct (Main.renderCards out s) as [s1 [e|]]; [exact H |].
  now rewrite main_renderMap_store.
Qed.

Lemma main_report_store (r : Main.state number * option exn) :
  Main.allFeatures (Main.report r) = Main.allFeatures (fst r).
Proof. destruct r as [s [e|]]; reflexivity. Qed.

Lemma main_handle_store (e : Main.event) (s : Main.state number) :
  Main.allFeatures (Main.handle e s) = Main.allFeatures s.
Proof.
  destruct e; cbn [Main.handle].
  - now rewrite main_report_store, main_apply_store.
  - rewrite main_report_store, main_apply_store.
    destruct (Main.q (Main.ctl s)); reflexivity.
  - destruct (Main.geoLayer s) as [layer|]; [| reflexivity].
    destruct (layer_bounds layer); reflexivity.
Qed.

Lemma main_run_store (es : list Main.event) (s : Main.state number) :
  Main.allFeatures (Main.run es s) = Main.allFeatures s.
Proof.
  revert s. induction es as [|e es IH]; intros s; [reflexivity |].
  cbn [Main.run fold_left]. fold (Main.run es (Main.handle e s)).
  now rewrite IH, main_handle_store.
Qed.

Lemma mapbox_apply_store (s : MainMapbox.state number) :
  MainMapbox.allFeatures (fst (MainMapbox.applyFiltersAndRender s))
  = MainMapbox.allFeatures s.
Proof.
  unfold MainMapbox.applyFiltersAndRender, MainMapbox.setSourceData.
  destruct (filter_by_properties _ _) as [out|e]; [| reflexivity].
  cbn. destruct (MainMapbox.source s); reflexivity.
Qed.

Lemma mapbox_fit_store (s : MainMapbox.state number) :
  MainMapbox.allFeatures (fst (MainMapbox.fitClicked s))
  = MainMapbox.allFeatures s.
Proof.
  unfold MainMapbox.fitClicked, MainMapbox.fit_if_any.
  destruct (filter_by_properties _ _) as [out|e]; [| reflexivity].
  destruct (MainMapbox.boundsForFeatures out) as [[b|]|e]; try reflexivity.
  cbn. destruct (negb (MainMapbox.isEmpty b)); reflexivity.
Qed.

Lemma mapbox_report_store (r : MainMapbox.state number * option exn) :
  MainMapbox.allFeatures (MainMapbox.report r)
  = MainMapbox.allFeatures (fst r).
Proof. destruct r as [s [e|]]; reflexivity. Qed.

Lemma mapbox_handle_store (e : MainMapbox.event) (s : MainMapbox.state number) :
  MainMapbox.allFeatures (MainMapbox.handle e s) = MainMapbox.allFeatures s.
Proof.
  destruct e; cbn [MainMapbox.handle];
    rewrite mapbox_report_store, ?mapbox_apply_store, ?mapbox_fit_store;
    try reflexivity.
  unfold MainMapbox.set_query. destruct (MainMapbox.query s); reflexivity.
Qed.

Lemma mapbox_run_store (es : list MainMapbox.event)
    (s : MainMapbox.state number) :
  MainMapbox.allFeatures (MainMapbox.run es s) = MainMapbox.allFeatures s.
Proof.
  revert s. induction es as [|e es IH]; intros s; [reflexivity |].
  cbn [MainMapbox.run fold_left].
  fold (MainMapbox.run es (MainMapbox.handle e s)).
  now rewrite IH, mapbox_handle_store.
Qed.

(** C6.  On a store of truthy items the filter of either page returns, and
    filtering its result gives the result again; whatever the user does with
    the controls and the fit button, [allFeatures] stays what it was. *)
Theorem filtering_is_projection (cm : Main.controls)
    (cb : MainMapbox.controls) (fs : list val) :
  Forall (fun f => truthy f = true) fs ->
  (exists out,
     filter_by_properties (Main.passesFilters cm) fs = Return out /\
     filter_by_properties (Main.passesFilters cm) out = Return out) /\
  (exists out,
     filter_by_properties (MainMapbox.passesFilters cb) fs = Return out /\
     filter_by_properties (MainMapbox.passesFilters cb) out = Return out) /\
  (forall es s, Main.allFeatures (Main.run es s) = Main.allFeatures s) /\
  (forall es s,
     MainMapbox.allFeatures (MainMapbox.run es s) = MainMapbox.allFeatures s).
Proof.
  intros Hfs. repeat split.
  - destruct (filter_by_properties_total (Main.passesFilters cm) fs Hfs)
      as [out E].
    exists out. split; [exact E |]. now apply filter_by_properties_idem with fs.
  - destruct (filter_by_properties_total (MainMapbox.passesFilters cb) fs Hfs)
      as [out E].
    exists out. split; [exact E |]. now apply filter_by_properties_idem with fs.
  - intros es s. apply main_run_store.
  - intros es s. apply mapbox_run_store.
Qed.

End Store.

(* ================================================================== *)
(** ** The values offered by the selectors *)

Lemma existsb_eqb_In (x : string) (l : list string) :
  existsb (String.eqb x) l = true <-> In x l.
Proof.
  rewrite existsb_exists. split.
  - intros [y [Hy E]]. apply String.eqb_eq in E. now subst.
  - intros H. exists x. split; [exact H | apply String.eqb_refl].
Qed.

Section SetOf.

Let add (seen : list string) (x : string) : list string :=
  if existsb (String.eqb x) seen then seen else (seen ++ [x])%list.

Lemma set_add_all_In (xs seen : list string) (x : string) :
  In x (fold_left add xs seen) <-> In x seen \/ In x xs.
Proof.
  revert seen. induction xs as [|y xs IH]; intros seen; cbn [fold_left].
  - simpl. tauto.
  - rewrite IH. unfold add.
    destruct (existsb (String.eqb y) seen) eqn:E.
    + apply existsb_eqb_In in E. simpl. intuition (subst; auto).
    + rewrite in_app_iff. simpl. intuition auto.
Qed.

Lemma set_add_all_NoDup (xs seen : list string) :
  NoDup seen -> NoDup (fold_left add xs seen).
Proof.
  revert seen. induction xs as [|y xs IH]; intros seen H; cbn [fold_left].
  - exact H.
  - apply IH. unfold add.
    destruct (existsb (String.eqb y) seen) eqn:E; [exact H |].
    apply NoDup_app; [exact H | repeat constructor; intros [] |].
    intros z Hz [<- | []].
    apply existsb_eqb_In in Hz. congruence.
Qed.

End SetOf.

Lemma set_of_In (xs : list string) (x : string) :
  In x (MainMapbox.set_of xs) <-> In x xs.
Proof.
  unfold MainMapbox.set_of. rewrite set_add_all_In. simpl. tauto.
Qed.

Lemma set_of_NoDup (xs : list string) : NoDup (MainMapbox.set_of xs).
Proof. apply set_add_all_NoDup. constructor. Qed.

Section Sorting.
Variable localeCompare : string -> string -> comparison.

Lemma insert_sorted_perm (x : string) (l : list string) :
  Permutation (MainMapbox.insert_sorted localeCompare x l) (x :: l).
Proof.
  induction l as [|y l IH]; cbn [MainMapbox.insert_sorted].
  - reflexivity.
  - destruct (localeCompare x y); try reflexivity.
    rewrite IH. apply perm_swap.
Qed.

Lemma sort_perm (l : list string) :
  Permutation (MainMapbox.sort localeCompare l) l.
Proof.
  induction l as [|x l IH]; cbn [MainMapbox.sort].
  - reflexivity.
  - rewrite insert_sorted_perm. now constructor.
Qed.

(** The collation never puts each of two strings after the other. *)
Hypothesis localeCompare_asym :
  forall a b, localeCompare a b = Gt -> localeCompare b a <> Gt.

Lemma insert_sorted_Sorted (x : string) (l : list string) :
  Sorted (not_after localeCompare) l ->
  Sorted (not_after localeCompare) (MainMapbox.insert_sorted localeCompare x l).
Proof.
  induction 1 as [|y l Hl IH Hy]; cbn [MainMapbox.insert_sorted].
  - repeat constructor.
  - destruct (localeCompare x y) eqn:E.
    + constructor; [now constructor |].
      constructor. unfold not_after. congruence.
    + constructor; [now constructor |].
      constructor. unfold not_after. congruence.
    + constructor; [exact IH |].
      destruct l as [|z l]; cbn [MainMapbox.insert_sorted].
      * constructor. now apply localeCompare_asym.
      * destruct (localeCompare x z); constructor;
          solve [now apply localeCompare_asym | now inversion Hy].
Qed.

Lemma sort_Sorted (l : list string) :
  Sorted (not_after localeCompare) (MainMapbox.sort localeCompare l).
Proof.
  induction l as [|x l IH]; cbn [MainMapbox.sort].
  - constructor.
  - now apply insert_sorted_Sorted.
Qed.

(** What [uniqSorted] gives: the non-empty strings of the array, each once,
    in the order of the collation. *)
Lemma uniqSorted_spec (arr : list string) :
  NoDup (MainMapbox.uniqSorted localeCompare arr) /\
  (forall x, In x (MainMapbox.uniqSorted localeCompare arr)
             <-> In x arr /\ x <> "") /\
  Sorted (not_after localeCompare) (MainMapbox.uniqSorted localeCompare arr).
Proof.
  unfold MainMapbox.uniqSorted. repeat split.
  - apply (Permutation_NoDup (l := MainMapbox.set_of (filter nonempty arr))).
    + symmetry. apply sort_perm.
    + apply set_of_NoDup.
  - apply (Permutation_in _ (sort_perm _)) in H.
    apply set_of_In, filter_In in H. tauto.
  - apply (Permutation_in _ (sort_perm _)) in H.
    apply set_of_In, filter_In in H. now apply nonempty_true_iff.
  - intros [H1 H2]. apply (Permutation_in _ (Permutation_sym (sort_perm _))).
    apply set_of_In, filter_In. split; [exact H1 |].
    now apply nonempty_true_iff.
  - apply sort_Sorted.
Qed.

End Sorting.

Lemma base_compare_asym (a b : string) :
  base_compare a b = Gt -> base_compare b a <> Gt.
Proof.
  unfold base_compare. intros H.
  rewrite String.compare_antisym, H. discriminate.
Qed.

(** C3, where the code departs from it: a tour that names no province puts
    the entry [undefined] in the province selector, whatever the
    collation. *)
Theorem absent_province_is_listed :
  forall localeCompare : string -> string -> comparison,
    MainMapbox.provinceSelect
      (fst (MainMapbox.loadGeoJSON localeCompare sample_url
              (Responded true (Some no_province)) mapbox_fresh))
    = Some (MainMapbox.Select
              [("", "All provinces"); ("undefined", "undefined")] "").
Proof. intros localeCompare. reflexivity. Qed.

(* ================================================================== *)
(** ** Loading the data *)

Section LoadingProperties.
Context {number : Type} {N : JSNumber number} {L : Leaflet number}.
Variable localeCompare : string -> string -> comparison.
Variable DATA_URL : string.

Local Abbreviation val := (value number).
Local Abbreviation props := (object number).

(** C4 (amended).  When the fetch fails, [loadGeoJSON] of either page
    returns, has asked for the data once, and leaves [allFeatures] as it
    was.  The card page then shows [Failed to load data/tours.geojson] in
    its count element, if it has one; the Mapbox page shows nothing new.
    Either page logs the error of a rejected request on the console. *)
Theorem load_failure (r : fetch_outcome number) (sm : Main.state number)
    (sb : MainMapbox.state number) :
  fetch_failed r ->
  (snd (Main.loadGeoJSON r sm) = None /\
   Main.requests (fst (Main.loadGeoJSON r sm))
     = (Main.requests sm ++ [Main.DATA_URL])%list /\
   Main.allFeatures (fst (Main.loadGeoJSON r sm)) = Main.allFeatures sm /\
   Main.count (fst (Main.loadGeoJSON r sm))
     = option_map (fun _ => "Failed to load data/tours.geojson")
         (Main.count sm) /\
   Main.console (fst (Main.loadGeoJSON r sm))
     = (Main.console sm ++ logged_on_failure r)%list)
  /\
  (snd (MainMapbox.loadGeoJSON localeCompare DATA_URL r sb) = None /\
   MainMapbox.requests (fst (MainMapbox.loadGeoJSON localeCompare DATA_URL r sb))
     = (MainMapbox.requests sb ++ [DATA_URL])%list /\
   MainMapbox.allFeatures
     (fst (MainMapbox.loadGeoJSON localeCompare DATA_URL r sb))
     = MainMapbox.allFeatures sb /\
   mapbox_visible (fst (MainMapbox.loadGeoJSON localeCompare DATA_URL r sb))
     = mapbox_visible sb /\
   MainMapbox.console
     (fst (MainMapbox.loadGeoJSON localeCompare DATA_URL r sb))
     = (MainMapbox.console sb ++ logged_on_failure r)%list).
Proof.
  destruct sm as [af gl c g [cnt|] ft co rq];
    intros [-> | [body ->]]; repeat split;
    cbn; now rewrite ?app_nil_r.
Qed.

Lemma features_of_truthy (gj : val) (fs : list val) :
  features_of gj = Return fs -> Forall (fun f => truthy f = true) fs.
Proof.
  unfold features_of, get. destruct (nullish gj); [discriminate |].
  cbn [bind]. destruct (js_or _ _); try discriminate.
  intros H. inversion H; subst. apply Forall_forall.
  intros f Hf. now apply filter_In in Hf.
Qed.

Lemma features_of_array (fields : object number) (items : list val) :
  field fields "features" = VArr items ->
  features_of (VObj fields) = Return (filter truthy items).
Proof. intros H. unfold features_of, get. cbn. now rewrite H. Qed.

Lemma main_load_store (gj : val) (fs : list val) (s : Main.state number) :
  features_of gj = Return fs ->
  Main.allFeatures (fst (Main.loadGeoJSON (Responded true (Some gj)) s)) = fs.
Proof.
  intros H. unfold Main.loadGeoJSON. rewrite H.
  pose proof (main_apply_store
                (Main.set_allFeatures fs (Main.log_request Main.DATA_URL s)))
    as E.
  destruct (Main.applyFiltersAndRender _) as [s1 [e|]]; cbn in *.
  - unfold Main.set_count. destruct (Main.count s1); exact E.
  - destruct fs; [exact E |]. unfold Main.initial_fit.
    destruct (data_bounds gj); exact E.
Qed.

Lemma mapbox_load_store (gj : val) (fs : list val)
    (s : MainMapbox.state number) :
  features_of gj = Return fs ->
  MainMapbox.allFeatures
    (fst (MainMapbox.loadGeoJSON localeCompare DATA_URL
            (Responded true (Some gj)) s)) = fs.
Proof.
  intros H. unfold MainMapbox.loadGeoJSON. rewrite H.
  destruct (MainMapbox.all_properties fs) as [ps|e]; [| reflexivity].
  match goal with
  | |- context [MainMapbox.applyFiltersAndRender ?s0] =>
      pose proof (mapbox_apply_store s0) as E;
      destruct (MainMapbox.applyFiltersAndRender s0) as [s1 [e|]]
  end; cbn in *; [exact E |].
  destruct (MainMapbox.boundsForFeatures fs) as [[b|]|e]; cbn; try exact E.
  unfold MainMapbox.fit_if_any.
  destruct (negb (MainMapbox.isEmpty b)); exact E.
Qed.

End LoadingProperties.

(* ================================================================== *)
(** ** Bounds and the fit of the viewport *)

Section ValueInduction.
Context {number : Type}.
Variable P : value number -> Prop.
Hypothesis P_undefined : P VUndefined.
Hypothesis P_null : P VNull.
Hypothesis P_bool : forall b, P (VBool b).
Hypothesis P_num : forall n, P (VNum n).
Hypothesis P_str : forall s, P (VStr s).
Hypothesis P_arr : forall items, Forall P items -> P (VArr items).
Hypothesis P_obj : forall fields, P (VObj fields).

(** Induction on a value, through the items of its arrays. *)
Fixpoint value_items_ind (v : value number) : P v :=
  match v with
  | VUndefined => P_undefined
  | VNull => P_null
  | VBool b => P_bool b
  | VNum n => P_num n
  | VStr s => P_str s
  | VArr items =>
      P_arr items
        ((fix all (l : list (value number)) : Forall P l :=
            match l with
            | [] => Forall_nil P
            | x :: l' => Forall_cons x (value_items_ind x) (all l')
            end) items)
  | VObj fields => P_obj fields
  end.

End ValueInduction.

Section Bounds.
Context {number : Type} {N : JSNumber number}.

Local Abbreviation val := (value number).
Local Abbreviation props := (object number).
Local Abbreviation bounds := (MainMapbox.bounds number).

Lemma extendBoundsWithCoords_eq (b : bounds) (coords : val) :
  MainMapbox.extendBoundsWithCoords b coords =
  if negb (truthy coords) then Return b
  else
    c0 <- get_item coords 0 ;;
    c1 <- get_item coords 1 ;;
    match c0, c1 with
    | VNum x, VNum y => MainMapbox.extend b x y
    | _, _ =>
        match coords with
        | VArr cs =>
            MainMapbox.extend_each MainMapbox.extendBoundsWithCoords cs b
        | _ => Return b
        end
    end.
Proof. destruct coords; reflexivity. Qed.

Lemma positions_eq (coords : val) :
  positions coords =
  match item coords 0, item coords 1 with
  | VNum x, VNum y => [(x, y)]
  | _, _ =>
      match coords with
      | VArr cs => flat_map positions cs
      | _ => []
      end
  end.
Proof. destruct coords; reflexivity. Qed.

Lemma latitudes_ok_app (p1 p2 : list (number * number)) :
  latitudes_ok (p1 ++ p2)%list = latitudes_ok p1 && latitudes_ok p2.
Proof. apply forallb_app. Qed.

Lemma extended_nil (b : bounds) : extended b [] = Return b.
Proof. unfold extended. cbn. now rewrite app_nil_r. Qed.

Lemma extend_each_positions
    (extend : bounds -> val -> completion bounds) (cs : list val) :
  Forall (fun c => forall b, extend b c = extended b (positions c)) cs ->
  forall b,
    MainMapbox.extend_each extend cs b = extended b (flat_map positions cs).
Proof.
  induction 1 as [|c cs Hc _ IH]; intros b; cbn [MainMapbox.extend_each].
  - now rewrite extended_nil.
  - rewrite Hc. cbn [flat_map]. unfold extended.
    rewrite latitudes_ok_app.
    destruct (latitudes_ok (positions c)); [| reflexivity].
    cbn [bind andb]. rewrite IH. unfold extended.
    now rewrite app_assoc.
Qed.

(** [extendBoundsWithCoords] takes the positions of the coordinates into
    the bounds, and raises when one of their latitudes is refused. *)
Lemma extendBoundsWithCoords_positions (coords : val) :
  forall b : bounds,
    MainMapbox.extendBoundsWithCoords b coords
    = extended b (positions coords).
Proof.
  induction coords as [| | flag | n | s | items IH | fields]
    using value_items_ind;
    intros b; rewrite extendBoundsWithCoords_eq, positions_eq.
  - now rewrite extended_nil.
  - now rewrite extended_nil.
  - rewrite extended_nil. now destruct flag.
  - rewrite extended_nil. now destruct (negb (truthy (VNum n))).
  - unfold get_item. cbn [nullish bind].
    assert (E0 : is_number (item (VStr s : val) 0) = false)
      by (cbn; now destruct (String.get 0 s)).
    destruct (item (VStr s) 0); try discriminate;
      rewrite extended_nil; now destruct (negb (truthy (VStr s))).
  - cbn [truthy negb]. unfold get_item. cbn [nullish bind].
    destruct (item (VArr items) 0);
      try (apply extend_each_positions; exact IH).
    destruct (item (VArr items) 1);
      try (apply extend_each_positions; exact IH).
    unfold MainMapbox.extend, extended, latitudes_ok. cbn [forallb snd].
    now rewrite andb_true_r.
  - cbn [truthy negb]. unfold get_item. cbn [nullish bind].
    destruct (item (VObj fields) 0); try (now rewrite extended_nil).
    destruct (item (VObj fields) 1); try (now rewrite extended_nil).
    unfold MainMapbox.extend, extended, latitudes_ok. cbn [forallb snd].
    now rewrite andb_true_r.
Qed.

Lemma positions_falsy (v : val) : truthy v = false -> positions v = [].
Proof.
  destruct v as [| | flag | n | s | items | fields]; try reflexivity;
    try discriminate.
  destruct s; [reflexivity | discriminate].
Qed.

Lemma coordinates_of_nothing (g : val) :
  truthy g = false -> opt_get g "coordinates" = VUndefined.
Proof.
  destruct g as [| | flag | n | s | items | fields]; try reflexivity;
    discriminate.
Qed.

Lemma has_geometry_false (f : val) :
  has_geometry f = false <-> missing_geometry f.
Proof. unfold has_geometry, missing_geometry. apply andb_false_iff. Qed.

Lemma feature_positions_missing (f : val) :
  missing_geometry f -> feature_positions f = [].
Proof.
  unfold feature_positions. intros [H | H].
  - now rewrite (coordinates_of_nothing _ H).
  - now apply positions_falsy.
Qed.

Lemma no_geometry_no_positions (fs : list val) :
  existsb has_geometry fs = false -> flat_map feature_positions fs = [].
Proof.
  induction fs as [|f fs IH]; [reflexivity |]. cbn [existsb flat_map].
  intros H. apply orb_false_iff in H. destruct H as [Hf Hfs].
  rewrite (feature_positions_missing f) by now apply has_geometry_false.
  now apply IH.
Qed.

(** One step of the loop of [boundsForFeatures] on a feature that is
    skipped. *)
Lemma bounds_from_skip (b : option bounds) (f : val) (fs : list val) :
  missing_geometry f ->
  MainMapbox.bounds_from b (f :: fs) = MainMapbox.bounds_from b fs.
Proof.
  intros Hf. cbn [MainMapbox.bounds_from].
  destruct (truthy (opt_get f "geometry")) eqn:Hg; [| reflexivity].
  destruct Hf as [Hf | Hf]; [congruence |].
  cbn [negb]. unfold get. rewrite (truthy_not_nullish _ Hg). cbn [bind].
  unfold opt_get at 1 in Hf. rewrite (truthy_not_nullish _ Hg) in Hf.
  now rewrite Hf.
Qed.

(** One step of the loop on a feature that has coordinates. *)
Lemma bounds_from_step (b : option bounds) (f : val) (fs : list val) :
  has_geometry f = true ->
  MainMapbox.bounds_from b (f :: fs) =
  (b1 <- extended (match b with Some b0 => b0 | None => [] end)
           (feature_positions f) ;;
   MainMapbox.bounds_from (Some b1) fs).
Proof.
  intros Hf. apply andb_true_iff in Hf. destruct Hf as [Hg Hc].
  assert (E : opt_get (opt_get f "geometry") "coordinates"
              = field (fields (opt_get f "geometry")) "coordinates").
  { unfold opt_get at 1. now rewrite (truthy_not_nullish _ Hg). }
  unfold feature_positions. rewrite E in *.
  cbn [MainMapbox.bounds_from]. rewrite Hg. cbn [negb].
  unfold get. rewrite (truthy_not_nullish _ Hg). cbn [bind].
  rewrite Hc. cbn [negb]. now rewrite extendBoundsWithCoords_positions.
Qed.

(** The loop of [boundsForFeatures]: it returns when every latitude of the
    features is accepted, with the positions of the features after those it
    started from, and raises otherwise. *)
Lemma bounds_from_positions (fs : list val) :
  forall b : option bounds,
    MainMapbox.bounds_from b fs =
    if latitudes_ok (flat_map feature_positions fs)
    then Return (if existsb has_geometry fs
                 then Some (match b with Some b0 => b0 | None => [] end
                            ++ flat_map feature_positions fs)%list
                 else b)
    else Throw LibraryError.
Proof.
  induction fs as [|f fs IH]; intros b; [reflexivity |].
  cbn [flat_map existsb]. destruct (has_geometry f) eqn:Hf.
  - rewrite (bounds_from_step b f fs Hf). cbn [orb].
    rewrite latitudes_ok_app. unfold extended.
    destruct (latitudes_ok (feature_positions f)); [| reflexivity].
    cbn [bind andb]. rewrite IH.
    destruct (latitudes_ok (flat_map feature_positions fs)); [| reflexivity].
    destruct (existsb has_geometry fs) eqn:Hfs.
    + now rewrite app_assoc.
    + rewrite (no_geometry_no_positions fs Hfs). now rewrite !app_nil_r.
  - rewrite bounds_from_skip by now apply has_geometry_false.
    rewrite (feature_positions_missing f) by now apply has_geometry_false.
    cbn [app orb]. apply IH.
Qed.

Lemma boundsForFeatures_positions (fs : list val) :
  MainMapbox.boundsForFeatures fs =
  if latitudes_ok (flat_map feature_positions fs)
  then Return (if existsb has_geometry fs
               then Some (flat_map feature_positions fs) else None)
  else Throw LibraryError.
Proof.
  unfold MainMapbox.boundsForFeatures. now rewrite bounds_from_positions.
Qed.

Lemma bounds_from_skip_inside (fs1 : list val) (f : val) (fs2 : list val) :
  missing_geometry f ->
  forall b, MainMapbox.bounds_from b (fs1 ++ f :: fs2)%list
            = MainMapbox.bounds_from b (fs1 ++ fs2)%list.
Proof.
  intros Hf. induction fs1 as [|g fs1 IH]; intros b.
  - now apply bounds_from_skip.
  - cbn [app MainMapbox.bounds_from].
    destruct (negb (truthy (opt_get g "geometry"))); [apply IH |].
    destruct (get (opt_get g "geometry") "coordinates") as [coords|e];
      [| reflexivity].
    cbn [bind]. destruct (negb (truthy coords)); [apply IH |].
    destruct (MainMapbox.extendBoundsWithCoords _ coords); [| reflexivity].
    cbn [bind]. apply IH.
Qed.

Lemma bounds_from_all_missing (fs : list val) (b : option bounds) :
  Forall missing_geometry fs -> MainMapbox.bounds_from b fs = Return b.
Proof.
  induction 1 as [|f fs Hf _ IH]; [reflexivity |].
  now rewrite bounds_from_skip.
Qed.

Lemma fit_if_any_nothing (b : option bounds) (duration : nat)
    (s : MainMapbox.state number) :
  b = None \/ b = Some [] -> MainMapbox.fit_if_any b duration s = s.
Proof. intros [-> | ->]; reflexivity. Qed.

(** The listener of the fit button on a store of truthy items, by the
    positions of the features shown. *)
Lemma fitClicked_positions (s : MainMapbox.state number) :
  Forall (fun f => truthy f = true) (MainMapbox.allFeatures s) ->
  MainMapbox.fitClicked s =
  if latitudes_ok (flat_map feature_positions (mapbox_shown s))
  then (MainMapbox.fit_if_any
          (if existsb has_geometry (mapbox_shown s)
           then Some (flat_map feature_positions (mapbox_shown s))
           else None) 400 s, None)
  else (s, Some LibraryError).
Proof.
  intros Hs. unfold MainMapbox.fitClicked.
  rewrite (filter_by_properties_truthy _ _ Hs). fold (mapbox_shown s).
  rewrite boundsForFeatures_positions.
  now destruct (latitudes_ok _).
Qed.

(** C9.  A feature without geometry or coordinates is skipped by
    [boundsForFeatures] wherever it stands, and nothing is raised for it;
    when all features are such, the bounds are [null]; when no feature
    holds a position, the bounds are [null] or empty; on such bounds no fit
    is asked of the map, so the fit button then leaves the page as it is
    and raises nothing, which covers the empty store.  The computation
    raises in one case only, a position whose latitude the map library
    refuses; it then raises the exception of the library, and the fit
    button, which catches nothing, raises it too and asks for no fit. *)
Theorem bounds_skip_and_fit :
  (forall (fs1 : list val) (f : val) (fs2 : list val),
     missing_geometry f ->
     MainMapbox.boundsForFeatures (fs1 ++ f :: fs2)%list
     = MainMapbox.boundsForFeatures (fs1 ++ fs2)%list) /\
  (forall fs : list val,
     Forall missing_geometry fs ->
     MainMapbox.boundsForFeatures fs = Return None) /\
  (forall fs : list val,
     flat_map feature_positions fs = [] ->
     MainMapbox.boundsForFeatures fs
     = Return (if existsb has_geometry fs then Some [] else None)) /\
  (forall (b : option bounds) duration (s : MainMapbox.state number),
     b = None \/ b = Some [] -> MainMapbox.fit_if_any b duration s = s) /\
  (forall s : MainMapbox.state number,
     Forall (fun f => truthy f = true) (MainMapbox.allFeatures s) ->
     flat_map feature_positions (mapbox_shown s) = [] ->
     MainMapbox.fitClicked s = (s, None)) /\
  (forall fs : list val,
     MainMapbox.boundsForFeatures fs =
     if latitudes_ok (flat_map feature_positions fs)
     then Return (if existsb has_geometry fs
                  then Some (flat_map feature_positions fs) else None)
     else Throw LibraryError) /\
  (forall s : MainMapbox.state number,
     Forall (fun f => truthy f = true) (MainMapbox.allFeatures s) ->
     (latitudes_ok (flat_map feature_positions (mapbox_shown s)) = true ->
      exists s', MainMapbox.fitClicked s = (s', None)) /\
     (latitudes_ok (flat_map feature_positions (mapbox_shown s)) = false ->
      MainMapbox.fitClicked s = (s, Some LibraryError))).
Proof.
  split; [intros fs1 f fs2 Hf; now apply bounds_from_skip_inside |].
  split; [intros fs Hfs; now apply bounds_from_all_missing |].
  split.
  { intros fs Hfs. rewrite boundsForFeatures_positions, Hfs. reflexivity. }
  split; [exact fit_if_any_nothing |].
  split.
  { intros s Hs Hp. rewrite (fitClicked_positions s Hs), Hp.
    cbn [latitudes_ok forallb].
    now destruct (existsb has_geometry (mapbox_shown s)). }
  split; [exact boundsForFeatures_positions |].
  intros s Hs. rewrite (fitClicked_positions s Hs). split; intros ->.
  - eauto.
  - reflexivity.
Qed.

End Bounds.

(* ================================================================== *)
(** ** The properties on sample data *)

(** Witness of [load_failure]: a response that is not a success. *)
Lemma load_failure_witness :
  fetch_failed (Responded false None : fetch_outcome Z) /\
  Main.count (fst (Main.loadGeoJSON (Responded false None) main_fresh))
    = Some "Failed to load data/tours.geojson" /\
  MainMapbox.allFeatures
    (fst (MainMapbox.loadGeoJSON base_compare sample_url
            (Responded false None) mapbox_fresh))
    = [].
Proof.
  assert (F : fetch_failed (Responded false None : fetch_outcome Z))
    by (right; exists None; reflexivity).
  split; [exact F |].
  destruct (load_failure base_compare sample_url (Responded false None)
              main_fresh mapbox_fresh F)
    as [[_ [_ [_ [Hc _]]]] [_ [_ [Hs _]]]].
  split; [exact Hc | exact Hs].
Defined.

(** C4, as stated, fails on the Mapbox page: after a response that is not a
    success, what the user sees is what it was, and the console as well. *)
Lemma mapbox_failure_shows_nothing :
  mapbox_visible
    (fst (MainMapbox.loadGeoJSON base_compare sample_url
            (Responded false None) mapbox_fresh))
    = mapbox_visible mapbox_fresh /\
  MainMapbox.console
    (fst (MainMapbox.loadGeoJSON base_compare sample_url
            (Responded false None) mapbox_fresh))
    = MainMapbox.console mapbox_fresh.
Proof. split; reflexivity. Qed.

(** Witness of [filtering_is_projection]: the selector [Advanced] on two
    tours. *)
Lemma filtering_is_projection_witness :
  Forall (fun f : value Z => truthy f = true)
    [VObj [("properties", VObj gin_peak)];
     VObj [("properties", VObj intermediate_tour)]] /\
  exists out,
    filter_by_properties (Main.passesFilters advanced_only)
      [VObj [("properties", VObj gin_peak)];
       VObj [("properties", VObj intermediate_tour)]] = Return out /\
    filter_by_properties (Main.passesFilters advanced_only) out = Return out.
Proof.
  assert (F : Forall (fun f : value Z => truthy f = true)
                [VObj [("properties", VObj gin_peak)];
                 VObj [("properties", VObj intermediate_tour)]])
    by (repeat constructor).
  split; [exact F |].
  exact (proj1 (filtering_is_projection advanced_only (mapbox_query "")
                  [VObj [("properties", VObj gin_peak)];
                   VObj [("properties", VObj intermediate_tour)]] F)).
Defined.

(** A feature whose coordinates hold no position gives empty bounds, and
    the fit button then asks nothing of the map. *)
Example empty_coordinates_no_fit :
  MainMapbox.boundsForFeatures
    [VObj [("geometry", VObj [("coordinates", VArr [])])] : value Z]
    = Return (Some []) /\
  MainMapbox.fitClicked
    (MainMapbox.set_allFeatures
       [VObj [("geometry", VObj [("coordinates", VArr [])])]] mapbox_fresh)
    = (MainMapbox.set_allFeatures
         [VObj [("geometry", VObj [("coordinates", VArr [])])]] mapbox_fresh,
       None).
Proof. split; reflexivity. Qed.

(** The selectors list each value once, in the order of the collation. *)
Example provinces_listed :
  MainMapbox.uniqSorted base_compare ["BC"; "AB"; ""; "BC"; "Yukon"]
  = ["AB"; "BC"; "Yukon"].
Proof. reflexivity. Qed.

(** Three tours are loaded, the [null] item of the array being dropped; the
    selectors offer their provinces and regions; choosing [BC] leaves the
    two tours of that province on the map and the store as it was. *)
Example choose_province :
  MainMapbox.allFeatures
    (fst (MainMapbox.loadGeoJSON base_compare sample_url
            (Responded true (Some three_tours)) mapbox_fresh))
    = [tour "BC" "Whistler"; tour "BC" "Squamish"; tour "AB" "Canmore"] /\
  option_map MainMapbox.options
    (MainMapbox.provinceSelect
       (fst (MainMapbox.loadGeoJSON base_compare sample_url
               (Responded true (Some three_tours)) mapbox_fresh)))
    = Some [("", "All provinces"); ("AB", "AB"); ("BC", "BC")] /\
  MainMapbox.source
    (MainMapbox.run [MainMapbox.ChooseProvince "BC"]
       (fst (MainMapbox.loadGeoJSON base_compare sample_url
               (Responded true (Some three_tours)) mapbox_fresh)))
    = Some [tour "BC" "Whistler"; tour "BC" "Squamish"] /\
  MainMapbox.allFeatures
    (MainMapbox.run [MainMapbox.ChooseProvince "BC"]
       (fst (MainMapbox.loadGeoJSON base_compare sample_url
               (Responded true (Some three_tours)) mapbox_fresh)))
    = [tour "BC" "Whistler"; tour "BC" "Squamish"; tour "AB" "Canmore"].
Proof. repeat split. Qed.

(** Markup in a title is shown as text, and a quote cannot close the
    attribute of the download link. *)
Example popup_of_markup :
  MainMapbox.escapeHtml (VStr "<b>Gin & 'Tonic'</b>" : value Z)
    = "&lt;b&gt;Gin &amp; &#039;Tonic&#039;&lt;/b&gt;" /\
  MainMapbox.escapeAttr (VStr (MainMapbox.quoted "a.gpx") : value Z)
    = "%22a.gpx%22".
Proof. split; reflexivity. Qed.

(* ================================================================== *)
(** ** Further properties: normalisation and the filter predicate *)

Lemma trimEnd_idem (s : string) : trimEnd (trimEnd s) = trimEnd s.
Proof.
  induction s as [|c s IH]; [reflexivity |].
  cbn [trimEnd]. destruct (trimEnd s) as [|x r] eqn:E.
  - destruct (is_ws c) eqn:W; [reflexivity |]. cbn. now rewrite W.
  - cbn [trimEnd]. cbn [trimEnd] in IH. rewrite IH. reflexivity.
Qed.

Lemma trimStart_fixed (s : string) :
  s = "" \/ (exists f r, s = String f r /\ is_ws f = false) ->
  trimStart s = s.
Proof.
  intros [-> | [f [r [-> W]]]]; [reflexivity |]. cbn. now rewrite W.
Qed.

Lemma trim_head (s : string) :
  trim s = "" \/ exists f r, trim s = String f r /\ is_ws f = false.
Proof.
  unfold trim. destruct (trimStart_head s) as [E | [f [r [E W]]]].
  - left. now rewrite E.
  - right. rewrite E. destruct (trimEnd_head f r W) as [r' E'].
    exists f, r'. now split.
Qed.

Lemma trim_idem (s : string) : trim (trim s) = trim s.
Proof.
  unfold trim at 1. rewrite (trimStart_fixed (trim s) (trim_head s)).
  unfold trim. apply trimEnd_idem.
Qed.

Lemma normalized_idem (s : string) : normalized (normalized s) = normalized s.
Proof.
  unfold normalized. rewrite <- trim_lower, toLowerCase_idem, trim_lower.
  now rewrite trim_idem.
Qed.

Lemma trimStart_blank (w : string) : trimStart w = "" -> trimEnd w = "".
Proof.
  induction w as [|c w IH]; [reflexivity |]. cbn.
  destruct (is_ws c) eqn:W; [| discriminate].
  intros H. now rewrite (IH H).
Qed.

Lemma blank_trimStart (w : string) : blank w -> trimStart w = "".
Proof.
  unfold blank, trim. intros H.
  destruct (trimStart_head w) as [E | [f [r [E W]]]]; [exact E |].
  rewrite E in H. destruct (trimEnd_head f r W) as [r' E'].
  rewrite E' in H. discriminate.
Qed.

Lemma trimStart_app_blank (w s : string) :
  trimStart w = "" -> trimStart (w ++ s) = trimStart s.
Proof.
  induction w as [|c w IH]; [reflexivity |]. cbn.
  destruct (is_ws c); [exact IH | discriminate].
Qed.

Lemma trimStart_app (s t : string) :
  trimStart s <> "" -> trimStart (s ++ t) = trimStart s ++ t.
Proof.
  induction s as [|c s IH]; [cbn; congruence |]. cbn.
  destruct (is_ws c); [exact IH | reflexivity].
Qed.

Lemma trimEnd_app_blank (s w : string) :
  trimEnd w = "" -> trimEnd (s ++ w) = trimEnd s.
Proof.
  intros H. induction s as [|c s IH]; [exact H |].
  cbn [append trimEnd]. now rewrite IH.
Qed.

(** White space around a string does not change what [trim] gives. *)
Lemma trim_padded (w1 s w2 : string) :
  blank w1 -> blank w2 -> trim (w1 ++ s ++ w2) = trim s.
Proof.
  intros H1 H2. apply blank_trimStart in H1. apply blank_trimStart in H2.
  unfold trim. rewrite (trimStart_app_blank w1 _ H1).
  destruct (trimStart s) as [|f r] eqn:E.
  - rewrite <- (trimStart_app_blank s w2 E) in H2.
    rewrite H2. reflexivity.
  - rewrite trimStart_app by congruence. rewrite E.
    apply trimEnd_app_blank. now apply trimStart_blank.
Qed.

Lemma normalized_head (s : string) (f : ascii) (r : string) :
  normalized s = String f r -> is_ws f = false.
Proof.
  unfold normalized. intros H.
  destruct (trim_head s) as [E | [f' [r' [E W]]]]; rewrite E in H.
  - discriminate.
  - cbn in H. inversion H. now rewrite is_ws_lower_char.
Qed.

Section FilterFurther.
Context {number : Type} {N : JSNumber number}.

Local Abbreviation val := (value number).
Local Abbreviation props := (object number).

(** X1.  [norm] gives a string that is trimmed and lower-cased, and
    normalising it again changes nothing. *)
Theorem norm_idempotent (v : val) :
  norm (VStr (norm v) : val) = norm v /\
  trim (norm v) = norm v /\
  toLowerCase (norm v) = norm v.
Proof.
  assert (E : norm v = normalized (ToString (coalesce v (VStr ""))))
    by reflexivity.
  repeat split.
  - rewrite norm_string, E. apply normalized_idem.
  - rewrite E. unfold normalized. rewrite <- trim_lower. apply trim_idem.
  - apply norm_is_lower.
Qed.

(** X2.  The query of either page may be typed in any case and with white
    space around it: the predicate gives the same answer. *)
Theorem query_case_and_padding (s1 s2 w1 w2 : string) (d a : option string)
    (p : props) :
  toLowerCase s1 = toLowerCase s2 -> blank w1 -> blank w2 ->
  Main.passesFilters (Main.Controls (Some (w1 ++ s1 ++ w2)) d a) p
    = Main.passesFilters (Main.Controls (Some s2) d a) p /\
  MainMapbox.passesFilters (MainMapbox.Controls (Some (w1 ++ s1 ++ w2)) d a) p
    = MainMapbox.passesFilters (MainMapbox.Controls (Some s2) d a) p.
Proof.
  intros E H1 H2.
  assert (Q : normalized (w1 ++ s1 ++ w2) = normalized s2).
  { unfold normalized. rewrite (trim_padded w1 s1 w2 H1 H2).
    now rewrite <- !trim_lower, E. }
  rewrite !main_passesFilters_decide, !mapbox_passesFilters_decide.
  cbn [Main.q Main.difficulty Main.activity MainMapbox.q MainMapbox.province
       MainMapbox.region control_text].
  now rewrite Q.
Qed.

(** X3.  A query that is a part of another keeps every feature the other
    keeps: typing more never brings a feature back. *)
Theorem shorter_query_keeps_more (s1 s2 : string) (d a : option string)
    (p : props) :
  substring_of (normalized s1) (normalized s2) ->
  (Main.passesFilters (Main.Controls (Some s2) d a) p = true ->
   Main.passesFilters (Main.Controls (Some s1) d a) p = true) /\
  (MainMapbox.passesFilters (MainMapbox.Controls (Some s2) d a) p = true ->
   MainMapbox.passesFilters (MainMapbox.Controls (Some s1) d a) p = true).
Proof.
  intros H. split; intros P.
  - apply main_passesFilters_iff in P. apply main_passesFilters_iff.
    destruct P as [T S]. split; [| exact S].
    unfold text_passes in *. cbn [Main.q control_text] in *.
    now apply substring_of_trans with (normalized s2).
  - apply mapbox_passesFilters_iff in P. apply mapbox_passesFilters_iff.
    destruct P as [T S]. split; [| exact S].
    unfold text_passes in *. cbn [MainMapbox.q control_text] in *.
    now apply substring_of_trans with (normalized s2).
Qed.

Lemma decide_filters_split (q s1 s2 hay v1 v2 : string) :
  decide_filters q s1 s2 hay v1 v2 =
  decide_filters q "" "" hay v1 v2 &&
  decide_filters "" s1 "" hay v1 v2 &&
  decide_filters "" "" s2 hay v1 v2.
Proof.
  unfold decide_filters. cbn [nonempty andb].
  destruct (nonempty q && negb (includes hay q)); [reflexivity |].
  destruct (nonempty s1 && negb (v1 =? s1)); [reflexivity |].
  destruct (nonempty s2 && negb (v2 =? s2)); reflexivity.
Qed.

(** X4.  The three controls of either page act each on its own: a feature
    passes exactly when it passes the query alone, the first selector alone
    and the second selector alone. *)
Theorem controls_act_separately (q d a : option string) (p : props) :
  Main.passesFilters (Main.Controls q d a) p =
    Main.passesFilters (Main.Controls q None None) p &&
    Main.passesFilters (Main.Controls None d None) p &&
    Main.passesFilters (Main.Controls None None a) p /\
  MainMapbox.passesFilters (MainMapbox.Controls q d a) p =
    MainMapbox.passesFilters (MainMapbox.Controls q None None) p &&
    MainMapbox.passesFilters (MainMapbox.Controls None d None) p &&
    MainMapbox.passesFilters (MainMapbox.Controls None None a) p.
Proof.
  rewrite !main_passesFilters_decide, !mapbox_passesFilters_decide.
  cbn [Main.q Main.difficulty Main.activity MainMapbox.q MainMapbox.province
       MainMapbox.region control_text].
  change (normalized "") with "".
  split; apply decide_filters_split.
Qed.

Lemma spaces_only (f : ascii) (r : string) :
  substring_of (String f r) "    " -> is_ws f = true.
Proof.
  intros [a [b H]].
  destruct a as [|c1 [|c2 [|c3 [|c4 [|c5 a]]]]]; cbn in H;
    inversion H; subst; try reflexivity.
Qed.

(** X5.  A feature that has none of the searched fields passes only when
    nothing is asked: every query that is not blank and every selector that
    is set excludes it. *)
Theorem fieldless_feature (cm : Main.controls) (cb : MainMapbox.controls)
    (p : props) :
  (forall k, In k ["title"; "region"; "subtitle"; "activity"; "difficulty";
                   "province"; "country"] -> norm (field p k) = "") ->
  (Main.passesFilters cm p = true <->
   blank (control_text (Main.q cm)) /\
   blank (control_text (Main.difficulty cm)) /\
   blank (control_text (Main.activity cm))) /\
  (MainMapbox.passesFilters cb p = true <->
   blank (control_text (MainMapbox.q cb)) /\
   blank (control_text (MainMapbox.province cb)) /\
   blank (control_text (MainMapbox.region cb))).
Proof.
  intros H.
  assert (B : forall s, normalized s = "" <-> blank s).
  { intros s. unfold normalized, blank. split; intros E.
    - destruct (trim s); [reflexivity | discriminate].
    - now rewrite E. }
  assert (T : forall s, text_passes s "    " <-> blank s).
  { intros s. unfold text_passes. rewrite <- B. split.
    - intros S. destruct (normalized s) as [|f r] eqn:E; [reflexivity |].
      apply spaces_only in S. apply normalized_head in E. congruence.
    - intros ->. apply substring_of_nil. }
  assert (S : forall s k,
             In k ["title"; "region"; "subtitle"; "activity"; "difficulty";
                   "province"; "country"] ->
             selector_passes s (field p k) <-> blank s).
  { intros s k Hk. unfold selector_passes. rewrite (H k Hk), <- B.
    split; [intros [E | E]; congruence | now left]. }
  split.
  - rewrite main_passesFilters_iff. unfold Main.hay.
    rewrite !H by (simpl; tauto). cbn [append].
    rewrite T, !S by (simpl; tauto). reflexivity.
  - rewrite mapbox_passesFilters_iff. unfold MainMapbox.hay.
    rewrite !H by (simpl; tauto). cbn [append].
    rewrite T, !S by (simpl; tauto). reflexivity.
Qed.

End FilterFurther.

(** Witness of [query_case_and_padding]. *)
Lemma query_case_and_padding_witness :
  (toLowerCase "PEAK" = toLowerCase "peak" /\ blank " " /\ blank "  ") /\
  Main.passesFilters (Main.Controls (Some " PEAK  ") None None) gin_peak
    = Main.passesFilters (Main.Controls (Some "peak") None None) gin_peak.
Proof.
  split; [repeat split |].
  exact (proj1 (query_case_and_padding "PEAK" "peak" " " "  " None None
                  gin_peak eq_refl eq_refl eq_refl)).
Defined.

(** Witness of [shorter_query_keeps_more]. *)
Lemma shorter_query_keeps_more_witness :
  substring_of (normalized "Pea") (normalized "gin peak") /\
  (Main.passesFilters (Main.Controls (Some "gin peak") None None) gin_peak
     = true ->
   Main.passesFilters (Main.Controls (Some "Pea") None None) gin_peak = true).
Proof.
  assert (H : substring_of (normalized "Pea") (normalized "gin peak"))
    by (exists "gin ", "k"; reflexivity).
  split; [exact H |].
  exact (proj1 (shorter_query_keeps_more "Pea" "gin peak" None None
                  gin_peak H)).
Defined.

(** Witness of [fieldless_feature]. *)
Lemma fieldless_feature_witness :
  (forall k, In k ["title"; "region"; "subtitle"; "activity"; "difficulty";
                   "province"; "country"] -> norm (field untitled k) = "") /\
  (Main.passesFilters (main_query "") untitled = true <->
   blank (control_text (Main.q (main_query ""))) /\
   blank (control_text (Main.difficulty (main_query ""))) /\
   blank (control_text (Main.activity (main_query "")))).
Proof.
  assert (H : forall k, In k ["title"; "region"; "subtitle"; "activity";
                              "difficulty"; "province"; "country"] ->
                        norm (field untitled k) = "").
  { intros k Hk. simpl in Hk.
    destruct Hk as [<- | [<- | [<- | [<- | [<- | [<- | [<- | []]]]]]]];
      reflexivity. }
  split; [exact H |].
  exact (proj1 (fieldless_feature (main_query "") (mapbox_query "")
                  untitled H)).
Defined.

(* ================================================================== *)
(** ** Further properties: what the pages show *)

Section Views.
Context {number : Type} {N : JSNumber number} {L : Leaflet number}.

Local Abbreviation val := (value number).
Local Abbreviation props := (object number).

(** X6.  The filter of the pages is a selection: when it returns, it gives
    the items whose properties satisfy the predicate, in the order of the
    store, and on a store of truthy items it returns. *)
Theorem filter_is_selection (pred : props -> bool) (fs : list val) :
  (forall out, filter_by_properties pred fs = Return out ->
               out = filter (keeps pred) fs) /\
  (Forall (fun f => truthy f = true) fs ->
   filter_by_properties pred fs = Return (filter (keeps pred) fs)) /\
  (forall f, nullish f = true -> In f fs ->
             filter_by_properties pred fs = Throw TypeError).
Proof.
  split; [intros out; apply filter_by_properties_selection |].
  split; [apply filter_by_properties_truthy |].
  intros f Hf Hin. induction fs as [|g fs IH]; [contradiction |].
  cbn [filter_by_properties]. unfold properties_or_empty at 1, get.
  destruct (nullish g) eqn:Hg; [reflexivity |].
  cbn [bind]. destruct Hin as [-> | Hin]; [congruence |].
  now rewrite (IH Hin).
Qed.

Lemma Forall_filter_truthy (g : val -> bool) (fs : list val) :
  Forall (fun f => truthy f = true) fs ->
  Forall (fun f => truthy f = true) (filter g fs).
Proof.
  intros H. apply Forall_forall. intros f Hf. apply filter_In in Hf.
  rewrite Forall_forall in H. now apply H.
Qed.

(* ---- the Mapbox page ---- *)

Lemma mapbox_apply_synced (s : MainMapbox.state number) :
  Forall (fun f => truthy f = true) (MainMapbox.allFeatures s) ->
  MainMapbox.source s <> None ->
  MainMapbox.applyFiltersAndRender s
  = (MainMapbox.setSourceData (mapbox_shown s) s, None) /\
  mapbox_synced (MainMapbox.setSourceData (mapbox_shown s) s).
Proof.
  intros Hs Hsrc. unfold MainMapbox.applyFiltersAndRender.
  rewrite (filter_by_properties_truthy _ _ Hs). split; [reflexivity |].
  unfold mapbox_synced, MainMapbox.setSourceData.
  destruct (MainMapbox.source s) eqn:E; [| congruence].
  split; [exact Hs | reflexivity].
Qed.

Lemma mapbox_handle_synced (e : MainMapbox.event)
    (s : MainMapbox.state number) :
  mapbox_synced s -> mapbox_synced (MainMapbox.handle e s).
Proof.
  intros [Hs Hsrc].
  assert (Hne : MainMapbox.source s <> None) by congruence.
  destruct e; cbn [MainMapbox.handle].
  - assert (Hs' : Forall (fun f => truthy f = true)
                    (MainMapbox.allFeatures (MainMapbox.set_query text s)))
      by (unfold MainMapbox.set_query; destruct (MainMapbox.query s);
          exact Hs).
    assert (Hne' : MainMapbox.source (MainMapbox.set_query text s) <> None)
      by (unfold MainMapbox.set_query; destruct (MainMapbox.query s);
          exact Hne).
    destruct (mapbox_apply_synced _ Hs' Hne') as [-> H]. exact H.
  - match goal with
    | |- context [MainMapbox.applyFiltersAndRender ?s0] =>
        destruct (mapbox_apply_synced s0 Hs Hne) as [-> H]; exact H
    end.
  - match goal with
    | |- context [MainMapbox.applyFiltersAndRender ?s0] =>
        destruct (mapbox_apply_synced s0 Hs Hne) as [-> H]; exact H
    end.
  - unfold MainMapbox.fitClicked.
    rewrite (filter_by_properties_truthy _ _ Hs).
    destruct (MainMapbox.boundsForFeatures _) as [b|e];
      cbn [MainMapbox.report]; [| now split].
    unfold MainMapbox.fit_if_any.
    destruct b as [b|]; [| now split].
    destruct (negb (MainMapbox.isEmpty b)); now split.
Qed.

(** X7.  On the Mapbox page the map follows the controls: once the source
    holds what the controls select from the store, it does so after every
    query typed, selector changed and fit asked. *)
Theorem mapbox_map_follows_controls (es : list MainMapbox.event)
    (s : MainMapbox.state number) :
  mapbox_synced s -> mapbox_synced (MainMapbox.run es s).
Proof.
  revert s. induction es as [|e es IH]; intros s H; [exact H |].
  cbn [MainMapbox.run fold_left].
  fold (MainMapbox.run es (MainMapbox.handle e s)).
  apply IH. now apply mapbox_handle_synced.
Qed.

(* ---- the card page ---- *)

Lemma cards_of_truthy (fs : list val) :
  Forall (fun f => truthy f = true) fs ->
  Main.cards_of fs = (map (fun f => Main.card_of (properties_of f)) fs, None).
Proof.
  induction 1 as [|f fs Hf _ IH]; [reflexivity |].
  cbn [Main.cards_of map]. rewrite (properties_or_empty_of f Hf).
  now rewrite IH.
Qed.

Lemma main_shown_readable (s : Main.state number) :
  Forall (fun f => leaflet_reads f = true) (Main.allFeatures s) ->
  forallb leaflet_reads (main_shown s) = true.
Proof.
  intros H. apply forallb_forall. intros f Hf. unfold main_shown in Hf.
  apply filter_In in Hf. rewrite Forall_forall in H. now apply H.
Qed.

Lemma main_views_synced (s : Main.state number) :
  main_views s ->
  Forall (fun f => leaflet_reads f = true) (Main.allFeatures s) ->
  main_synced s.
Proof.
  intros [Hs [Hl Hc]] Hr. split; [exact Hs |]. split; [| exact Hc].
  rewrite Hl. unfold main_layer. now rewrite (main_shown_readable s Hr).
Qed.

(** What [applyFiltersAndRender] leaves on a store of truthy items: the
    views of the features shown, and the exception of Leaflet when it
    cannot read one of them. *)
Lemma main_apply_views (s : Main.state number) :
  Forall (fun f => truthy f = true) (Main.allFeatures s) ->
  main_views (fst (Main.applyFiltersAndRender s)) /\
  Main.ctl (fst (Main.applyFiltersAndRender s)) = Main.ctl s /\
  snd (Main.applyFiltersAndRender s)
  = if forallb leaflet_reads (main_shown s) then None
    else Some LibraryError.
Proof.
  intros Hs. unfold Main.applyFiltersAndRender.
  rewrite (filter_by_properties_truthy _ _ Hs).
  fold (main_shown s).
  unfold Main.renderCards.
  rewrite (cards_of_truthy (main_shown s))
    by (apply Forall_filter_truthy; exact Hs).
  unfold Main.renderMap, Main.geoJSON, main_views, main_layer, main_shown.
  destruct s as [af gl c [g|] [cnt|] ft co rq]; cbn in *;
    destruct (forallb leaflet_reads _) eqn:E; cbn; rewrite ?E;
    repeat split; auto.
Qed.

Lemma main_report_views (r : Main.state number * option exn) :
  main_views (fst r) -> main_views (Main.report r).
Proof. destruct r as [s [e|]]; intros H; exact H. Qed.

Lemma main_handle_views (e : Main.event) (s : Main.state number) :
  main_views s -> main_views (Main.handle e s).
Proof.
  intros H. pose proof H as [Hs _].
  destruct e; cbn [Main.handle].
  - apply main_report_views. now apply main_apply_views.
  - apply main_report_views. apply main_apply_views.
    destruct (Main.q (Main.ctl s)); exact Hs.
  - destruct (Main.geoLayer s) as [layer|] eqn:El; [| exact H].
    destruct (layer_bounds layer); [| exact H].
    destruct s as [af gl c g cnt ft co rq].
    unfold main_views, main_layer, main_shown in *. cbn in *. exact H.
Qed.

Lemma main_run_views (es : list Main.event) (s : Main.state number) :
  main_views s -> main_views (Main.run es s).
Proof.
  revert s. induction es as [|e es IH]; intros s H; [exact H |].
  cbn [Main.run fold_left]. fold (Main.run es (Main.handle e s)).
  apply IH. now apply main_handle_views.
Qed.

(** X8.  On the card page the views follow the controls.  Once the cards
    and the count label show what the controls select from the store, and
    the map layer is that of the features selected, or missing when Leaflet
    cannot read one of them, this stays so after every change of a control,
    every preset chosen and every fit asked.  When Leaflet reads every
    feature of the store, the layer then always holds the features
    selected, so that layer, cards and count agree. *)
Theorem main_views_agree (es : list Main.event) (s : Main.state number) :
  main_views s ->
  main_views (Main.run es s) /\
  (Forall (fun f => leaflet_reads f = true) (Main.allFeatures s) ->
   main_synced (Main.run es s)).
Proof.
  intros H. pose proof (main_run_views es s H) as V.
  split; [exact V |]. intros Hr.
  apply main_views_synced; [exact V |].
  now rewrite main_run_store.
Qed.

End Views.

(* ================================================================== *)
(** ** Further properties: the selectors and the load *)

(** X9.  [populateSelect] offers the entry of empty value first, then the
    values given, in their order; the value of the selector is one of those
    offered: the one it had when that is still offered, else the empty one;
    populating again with the same values changes nothing; and a selector
    that the page lacks stays absent. *)
Theorem populateSelect_offers (el : MainMapbox.select) (values : list string)
    (allLabel : string) :
  exists el',
    MainMapbox.populateSelect (Some el) values allLabel = Some el' /\
    MainMapbox.options el' = ("", allLabel) :: map (fun v => (v, v)) values /\
    In (MainMapbox.selected el') (map fst (MainMapbox.options el')) /\
    (In (MainMapbox.selected el) values ->
     MainMapbox.selected el' = MainMapbox.selected el) /\
    (~ In (MainMapbox.selected el) values -> MainMapbox.selected el' = "") /\
    MainMapbox.populateSelect (Some el') values allLabel = Some el' /\
    MainMapbox.populateSelect None values allLabel = None.
Proof.
  eexists. split; [reflexivity |]. cbn.
  assert (M : map fst (map (fun v : string => (v, v)) values) = values).
  { rewrite map_map. cbn. apply map_id. }
  destruct (existsb (String.eqb (MainMapbox.selected el)) values) eqn:E.
  - pose proof (proj1 (existsb_eqb_In _ _) E) as Hin.
    repeat split; auto.
    + right. now rewrite M.
    + intros Hn. contradiction.
    + now rewrite E.
  - assert (Hn : ~ In (MainMapbox.selected el) values).
    { intros Hin. apply existsb_eqb_In in Hin. congruence. }
    repeat split; auto.
    + intros Hin. contradiction.
    + destruct (existsb (String.eqb "") values); reflexivity.
Qed.

Section SelectorValues.
Variable localeCompare : string -> string -> comparison.

Lemma uniqSorted_In (arr : list string) (x : string) :
  In x (MainMapbox.uniqSorted localeCompare arr) <-> In x arr /\ x <> "".
Proof.
  unfold MainMapbox.uniqSorted. split.
  - intros H. apply (Permutation_in _ (sort_perm _ _)) in H.
    apply set_of_In, filter_In in H. rewrite nonempty_true_iff in H. exact H.
  - intros [H1 H2].
    apply (Permutation_in _ (Permutation_sym (sort_perm _ _))).
    apply set_of_In, filter_In. now rewrite nonempty_true_iff.
Qed.

Lemma sort_sorted_fixed (l : list string) :
  Sorted (not_after localeCompare) l -> MainMapbox.sort localeCompare l = l.
Proof.
  induction 1 as [|x l Hl IH Hx]; [reflexivity |].
  cbn [MainMapbox.sort]. rewrite IH.
  destruct Hx as [|y l Hxy]; [reflexivity |].
  cbn [MainMapbox.insert_sorted]. unfold not_after in Hxy.
  destruct (localeCompare x y); congruence.
Qed.

Lemma set_add_all_fixed (xs seen : list string) :
  NoDup (seen ++ xs)%list ->
  fold_left
    (fun seen x => if existsb (String.eqb x) seen then seen
                   else (seen ++ [x])%list) xs seen
  = (seen ++ xs)%list.
Proof.
  revert seen. induction xs as [|x xs IH]; intros seen H; cbn [fold_left].
  - now rewrite app_nil_r.
  - destruct (existsb (String.eqb x) seen) eqn:E.
    + apply existsb_eqb_In in E. apply NoDup_remove_2 in H.
      exfalso. apply H. apply in_or_app. now left.
    + rewrite IH; rewrite <- app_assoc; [reflexivity | exact H].
Qed.

Lemma filter_nonempty_fixed (l : list string) :
  (forall x, In x l -> x <> "") -> filter nonempty l = l.
Proof.
  induction l as [|x l IH]; intros H; [reflexivity |].
  cbn [filter]. rewrite (proj2 (nonempty_true_iff x)) by (apply H; now left).
  rewrite IH; [reflexivity |]. intros y Hy. apply H. now right.
Qed.

Hypothesis localeCompare_asym :
  forall a b, localeCompare a b = Gt -> localeCompare b a <> Gt.

(** X10.  Under a collation that never puts each of two strings after the
    other, [uniqSorted] lists the non-empty strings of the array, each
    once, no string before one that the collation puts before it. *)
Theorem uniqSorted_sorted_unique (arr : list string) :
  NoDup (MainMapbox.uniqSorted localeCompare arr) /\
  (forall x, In x (MainMapbox.uniqSorted localeCompare arr)
             <-> In x arr /\ x <> "") /\
  Sorted (not_after localeCompare) (MainMapbox.uniqSorted localeCompare arr).
Proof.
  split; [| split].
  - apply (Permutation_NoDup
             (l := MainMapbox.set_of (filter nonempty arr))).
    + symmetry. apply sort_perm.
    + apply set_of_NoDup.
  - intros x. apply uniqSorted_In.
  - unfold MainMapbox.uniqSorted. now apply sort_Sorted.
Qed.

(** X11.  Under such a collation [uniqSorted] is idempotent: what it gives
    is already without duplicates, without empty strings and sorted. *)
Theorem uniqSorted_idempotent (arr : list string) :
  MainMapbox.uniqSorted localeCompare
    (MainMapbox.uniqSorted localeCompare arr)
  = MainMapbox.uniqSorted localeCompare arr.
Proof.
  destruct (uniqSorted_spec localeCompare localeCompare_asym arr)
    as [Hnd [Hin Hs]].
  set (r := MainMapbox.uniqSorted localeCompare arr) in *.
  unfold MainMapbox.uniqSorted at 1.
  rewrite filter_nonempty_fixed by (intros x Hx; now apply Hin in Hx).
  unfold MainMapbox.set_of. rewrite set_add_all_fixed by exact Hnd.
  now apply sort_sorted_fixed.
Qed.

End SelectorValues.

Section SelectorData.
Context {number : Type} {N : JSNumber number}.
Variable localeCompare : string -> string -> comparison.

Local Abbreviation val := (value number).
Local Abbreviation props := (object number).

(** X12.  The values offered for a field are the printed values of that
    field in the data, the empty print apart: every such value is offered,
    and nothing else is. *)
Theorem select_values_from_data (k : string) (ps : list props) (v : string) :
  In v (MainMapbox.select_values localeCompare k ps) <->
  v <> "" /\ exists p, In p ps /\ ToString (field p k) = v.
Proof.
  unfold MainMapbox.select_values. rewrite uniqSorted_In, map_map, in_map_iff.
  split.
  - intros [[p [E Hp]] Hv]. split; [exact Hv | now exists p].
  - intros [Hv [p [Hp E]]]. split; [now exists p | exact Hv].
Qed.

Lemma norm_printed (x : val) :
  nullish x = false -> norm x = normalized (ToString x).
Proof. intros H. unfold norm, coalesce. now rewrite H. Qed.

(** X13.  The entry that a feature contributes to a selector selects that
    feature when the field is present, and does not select it when the
    field is absent or [null]: the entries [undefined] and [null] are not
    matched by the features they come from. *)
Theorem own_entry_selects (p : props) :
  (nullish (field p "province") = false ->
   MainMapbox.passesFilters
     (MainMapbox.Controls None (Some (ToString (field p "province"))) None) p
   = true) /\
  (nullish (field p "province") = true ->
   MainMapbox.passesFilters
     (MainMapbox.Controls None (Some (ToString (field p "province"))) None) p
   = false) /\
  (nullish (field p "region") = false ->
   MainMapbox.passesFilters
     (MainMapbox.Controls None None (Some (ToString (field p "region")))) p
   = true) /\
  (nullish (field p "region") = true ->
   MainMapbox.passesFilters
     (MainMapbox.Controls None None (Some (ToString (field p "region")))) p
   = false).
Proof.
  assert (Y : forall x : val, nullish x = false ->
                selector_passes (ToString x) x).
  { intros x Hx. right. now apply norm_printed. }
  assert (Z : forall x : val, nullish x = true ->
                ~ selector_passes (ToString x) x).
  { intros x Hx [E | E]; destruct x; try discriminate;
      cbn in E; discriminate. }
  assert (U : forall v : val, selector_passes (control_text None) v)
    by (intros v; now left).
  assert (T : forall hay, text_passes (control_text None) hay)
    by (intros hay; apply substring_of_nil).
  repeat split; intros H.
  - apply mapbox_passesFilters_iff. cbn [MainMapbox.q MainMapbox.province
      MainMapbox.region]. repeat split; auto. apply Y, H.
  - apply not_true_is_false. intros P. apply mapbox_passesFilters_iff in P.
    cbn [MainMapbox.q MainMapbox.province MainMapbox.region] in P.
    destruct P as [_ [P _]]. exact (Z _ H P).
  - apply mapbox_passesFilters_iff. cbn [MainMapbox.q MainMapbox.province
      MainMapbox.region]. repeat split; auto. apply Y, H.
  - apply not_true_is_false. intros P. apply mapbox_passesFilters_iff in P.
    cbn [MainMapbox.q MainMapbox.province MainMapbox.region] in P.
    destruct P as [_ [_ P]]. exact (Z _ H P).
Qed.

End SelectorData.

Section LoadFurther.
Context {number : Type} {N : JSNumber number} {L : Leaflet number}.
Variable localeCompare : string -> string -> comparison.
Variable DATA_URL : string.

Local Abbreviation val := (value number).
Local Abbreviation props := (object number).

Lemma all_properties_truthy (fs : list val) :
  Forall (fun f => truthy f = true) fs ->
  MainMapbox.all_properties fs = Return (map properties_of fs).
Proof.
  induction 1 as [|f fs Hf _ IH]; [reflexivity |].
  cbn [MainMapbox.all_properties map].
  rewrite (properties_or_empty_of f Hf). cbn [bind]. now rewrite IH.
Qed.

Lemma mapbox_fit_if_any_synced (b : option (MainMapbox.bounds number))
    (d : nat) (s : MainMapbox.state number) :
  mapbox_synced s -> mapbox_synced (MainMapbox.fit_if_any b d s).
Proof.
  intros H. unfold MainMapbox.fit_if_any. destruct b as [b|]; [| exact H].
  destruct (negb (MainMapbox.isEmpty b)); [| exact H].
  destruct H as [H1 H2]. split; [exact H1 | exact H2].
Qed.

Lemma main_load_returns (r : fetch_outcome number) (s : Main.state number) :
  snd (Main.loadGeoJSON r s) = None.
Proof.
  unfold Main.loadGeoJSON. destruct r as [|[|] [gj|]]; try reflexivity.
  destruct (features_of gj) as [fs|e]; [| reflexivity].
  destruct (Main.applyFiltersAndRender _) as [s1 [e|]]; reflexivity.
Qed.

Lemma mapbox_load_returns (r : fetch_outcome number)
    (s : MainMapbox.state number) :
  snd (MainMapbox.loadGeoJSON localeCompare DATA_URL r s) = None.
Proof.
  unfold MainMapbox.loadGeoJSON. destruct r as [|[|] [gj|]]; try reflexivity.
  destruct (features_of gj) as [fs|e]; [| reflexivity].
  destruct (MainMapbox.all_properties fs); [| reflexivity].
  destruct (MainMapbox.applyFiltersAndRender _) as [s1 [e|]];
    [reflexivity |].
  destruct (MainMapbox.boundsForFeatures fs); reflexivity.
Qed.

Lemma main_load_views (gj : val) (fs : list val) (sm : Main.state number) :
  features_of gj = Return fs ->
  (forallb leaflet_reads (filter (keeps (Main.passesFilters (Main.ctl sm))) fs)
   = true ->
   main_synced (fst (Main.loadGeoJSON (Responded true (Some gj)) sm))) /\
  (forallb leaflet_reads (filter (keeps (Main.passesFilters (Main.ctl sm))) fs)
   = false ->
   Main.geoLayer (fst (Main.loadGeoJSON (Responded true (Some gj)) sm))
     = None /\
   Main.count (fst (Main.loadGeoJSON (Responded true (Some gj)) sm))
     = option_map (fun _ => "Failed to load data/tours.geojson")
         (Main.count sm) /\
   Main.console (fst (Main.loadGeoJSON (Responded true (Some gj)) sm))
     = (Main.console sm ++ [LibraryError])%list /\
   Main.fits (fst (Main.loadGeoJSON (Responded true (Some gj)) sm))
     = Main.fits sm).
Proof.
  intros H. pose proof (features_of_truthy gj fs H) as Hfs.
  unfold Main.loadGeoJSON. rewrite H. unfold Main.applyFiltersAndRender.
  cbn [Main.allFeatures Main.set_allFeatures Main.ctl Main.log_request].
  rewrite (filter_by_properties_truthy _ _ Hfs).
  unfold Main.renderCards.
  rewrite (cards_of_truthy _ (Forall_filter_truthy _ fs Hfs)).
  unfold Main.renderMap, Main.geoJSON, Main.initial_fit, main_synced,
    main_shown.
  set (shown := filter (keeps (Main.passesFilters (Main.ctl sm))) fs).
  destruct sm as [af gl c [g|] [cnt|] ft co rq]; cbn in *;
    fold shown; destruct (forallb leaflet_reads shown);
    (split; intros E); try discriminate E;
    try (destruct fs; [| destruct (data_bounds gj)]); cbn;
    repeat split; auto.
Qed.

Lemma mapbox_load_fit (gj : val) (fs : list val)
    (sb : MainMapbox.state number) :
  features_of gj = Return fs ->
  MainMapbox.loadGeoJSON localeCompare DATA_URL (Responded true (Some gj)) sb
  = (let s0 :=
       MainMapbox.set_selects
         (MainMapbox.populateSelect (MainMapbox.provinceSelect sb)
            (MainMapbox.select_values localeCompare "province"
               (map properties_of fs)) "All provinces")
         (MainMapbox.populateSelect (MainMapbox.regionSelect sb)
            (MainMapbox.select_values localeCompare "region"
               (map properties_of fs)) "All regions")
         (MainMapbox.set_allFeatures fs
            (MainMapbox.log_request DATA_URL sb)) in
     let s1 := MainMapbox.setSourceData (mapbox_shown s0) s0 in
     if latitudes_ok (flat_map feature_positions fs)
     then MainMapbox.fit_if_any
            (if existsb has_geometry fs
             then Some (flat_map feature_positions fs) else None) 0 s1
     else MainMapbox.log_error LibraryError s1,
     None).
Proof.
  intros H. pose proof (features_of_truthy gj fs H) as Hfs.
  unfold MainMapbox.loadGeoJSON. rewrite H.
  rewrite (all_properties_truthy fs Hfs).
  unfold MainMapbox.applyFiltersAndRender, mapbox_shown.
  cbn [MainMapbox.allFeatures MainMapbox.set_allFeatures
       MainMapbox.set_selects MainMapbox.log_request].
  rewrite (filter_by_properties_truthy _ _ Hfs).
  rewrite boundsForFeatures_positions. cbn zeta.
  destruct (latitudes_ok (flat_map feature_positions fs)); reflexivity.
Qed.

(** X14.  A response whose features can be read by the script is loaded
    without an exception escaping, and the store holds its truthy features.
    On the card page, when Leaflet reads the features that the controls
    select, the layer, the cards and the count label show them; when it
    cannot read one of them, the page is left without layer, its count
    element says [Failed to load data/tours.geojson], the exception of
    Leaflet is logged and no fit is asked.  On the Mapbox page the two
    selectors are populated from the provinces and regions of the features
    and, when the map has its source, the source holds what the controls
    select; a latitude that the map refuses is logged and leaves the
    viewport, and else one fit is asked when the features hold a
    position. *)
Theorem load_success_in_sync (gj : val) (fs : list val)
    (sm : Main.state number) (sb : MainMapbox.state number) :
  features_of gj = Return fs ->
  (snd (Main.loadGeoJSON (Responded true (Some gj)) sm) = None /\
   Main.allFeatures (fst (Main.loadGeoJSON (Responded true (Some gj)) sm))
     = fs /\
   (forallb leaflet_reads
      (filter (keeps (Main.passesFilters (Main.ctl sm))) fs) = true ->
    main_synced (fst (Main.loadGeoJSON (Responded true (Some gj)) sm))) /\
   (forallb leaflet_reads
      (filter (keeps (Main.passesFilters (Main.ctl sm))) fs) = false ->
    Main.geoLayer (fst (Main.loadGeoJSON (Responded true (Some gj)) sm))
      = None /\
    Main.count (fst (Main.loadGeoJSON (Responded true (Some gj)) sm))
      = option_map (fun _ => "Failed to load data/tours.geojson")
          (Main.count sm) /\
    Main.console (fst (Main.loadGeoJSON (Responded true (Some gj)) sm))
      = (Main.console sm ++ [LibraryError])%list /\
    Main.fits (fst (Main.loadGeoJSON (Responded true (Some gj)) sm))
      = Main.fits sm))
  /\
  (snd (MainMapbox.loadGeoJSON localeCompare DATA_URL
          (Responded true (Some gj)) sb) = None /\
   MainMapbox.allFeatures
     (fst (MainMapbox.loadGeoJSON localeCompare DATA_URL
             (Responded true (Some gj)) sb)) = fs /\
   MainMapbox.provinceSelect
     (fst (MainMapbox.loadGeoJSON localeCompare DATA_URL
             (Responded true (Some gj)) sb))
     = MainMapbox.populateSelect (MainMapbox.provinceSelect sb)
         (MainMapbox.select_values localeCompare "province"
            (map properties_of fs)) "All provinces" /\
   MainMapbox.regionSelect
     (fst (MainMapbox.loadGeoJSON localeCompare DATA_URL
             (Responded true (Some gj)) sb))
     = MainMapbox.populateSelect (MainMapbox.regionSelect sb)
         (MainMapbox.select_values localeCompare "region"
            (map properties_of fs)) "All regions" /\
   (MainMapbox.source sb <> None ->
    mapbox_synced
      (fst (MainMapbox.loadGeoJSON localeCompare DATA_URL
              (Responded true (Some gj)) sb))) /\
   MainMapbox.console
     (fst (MainMapbox.loadGeoJSON localeCompare DATA_URL
             (Responded true (Some gj)) sb))
     = (MainMapbox.console sb ++
        if latitudes_ok (flat_map feature_positions fs) then []
        else [LibraryError])%list /\
   MainMapbox.fits
     (fst (MainMapbox.loadGeoJSON localeCompare DATA_URL
             (Responded true (Some gj)) sb))
     = (MainMapbox.fits sb ++
        if latitudes_ok (flat_map feature_positions fs)
        then match flat_map feature_positions fs with
             | [] => []
             | pts => [MainMapbox.FitBounds pts 60 0]
             end
        else [])%list).
Proof.
  intros H. pose proof (features_of_truthy gj fs H) as Hfs. split.
  - split; [apply main_load_returns |].
    split; [now apply main_load_store |].
    now apply main_load_views.
  - split; [apply mapbox_load_returns |].
    split; [now apply mapbox_load_store |].
    rewrite (mapbox_load_fit gj fs sb H). cbn [fst]. cbn zeta.
    set (s2 := MainMapbox.set_selects _ _ _).
    assert (Hs2 : Forall (fun f => truthy f = true)
                    (MainMapbox.allFeatures s2)) by exact Hfs.
    assert (Hsync : MainMapbox.source sb <> None ->
                    mapbox_synced
                      (MainMapbox.setSourceData (mapbox_shown s2) s2)).
    { intros Hsrc. apply (mapbox_apply_synced s2 Hs2). exact Hsrc. }
    assert (Hno : existsb has_geometry fs = false ->
                  flat_map feature_positions fs = [])
      by apply no_geometry_no_positions.
    set (s3 := MainMapbox.setSourceData (mapbox_shown s2) s2) in *.
    assert (P : MainMapbox.provinceSelect s3 = MainMapbox.provinceSelect s2
                /\ MainMapbox.regionSelect s3 = MainMapbox.regionSelect s2
                /\ MainMapbox.console s3 = MainMapbox.console sb
                /\ MainMapbox.fits s3 = MainMapbox.fits sb).
    { unfold s3, MainMapbox.setSourceData.
      destruct (MainMapbox.source s2); repeat split. }
    destruct P as [P1 [P2 [P3 P4]]].
    unfold MainMapbox.fit_if_any.
    destruct (latitudes_ok (flat_map feature_positions fs));
      destruct (existsb has_geometry fs);
      try rewrite (Hno eq_refl);
      destruct (flat_map feature_positions fs) as [|xy pts];
      cbn [MainMapbox.isEmpty negb];
      (split; [| split; [| split; [| split]]]);
      try (intros Hsrc; destruct (Hsync Hsrc) as [S1 S2]; split; assumption);
      cbn; rewrite ?P1, ?P2, ?P3, ?P4, ?app_nil_r; reflexivity.
Qed.

(** X15.  A successful response whose body is not JSON, is [null], or has
    features that are not an array is refused without an exception
    escaping: the store and everything shown stay as they were, the
    exception is logged on the console, and the card page says
    [Failed to load data/tours.geojson] in its count element. *)
Theorem load_refuses_malformed (body : option val) (e : exn)
    (sm : Main.state number) (sb : MainMapbox.state number) :
  body_error body = Some e ->
  (snd (Main.loadGeoJSON (Responded true body) sm) = None /\
   Main.allFeatures (fst (Main.loadGeoJSON (Responded true body) sm))
     = Main.allFeatures sm /\
   main_cards_shown (fst (Main.loadGeoJSON (Responded true body) sm))
     = main_cards_shown sm /\
   Main.count (fst (Main.loadGeoJSON (Responded true body) sm))
     = option_map (fun _ => "Failed to load data/tours.geojson")
         (Main.count sm) /\
   Main.console (fst (Main.loadGeoJSON (Responded true body) sm))
     = (Main.console sm ++ [e])%list)
  /\
  (snd (MainMapbox.loadGeoJSON localeCompare DATA_URL (Responded true body) sb)
     = None /\
   MainMapbox.allFeatures
     (fst (MainMapbox.loadGeoJSON localeCompare DATA_URL
             (Responded true body) sb)) = MainMapbox.allFeatures sb /\
   mapbox_visible
     (fst (MainMapbox.loadGeoJSON localeCompare DATA_URL
             (Responded true body) sb)) = mapbox_visible sb /\
   MainMapbox.console
     (fst (MainMapbox.loadGeoJSON localeCompare DATA_URL
             (Responded true body) sb))
     = (MainMapbox.console sb ++ [e])%list)
  /\
  (forall gj : val, nullish gj = true -> body_error (Some gj) = Some TypeError)
  /\
  (forall gj : val, nullish gj = false ->
     truthy (field (fields gj) "features") = true ->
     is_array (field (fields gj) "features") = false ->
     body_error (Some gj) = Some TypeError).
Proof.
  intros H. split; [| split; [| split]].
  - unfold body_error in H. unfold Main.loadGeoJSON.
    destruct sm as [af gl c g [cnt|] ft co rq];
      destruct body as [gj|]; [destruct (features_of gj); [discriminate |]
                              | | destruct (features_of gj); [discriminate |]
                              | ];
      inversion H; subst; repeat split.
  - unfold body_error in H. unfold MainMapbox.loadGeoJSON.
    destruct body as [gj|]; [destruct (features_of gj); [discriminate |] |];
      inversion H; subst; repeat split.
  - intros gj Hn. unfold body_error, features_of, get. now rewrite Hn.
  - intros gj Hn Ht Ha. unfold body_error, features_of, get, js_or.
    rewrite Hn. cbn [bind]. rewrite Ht.
    destruct (field (fields gj) "features"); try reflexivity; discriminate.
Qed.

(** X16.  A response without features, or whose features are all falsy,
    empties the pages: the card page shows no card and the count
    [0 tours shown], the layer and the map source are empty, the selectors
    offer only their first entry, and no fit is asked of the map. *)
Theorem load_of_nothing (gj : val) (sm : Main.state number)
    (sb : MainMapbox.state number) :
  features_of gj = Return [] ->
  (Main.geoLayer (fst (Main.loadGeoJSON (Responded true (Some gj)) sm))
     = Some [] /\
   Main.fits (fst (Main.loadGeoJSON (Responded true (Some gj)) sm))
     = Main.fits sm /\
   (Main.grid sm <> None -> Main.count sm <> None ->
    Main.grid (fst (Main.loadGeoJSON (Responded true (Some gj)) sm))
      = Some [] /\
    Main.count (fst (Main.loadGeoJSON (Responded true (Some gj)) sm))
      = Some "0 tours shown"))
  /\
  (MainMapbox.source
     (fst (MainMapbox.loadGeoJSON localeCompare DATA_URL
             (Responded true (Some gj)) sb))
     = option_map (fun _ => []) (MainMapbox.source sb) /\
   MainMapbox.fits
     (fst (MainMapbox.loadGeoJSON localeCompare DATA_URL
             (Responded true (Some gj)) sb)) = MainMapbox.fits sb /\
   MainMapbox.provinceSelect
     (fst (MainMapbox.loadGeoJSON localeCompare DATA_URL
             (Responded true (Some gj)) sb))
     = option_map
         (fun _ => MainMapbox.Select [("", "All provinces")] "")
         (MainMapbox.provinceSelect sb) /\
   MainMapbox.regionSelect
     (fst (MainMapbox.loadGeoJSON localeCompare DATA_URL
             (Responded true (Some gj)) sb))
     = option_map
         (fun _ => MainMapbox.Select [("", "All regions")] "")
         (MainMapbox.regionSelect sb))
  /\
  (forall gj' : val, nullish gj' = false ->
     truthy (field (fields gj') "features") = false ->
     features_of gj' = Return []).
Proof.
  intros H. split; [| split].
  - unfold Main.loadGeoJSON. rewrite H.
    destruct sm as [af gl c [g|] [cnt|] ft co rq]; cbn;
      repeat split; intros; congruence.
  - unfold MainMapbox.loadGeoJSON. rewrite H.
    destruct sb as [af qy [pv|] [rg|] [src|] ft co rq]; cbn; repeat split.
  - intros gj' Hn Ht. unfold features_of, get, js_or. rewrite Hn.
    cbn [bind]. rewrite Ht. reflexivity.
Qed.

End LoadFurther.

(* ================================================================== *)
(** ** Further properties: bounds *)

Section BoundsFurther.
Context {number : Type} {N : JSNumber number}.

Local Abbreviation val := (value number).
Local Abbreviation props := (object number).
Local Abbreviation bounds := (MainMapbox.bounds number).






(** X18.  The bounds of two lists of features put together are the bounds
    of the first followed by those of the second, a list that gives no
    bounds leaving those of the other; they are raised on when the bounds
    of the first are, or else those of the second. *)
Theorem bounds_of_append (fs1 fs2 : list val) :
  MainMapbox.boundsForFeatures (fs1 ++ fs2)%list =
  (b1 <- MainMapbox.boundsForFeatures fs1 ;;
   b2 <- MainMapbox.boundsForFeatures fs2 ;;
   Return (merge_bounds b1 b2)).
Proof.
  rewrite !boundsForFeatures_positions.
  rewrite flat_map_app, latitudes_ok_app, existsb_app.
  destruct (latitudes_ok (flat_map feature_positions fs1)); [| reflexivity].
  destruct (latitudes_ok (flat_map feature_positions fs2)); [| reflexivity].
  cbn [bind andb].
  destruct (existsb has_geometry fs1) eqn:E1;
    destruct (existsb has_geometry fs2) eqn:E2;
    cbn [orb merge_bounds];
    rewrite ?(no_geometry_no_positions fs1 E1),
            ?(no_geometry_no_positions fs2 E2), ?app_nil_r;
    reflexivity.
Qed.

(** X19.  The fit button on a store of truthy items.  When the map accepts
    every latitude of the features shown, the listener raises nothing and
    changes nothing but the requests made to the map: no fit when the
    features shown hold no position, and else one fit of their positions,
    with padding 60 and duration 400.  When a latitude is refused, the
    listener raises the exception of the map library, which nothing
    catches: no fit is asked and the page stays as it was, the console
    apart. *)
Theorem fit_button_effect (s : MainMapbox.state number) :
  Forall (fun f => truthy f = true) (MainMapbox.allFeatures s) ->
  (latitudes_ok (flat_map feature_positions (mapbox_shown s)) = true ->
   exists s',
     MainMapbox.fitClicked s = (s', None) /\
     MainMapbox.handle MainMapbox.ClickFit s = s' /\
     MainMapbox.fits s'
       = match flat_map feature_positions (mapbox_shown s) with
         | [] => MainMapbox.fits s
         | pts => (MainMapbox.fits s ++ [MainMapbox.FitBounds pts 60 400])%list
         end /\
     MainMapbox.allFeatures s' = MainMapbox.allFeatures s /\
     MainMapbox.controls_of s' = MainMapbox.controls_of s /\
     MainMapbox.source s' = MainMapbox.source s /\
     MainMapbox.console s' = MainMapbox.console s /\
     MainMapbox.requests s' = MainMapbox.requests s) /\
  (latitudes_ok (flat_map feature_positions (mapbox_shown s)) = false ->
   MainMapbox.fitClicked s = (s, Some LibraryError) /\
   MainMapbox.handle MainMapbox.ClickFit s
   = MainMapbox.log_error LibraryError s).
Proof.
  intros Hs. cbn [MainMapbox.handle].
  rewrite (fitClicked_positions s Hs).
  split; intros ->; [| split; reflexivity].
  eexists. split; [reflexivity |]. split; [reflexivity |].
  destruct (existsb has_geometry (mapbox_shown s)) eqn:E.
  - destruct (flat_map feature_positions (mapbox_shown s)) as [|xy pts];
      repeat split.
  - rewrite (no_geometry_no_positions _ E). repeat split.
Qed.

End BoundsFurther.

(* ================================================================== *)
(** ** Further properties: popups and colors *)

Lemma replaceAll_absent (c : ascii) (r s : string) :
  occurs c s = false -> replaceAll c r s = s.
Proof.
  induction s as [|a s IH]; [reflexivity |]. cbn.
  intros H. apply orb_false_iff in H. destruct H as [H1 H2].
  rewrite H1. now rewrite IH.
Qed.

Lemma concat_cons_nonempty (sep x : string) (l : list string) :
  String.concat sep (x :: l) =
  x ++ match l with [] => "" | _ => sep ++ String.concat sep l end.
Proof. destruct l; cbn; [now rewrite append_nil_r | reflexivity]. Qed.

Section PopupsFurther.
Context {number : Type} {N : JSNumber number}.

Local Abbreviation val := (value number).
Local Abbreviation props := (object number).



(** X21.  The popup of the Mapbox page is never empty: it starts with the
    escaped title in bold, the slug or [Tour] standing for a title that is
    absent or [null], and whatever follows starts with a line break. *)
Theorem popup_starts_with_title (p : props) :
  exists rest,
    MainMapbox.popupHtml p =
      "<b>" ++ MainMapbox.escapeHtml
                 (coalesce (coalesce (field p "title") (field p "slug"))
                    (VStr "Tour")) ++ "</b>" ++ rest /\
    (rest = "" \/ exists more, rest = "<br>" ++ more).
Proof.
  unfold MainMapbox.popupHtml, MainMapbox.popup_lines, join.
  match goal with
  | |- context [filter nonempty (?x :: ?l)] =>
      change (filter nonempty (x :: l)) with (x :: filter nonempty l);
      set (others := filter nonempty l)
  end.
  rewrite concat_cons_nonempty.
  exists (match others with
          | [] => ""
          | _ => "<br>" ++ String.concat "<br>" others
          end).
  split.
  - now rewrite !append_assoc.
  - destruct others; [now left | right; eauto].
Qed.

Lemma escapeHtml_plain (v : val) :
  plain (ToString v) -> MainMapbox.escapeHtml v = ToString v.
Proof. intros H. now rewrite escapeHtml_each. Qed.

Lemma escapeHtml_plain_string (v : val) :
  plain (ToString v) -> MainMapbox.escapeHtml (VStr (ToString v) : val)
                        = ToString v.
Proof. intros H. now rewrite escapeHtml_each. Qed.

(** X22.  The popup of the Mapbox page is the popup of the Leaflet layer
    on properties such that: the title, the slug, the region, the vertical
    gain and the distance print without any of the characters that the
    HTML escaper replaces; the download link prints without a double
    quote; the region, when truthy, does not print as the empty text (as
    an empty array does, whose line the Mapbox popup drops and the Leaflet
    popup keeps); and no direction is named under either field name. *)
Theorem popups_agree_on_plain_data (p : props) :
  (forall k, In k ["title"; "slug"; "region"; "vert_m"; "distance_km"] ->
             plain (ToString (field p k))) ->
  occurs MainMapbox.dquote (ToString (field p "gpx")) = false ->
  (truthy (field p "region") = true ->
   nonempty (ToString (field p "region")) = true) ->
  truthy (field p "direction") = false ->
  truthy (field p "direcrtion") = false ->
  MainMapbox.popupHtml p = Main.layer_popup p.
Proof.
  intros Hplain Hgpx Hreg Hd1 Hd2.
  assert (Ht : plain (ToString (coalesce (coalesce (field p "title")
                                            (field p "slug")) (VStr "Tour")))).
  { unfold coalesce. destruct (nullish (field p "title")) eqn:E1.
    - destruct (nullish (field p "slug")) eqn:E2; [reflexivity |].
      apply Hplain. simpl. tauto.
    - rewrite E1. apply Hplain. simpl. tauto. }
  unfold MainMapbox.popupHtml, MainMapbox.popup_lines, Main.layer_popup, join.
  unfold js_or. rewrite Hd1, Hd2. cbn [truthy nonempty].
  rewrite (escapeHtml_plain _ Ht).
  rewrite (escapeHtml_plain (field p "region")) by (apply Hplain; simpl; tauto).
  rewrite (escapeHtml_plain_string (field p "vert_m"))
    by (apply Hplain; simpl; tauto).
  rewrite (escapeHtml_plain_string (field p "distance_km"))
    by (apply Hplain; simpl; tauto).
  unfold MainMapbox.escapeAttr. rewrite (replaceAll_absent _ _ _ Hgpx).
  change MainMapbox.quoted with Main.quoted.
  destruct (truthy (field p "region")) eqn:Er;
    [specialize (Hreg eq_refl) |];
    destruct (not_null (field p "vert_m"));
    destruct (not_null (field p "distance_km"));
    destruct (truthy (field p "gpx"));
    cbn [filter nonempty append]; rewrite ?Hreg;
    cbn [String.concat append];
    rewrite ?append_assoc; cbn [append]; rewrite ?append_nil_r;
    reflexivity.
Qed.

(** X23.  On a direction that is a string without white space around it,
    the color that the layers paint is the color that
    [trackColorFromProps] gives, under either name of the field. *)
Theorem paint_agrees_with_trackColor (p : props) (s : string) :
  trim s = s -> s <> "" ->
  field p "direction" = VStr s \/
  (nullish (field p "direction") = true /\ field p "direcrtion" = VStr s) ->
  evaluate p MainMapbox.line_color
    = Some (VStr (MainMapbox.trackColorFromProps (VObj p))) /\
  evaluate p MainMapbox.circle_color
    = Some (VStr (MainMapbox.trackColorFromProps (VObj p))).
Proof.
  intros Ht Hs Hd.
  assert (Hn : nonempty s = true) by now apply nonempty_true_iff.
  assert (E : MainMapbox.trackColorFromProps (VObj p)
              = track_color (classify (toLowerCase s))).
  { rewrite (trackColor_of_direction (VObj p) (VStr s)).
    - rewrite norm_string. unfold normalized. now rewrite Ht.
    - unfold js_or, opt_get. cbn [nullish fields].
      destruct Hd as [-> | [H1 ->]].
      + cbn [truthy]. rewrite ?Hn. cbn [truthy]. now rewrite ?Hn.
      + destruct (field p "direction"); try discriminate;
          cbn [truthy]; rewrite ?Hn; cbn [truthy]; now rewrite ?Hn. }
  unfold MainMapbox.circle_color. rewrite E.
  destruct (paint_color_classifies p) as [P1 [P2 _]].
  destruct Hd as [H | [H1 H2]]; split; auto.
Qed.

End PopupsFurther.

(* ================================================================== *)
(** ** Further properties: the store, what is shown, and escaping *)

Lemma entity_cases (c : ascii) :
  (entity c = String c "" /\ c <> "&"%char) \/
  (exists x tail, entity c = String "&"%char (String x tail) /\
     ((c = "&"%char /\ x = "a"%char) \/ (c = "<"%char /\ x = "l"%char) \/
      (c = ">"%char /\ x = "g"%char) \/
      (c = MainMapbox.dquote /\ x = "q"%char) \/
      (c = "'"%char /\ x = "#"%char))).
Proof.
  unfold entity.
  destruct (Ascii.eqb c "&") eqn:E1;
    [apply Ascii.eqb_eq in E1; right; do 2 eexists; split;
     [reflexivity | tauto] |].
  destruct (Ascii.eqb c "<") eqn:E2;
    [apply Ascii.eqb_eq in E2; right; do 2 eexists; split;
     [reflexivity | tauto] |].
  destruct (Ascii.eqb c ">") eqn:E3;
    [apply Ascii.eqb_eq in E3; right; do 2 eexists; split;
     [reflexivity | tauto] |].
  destruct (Ascii.eqb c MainMapbox.dquote) eqn:E4;
    [apply Ascii.eqb_eq in E4; right; do 2 eexists; split;
     [reflexivity | tauto] |].
  destruct (Ascii.eqb c "'") eqn:E5;
    [apply Ascii.eqb_eq in E5; right; do 2 eexists; split;
     [reflexivity | tauto] |].
  left. split; [reflexivity |]. now apply Ascii.eqb_neq.
Qed.

Lemma entity_head (c d : ascii) (r r' : string) :
  entity c ++ r = entity d ++ r' -> c = d.
Proof.
  intros H.
  destruct (entity_cases c) as [[Ec Nc] | [x [t [Ec Hc]]]];
    destruct (entity_cases d) as [[Ed Nd] | [y [u [Ed Hd]]]];
    rewrite Ec, Ed in H; cbn in H; inversion H; subst; try congruence.
  destruct Hc as [[-> X] | [[-> X] | [[-> X] | [[-> X] | [-> X]]]]];
    destruct Hd as [[-> Y] | [[-> Y] | [[-> Y] | [[-> Y] | [-> Y]]]]];
    try reflexivity; rewrite X in Y; discriminate.
Qed.

Lemma append_cancel_l (a r r' : string) : a ++ r = a ++ r' -> r = r'.
Proof.
  induction a as [|c a IH]; cbn; intros H; [exact H |].
  inversion H. auto.
Qed.

Lemma escape_each_injective (a b : string) :
  escape_each a = escape_each b -> a = b.
Proof.
  revert b. induction a as [|c a IH]; intros [|d b] H.
  - reflexivity.
  - cbn in H. destruct (entity_cases d) as [[E _] | [x [t [E _]]]];
      rewrite E in H; discriminate.
  - cbn in H. destruct (entity_cases c) as [[E _] | [x [t [E _]]]];
      rewrite E in H; discriminate.
  - cbn [escape_each] in H. pose proof (entity_head _ _ _ _ H) as ->.
    apply append_cancel_l in H. f_equal. now apply IH.
Qed.

Section More.
Context {number : Type} {N : JSNumber number} {L : Leaflet number}.
Variable localeCompare : string -> string -> comparison.
Variable DATA_URL : string.

Local Abbreviation val := (value number).
Local Abbreviation props := (object number).

(** X24.  The HTML escaper loses nothing: two values that print
    differently are escaped differently. *)
Theorem escapeHtml_injective (v w : val) :
  MainMapbox.escapeHtml v = MainMapbox.escapeHtml w ->
  ToString v = ToString w.
Proof. rewrite !escapeHtml_each. apply escape_each_injective. Qed.

(** X25.  Of a body that is an object whose [features] are an array, either
    page stores the items that are truthy, in their order: [null], [false],
    [0] and the empty string are dropped, nothing else is. *)
Theorem store_is_truthy_features (body : object number) (items : list val)
    (sm : Main.state number) (sb : MainMapbox.state number) :
  field body "features" = VArr items ->
  Main.allFeatures
    (fst (Main.loadGeoJSON (Responded true (Some (VObj body))) sm))
    = filter truthy items /\
  MainMapbox.allFeatures
    (fst (MainMapbox.loadGeoJSON localeCompare DATA_URL
            (Responded true (Some (VObj body))) sb))
    = filter truthy items.
Proof.
  intros H. pose proof (features_of_array body items H) as E.
  split; [now apply main_load_store | now apply mapbox_load_store].
Qed.

(** X26.  On a page whose views follow the controls, a feature is shown
    exactly when it is in the store, the query is a part of its haystack
    and each selector is unset or equal, once normalised, to its field. *)
Theorem shown_features_match (sm : Main.state number)
    (sb : MainMapbox.state number) (f : val) :
  main_synced sm -> mapbox_synced sb ->
  (Main.geoLayer sm = Some (main_shown sm) /\
   (In f (main_shown sm) <->
    In f (Main.allFeatures sm) /\
    text_passes (control_text (Main.q (Main.ctl sm)))
      (Main.hay (properties_of f)) /\
    selector_passes (control_text (Main.difficulty (Main.ctl sm)))
      (field (properties_of f) "difficulty") /\
    selector_passes (control_text (Main.activity (Main.ctl sm)))
      (field (properties_of f) "activity")))
  /\
  (MainMapbox.source sb = Some (mapbox_shown sb) /\
   (In f (mapbox_shown sb) <->
    In f (MainMapbox.allFeatures sb) /\
    text_passes (control_text (MainMapbox.query sb))
      (MainMapbox.hay (properties_of f)) /\
    selector_passes
      (control_text (option_map MainMapbox.selected
                       (MainMapbox.provinceSelect sb)))
      (field (properties_of f) "province") /\
    selector_passes
      (control_text (option_map MainMapbox.selected
                       (MainMapbox.regionSelect sb)))
      (field (properties_of f) "region"))).
Proof.
  intros [Hm [Lm _]] [Hb Sb].
  assert (K : forall (pred : props -> bool) (fs : list val),
            Forall (fun f => truthy f = true) fs ->
            (In f (filter (keeps pred) fs) <->
             In f fs /\ pred (properties_of f) = true)).
  { intros pred fs Hfs. rewrite filter_In. split; intros [H1 H2];
      (split; [exact H1 |]); rewrite Forall_forall in Hfs;
      unfold keeps in *; rewrite (properties_or_empty_of f (Hfs f H1)) in *;
      exact H2. }
  split; (split; [assumption |]).
  - unfold main_shown. rewrite (K _ _ Hm), main_passesFilters_iff.
    reflexivity.
  - unfold mapbox_shown. rewrite (K _ _ Hb), mapbox_passesFilters_iff.
    reflexivity.
Qed.

End More.

(* ================================================================== *)
(** ** The further properties on sample data *)

Lemma mapbox_loaded_synced : mapbox_synced mapbox_loaded.
Proof. split; [repeat constructor | reflexivity]. Qed.

Lemma main_loaded_synced : main_synced main_loaded.
Proof. split; [repeat constructor | split; [reflexivity | split; reflexivity]]. Qed.

(** Witness of [mapbox_map_follows_controls]: a province chosen, a query
    typed, a fit asked. *)
Lemma mapbox_map_follows_controls_witness :
  mapbox_synced mapbox_loaded /\
  mapbox_synced
    (MainMapbox.run
       [MainMapbox.ChooseProvince "BC"; MainMapbox.TypeQuery "whis";
        MainMapbox.ClickFit] mapbox_loaded).
Proof.
  split; [exact mapbox_loaded_synced |].
  apply (mapbox_map_follows_controls
           [MainMapbox.ChooseProvince "BC"; MainMapbox.TypeQuery "whis";
            MainMapbox.ClickFit] mapbox_loaded).
  split; [repeat constructor | reflexivity].
Defined.

Lemma main_loaded_views : main_views main_loaded.
Proof. split; [repeat constructor | split; [reflexivity | split; reflexivity]]. Qed.

(** Witness of [main_views_agree]: a preset chosen, then a fit asked. *)
Lemma main_views_agree_witness :
  main_views main_loaded /\
  main_views (Main.run [Main.ClickTocChip "whistler"; Main.ClickFit]
                main_loaded) /\
  main_synced (Main.run [Main.ClickTocChip "whistler"; Main.ClickFit]
                 main_loaded).
Proof.
  split; [exact main_loaded_views |].
  destruct (main_views_agree [Main.ClickTocChip "whistler"; Main.ClickFit]
              main_loaded main_loaded_views) as [V S].
  split; [exact V |]. apply S. repeat constructor.
Defined.

(** Witness of [uniqSorted_sorted_unique]. *)
Lemma uniqSorted_sorted_unique_witness :
  (forall a b, base_compare a b = Gt -> base_compare b a <> Gt) /\
  NoDup (MainMapbox.uniqSorted base_compare ["BC"; "AB"; ""; "BC"]).
Proof.
  split; [exact base_compare_asym |].
  exact (proj1 (uniqSorted_sorted_unique base_compare base_compare_asym
                  ["BC"; "AB"; ""; "BC"])).
Defined.

(** Witness of [uniqSorted_idempotent]. *)
Lemma uniqSorted_idempotent_witness :
  (forall a b, base_compare a b = Gt -> base_compare b a <> Gt) /\
  MainMapbox.uniqSorted base_compare
    (MainMapbox.uniqSorted base_compare ["BC"; "AB"; ""; "BC"])
  = MainMapbox.uniqSorted base_compare ["BC"; "AB"; ""; "BC"].
Proof.
  split; [exact base_compare_asym |].
  exact (uniqSorted_idempotent base_compare base_compare_asym
           ["BC"; "AB"; ""; "BC"]).
Defined.

(** Witness of [load_success_in_sync]: the three tours. *)
Lemma load_success_in_sync_witness :
  features_of three_tours
    = Return [tour "BC" "Whistler"; tour "BC" "Squamish";
              tour "AB" "Canmore"] /\
  main_synced main_loaded /\
  (MainMapbox.source mapbox_fresh <> None -> mapbox_synced mapbox_loaded).
Proof.
  assert (F : features_of three_tours
              = Return [tour "BC" "Whistler"; tour "BC" "Squamish";
                        tour "AB" "Canmore"]) by reflexivity.
  split; [exact F |].
  destruct (load_success_in_sync base_compare sample_url three_tours _
              main_fresh mapbox_fresh F)
    as [[_ [_ [Sm _]]] [_ [_ [_ [_ [Sb _]]]]]].
  split; [exact (Sm eq_refl) | exact Sb].
Defined.

(** Witness of [load_refuses_malformed]: the body [null]. *)
Lemma load_refuses_malformed_witness :
  body_error (Some (VNull : value Z)) = Some TypeError /\
  Main.count (fst (Main.loadGeoJSON (Responded true (Some VNull)) main_fresh))
    = Some "Failed to load data/tours.geojson" /\
  mapbox_visible
    (fst (MainMapbox.loadGeoJSON base_compare sample_url
            (Responded true (Some VNull)) mapbox_fresh))
    = mapbox_visible mapbox_fresh.
Proof.
  assert (B : body_error (Some (VNull : value Z)) = Some TypeError)
    by reflexivity.
  split; [exact B |].
  destruct (load_refuses_malformed base_compare sample_url (Some VNull)
              TypeError main_fresh mapbox_fresh B)
    as [[_ [_ [_ [Hc _]]]] [[_ [_ [Hv _]]] _]].
  split; [exact Hc | exact Hv].
Defined.

(** Witness of [load_of_nothing]: a collection without features. *)
Lemma load_of_nothing_witness :
  features_of (VObj [("type", VStr "FeatureCollection")] : value Z)
    = Return [] /\
  (Main.grid main_fresh <> None -> Main.count main_fresh <> None ->
   Main.grid
     (fst (Main.loadGeoJSON
             (Responded true
                (Some (VObj [("type", VStr "FeatureCollection")])))
             main_fresh)) = Some [] /\
   Main.count
     (fst (Main.loadGeoJSON
             (Responded true
                (Some (VObj [("type", VStr "FeatureCollection")])))
             main_fresh)) = Some "0 tours shown").
Proof.
  assert (F : features_of
                (VObj [("type", VStr "FeatureCollection")] : value Z)
              = Return []) by reflexivity.
  split; [exact F |].
  destruct (load_of_nothing base_compare sample_url _ main_fresh
              mapbox_fresh F) as [[_ [_ H]] _].
  exact H.
Defined.

(** Witness of [fit_button_effect]: a line of two positions is shown, and
    the map accepts the latitudes 50 and 51. *)
Lemma fit_button_effect_witness :
  Forall (fun f : value Z => truthy f = true)
    (MainMapbox.allFeatures
       (MainMapbox.set_allFeatures [two_point_line] mapbox_fresh)) /\
  exists s',
    MainMapbox.fitClicked
      (MainMapbox.set_allFeatures [two_point_line] mapbox_fresh) = (s', None) /\
    MainMapbox.fits s'
    = [MainMapbox.FitBounds [((-123)%Z, 50%Z); ((-122)%Z, 51%Z)] 60 400].
Proof.
  assert (F : Forall (fun f : value Z => truthy f = true)
                (MainMapbox.allFeatures
                   (MainMapbox.set_allFeatures [two_point_line]
                      mapbox_fresh)))
    by (repeat constructor).
  split; [exact F |].
  destruct (proj1 (fit_button_effect
                     (MainMapbox.set_allFeatures [two_point_line]
                        mapbox_fresh) F) eq_refl)
    as [s' [H1 [_ [H2 _]]]].
  exists s'. split; [exact H1 | exact H2].
Defined.

(** The fit asked for that line: its two positions, padding 60, duration
    400. *)
Example fit_of_a_line :
  MainMapbox.fits
    (fst (MainMapbox.fitClicked
            (MainMapbox.set_allFeatures [two_point_line] mapbox_fresh)))
  = [MainMapbox.FitBounds [((-123)%Z, 50%Z); ((-122)%Z, 51%Z)] 60 400].
Proof. reflexivity. Qed.

(** A line whose positions are written latitude first: the map library
    refuses the latitude -123, and the fit button raises. *)
Example fit_of_swapped_positions :
  MainMapbox.fitClicked
    (MainMapbox.set_allFeatures [swapped_line] mapbox_fresh)
  = (MainMapbox.set_allFeatures [swapped_line] mapbox_fresh,
     Some LibraryError) /\
  MainMapbox.console
    (fst (MainMapbox.loadGeoJSON base_compare sample_url
            (Responded true (Some (collection [swapped_line])))
            mapbox_fresh))
  = [LibraryError].
Proof. split; reflexivity. Qed.

(** A point without coordinates, which the sample reading of Leaflet
    refuses: the card page is left without layer, its count element says
    that the load failed, and the exception is logged. *)
Example load_of_unreadable_point :
  Main.geoLayer
    (fst (Main.loadGeoJSON (Responded true (Some (collection [empty_point])))
            main_fresh)) = None /\
  Main.count
    (fst (Main.loadGeoJSON (Responded true (Some (collection [empty_point])))
            main_fresh)) = Some "Failed to load data/tours.geojson" /\
  Main.console
    (fst (Main.loadGeoJSON (Responded true (Some (collection [empty_point])))
            main_fresh)) = [LibraryError].
Proof. repeat split. Qed.

(** Witness of [popups_agree_on_plain_data]. *)
Lemma popups_agree_on_plain_data_witness :
  (forall k, In k ["title"; "slug"; "region"; "vert_m"; "distance_km"] ->
             plain (ToString (field plain_tour k))) /\
  MainMapbox.popupHtml plain_tour = Main.layer_popup plain_tour.
Proof.
  assert (H : forall k,
            In k ["title"; "slug"; "region"; "vert_m"; "distance_km"] ->
            plain (ToString (field plain_tour k))).
  { intros k Hk. simpl in Hk.
    destruct Hk as [<- | [<- | [<- | [<- | [<- | []]]]]]; reflexivity. }
  split; [exact H |].
  apply (popups_agree_on_plain_data plain_tour H);
    solve [reflexivity | intros _; reflexivity].
Defined.

(** Witness of [paint_agrees_with_trackColor]: [DOWN] under the misspelled
    name. *)
Lemma paint_agrees_with_trackColor_witness :
  (trim "DOWN" = "DOWN" /\ "DOWN" <> "" /\
   nullish (field descent_tour "direction") = true /\
   field descent_tour "direcrtion" = VStr "DOWN") /\
  evaluate descent_tour MainMapbox.line_color
    = Some (VStr (MainMapbox.trackColorFromProps (VObj descent_tour))).
Proof.
  assert (Hn : "DOWN" <> "") by discriminate.
  split; [repeat split; exact Hn |].
  exact (proj1 (paint_agrees_with_trackColor descent_tour "DOWN" eq_refl Hn
                  (or_intror (conj eq_refl eq_refl)))).
Defined.

(** Witness of [escapeHtml_injective]. *)
Lemma escapeHtml_injective_witness :
  MainMapbox.escapeHtml (VNum 7%Z) = MainMapbox.escapeHtml (VStr "7" : value Z)
  /\ ToString (VNum 7%Z) = ToString (VStr "7" : value Z).
Proof.
  split; [reflexivity |].
  exact (escapeHtml_injective (VNum 7%Z) (VStr "7") eq_refl).
Defined.

(** Witness of [store_is_truthy_features]: the three tours and a [null]. *)
Lemma store_is_truthy_features_witness :
  field (fields three_tours) "features"
    = VArr [tour "BC" "Whistler"; VNull; tour "BC" "Squamish";
            tour "AB" "Canmore"] /\
  Main.allFeatures main_loaded
    = [tour "BC" "Whistler"; tour "BC" "Squamish"; tour "AB" "Canmore"].
Proof.
  split; [reflexivity |].
  exact (proj1 (store_is_truthy_features base_compare sample_url
                  (fields three_tours) _ main_fresh mapbox_fresh eq_refl)).
Defined.

(** Witness of [shown_features_match]. *)
Lemma shown_features_match_witness :
  (main_synced main_loaded /\ mapbox_synced mapbox_loaded) /\
  MainMapbox.source mapbox_loaded = Some (mapbox_shown mapbox_loaded).
Proof.
  split; [split; [exact main_loaded_synced | exact mapbox_loaded_synced] |].
  exact (proj1 (proj2 (shown_features_match main_loaded mapbox_loaded VNull
                         main_loaded_synced mapbox_loaded_synced))).
Defined.
